(** * oc-extraction: the text-to-records core, embedded in Rocq

    The development follows the JavaScript sources:
    - [src/utils/normalize.js]    (dates, amounts, lines, OCR clean-up, confidence)
    - [src/parsers/classifier.js] (keyword scoring and the verdict)
    - [src/parsers/bankParser.js] (bank header and transaction rows)
    - [src/parsers/taxParser.js]  (tax header, deductor blocks, TDS rows)
    - [src/workers/processor.js]  (steps 4 to 7 of [processJob]: classify,
      extract, blend the confidence, assemble, validate)

    A JavaScript string is a list of UTF-16 code units, a number is an
    IEEE-754 binary64 value ([spec_float] at precision 53), [null] is
    [None].  Regular expressions are kept as syntax trees and run by a
    backtracking matcher that follows the ECMAScript matching rules
    (leftmost start, alternatives in order, greedy quantifiers, captures
    cleared on each iteration).  The patterns of the sources are quoted
    in comments above their syntax trees; where a pattern has a star
    right before a closing parenthesis, a blank separates the two. *)

From Stdlib Require Import String Ascii List Bool Arith ZArith NArith Lia.
From Stdlib Require Import FunctionalExtensionality.
From Stdlib Require Import SpecFloat DecimalString.
From Stdlib Require DecimalN.
Import ListNotations.

Set Implicit Arguments.

(** ** Code units and strings *)

Definition cu := N.
Definition jsstring := list cu.

Definition lit (s : string) : jsstring :=
  List.map N_of_ascii (list_ascii_of_string s).

Definition ch (a : ascii) : cu := N_of_ascii a.

Fixpoint jseqb (a b : jsstring) : bool :=
  match a, b with
  | [], [] => true
  | x :: a', y :: b' => N.eqb x y && jseqb a' b'
  | _, _ => false
  end.

(** Character classes of the regular expressions in the sources.  The
    regular expressions there carry no [u] flag, so a class is a set of
    code units. *)

Definition cset := cu -> bool.

Definition between (lo hi : N) : cset := fun c => (lo <=? c)%N && (c <=? hi)%N.
Definition chr (a : ascii) : cset := fun c => N.eqb c (ch a).
Definition code (n : N) : cset := fun c => N.eqb c n.
Definition union (p q : cset) : cset := fun c => p c || q c.
Definition compl (p : cset) : cset := fun c => negb (p c).
Infix ":|:" := union (at level 50, left associativity).

Definition isDigit : cset := between 48 57.          (* \d *)
Definition isUpper : cset := between 65 90.          (* A-Z *)
Definition isLower : cset := between 97 122.         (* a-z *)
Definition isAlpha : cset := isUpper :|: isLower.
Definition isWordChar : cset := isAlpha :|: isDigit :|: chr "_".   (* \w *)

(** [\s]: WhiteSpace and LineTerminator of ECMAScript. *)
Definition isSpace : cset := fun c =>
  ((9 <=? c) && (c <=? 13) || (c =? 32) || (c =? 160) || (c =? 5760)
   || ((8192 <=? c) && (c <=? 8202)) || (c =? 8232) || (c =? 8233)
   || (c =? 8239) || (c =? 8287) || (c =? 12288) || (c =? 65279))%N.

(** [.] without the [s] flag: anything but a line terminator. *)
Definition isDot : cset := fun c =>
  negb ((c =? 10) || (c =? 13) || (c =? 8232) || (c =? 8233))%N.

Fixpoint oneOfList (l : jsstring) : cset :=
  match l with
  | [] => fun _ => false
  | x :: l' => fun c => N.eqb c x || oneOfList l' c
  end.
Definition oneOf (s : string) : cset := oneOfList (lit s).

(** Case folding of the [i] flag (no [u] flag): two code units match when
    their [toUpperCase] images agree, and a unit at or above 128 is never
    folded onto one below 128; for the ASCII letters of the patterns this
    leaves exactly the two ASCII cases. *)
Definition foldCase (c : cu) : cset :=
  if isUpper c then code c :|: code (c + 32)%N
  else if isLower c then code c :|: code (c - 32)%N
  else code c.

Definition rupee : cu := 8377%N.   (* U+20B9 *)
Definition euro  : cu := 8364%N.   (* U+20AC *)
Definition pound : cu := 163%N.    (* U+00A3 *)
Definition yen   : cu := 165%N.    (* U+00A5 *)
Definition won   : cu := 8361%N.   (* U+20A9 *)
Definition endash : cu := 8211%N.  (* U+2013 *)

(** ** Regular expressions *)

Module RegExp.

Inductive regex : Type :=
| Empty                                            (* the empty pattern *)
| Char (c : cset)                                  (* one code unit of a class *)
| Seq (r1 r2 : regex)
| Alt (r1 r2 : regex)                              (* r1|r2, r1 first *)
| Rep (lo : nat) (hi : option nat) (r : regex)     (* greedy r{lo,hi} *)
| Group (i : nat) (r : regex)                      (* i-th capturing group *)
| Ahead (r : regex)                                (* (?=r) *)
| Bound                                            (* \b *)
| Bol                                              (* ^ *)
| Eol.                                             (* $ *)

(** Matcher state: the code unit before the current position (none at
    the start of the input), the input that remains, and the captures
    made so far. *)
Record mstate : Type := MState {
  m_prev : option cu;
  m_rest : jsstring;
  m_caps : list (nat * jsstring)
}.

Definition cont := mstate -> option mstate.

Fixpoint groupsOf (r : regex) : list nat :=
  match r with
  | Seq a b | Alt a b => groupsOf a ++ groupsOf b
  | Rep _ _ a | Ahead a => groupsOf a
  | Group i a => i :: groupsOf a
  | _ => []
  end.

Definition clearCaps (gs : list nat) (caps : list (nat * jsstring)) :=
  filter (fun p => negb (existsb (Nat.eqb (fst p)) gs)) caps.

Definition setCap (i : nat) (v : jsstring) (caps : list (nat * jsstring)) :=
  (i, v) :: filter (fun p => negb (Nat.eqb (fst p) i)) caps.

Fixpoint getCap (i : nat) (caps : list (nat * jsstring)) : option jsstring :=
  match caps with
  | [] => None
  | (j, v) :: caps' => if Nat.eqb i j then Some v else getCap i caps'
  end.

Definition isWordAt (o : option cu) : bool :=
  match o with Some c => isWordChar c | None => false end.

(** RepeatMatcher of ECMAScript: once the lower bound is met an iteration
    that consumes nothing is rejected; the captures of the repeated atom
    are cleared when an iteration starts.  [fuel] bounds the number of
    iterations; [lo + length rest + 1] is never exhausted, as an
    iteration past the lower bound consumes input. *)
Fixpoint repLoop (step : mstate -> cont -> option mstate) (gs : list nat)
    (fuel lo : nat) (hi : option nat) (s : mstate) (k : cont) : option mstate :=
  match hi with
  | Some 0 => k s
  | _ =>
    match fuel with
    | 0 => k s
    | S fuel' =>
      let d : cont := fun y =>
        if Nat.eqb lo 0 && Nat.eqb (length (m_rest y)) (length (m_rest s))
        then None
        else repLoop step gs fuel' (pred lo) (option_map pred hi) y k in
      let xr := MState (m_prev s) (m_rest s) (clearCaps gs (m_caps s)) in
      if Nat.eqb lo 0
      then match step xr d with Some z => Some z | None => k s end
      else step xr d
    end
  end.

Fixpoint run (r : regex) (s : mstate) (k : cont) {struct r} : option mstate :=
  match r with
  | Empty => k s
  | Char c =>
    match m_rest s with
    | x :: t => if c x then k (MState (Some x) t (m_caps s)) else None
    | [] => None
    end
  | Seq a b => run a s (fun s' => run b s' k)
  | Alt a b => match run a s k with Some z => Some z | None => run b s k end
  | Rep lo hi a =>
    repLoop (run a) (groupsOf a) (lo + length (m_rest s) + 1) lo hi s k
  | Group i a =>
    run a s (fun s' =>
      let n := length (m_rest s) - length (m_rest s') in
      k (MState (m_prev s') (m_rest s') (setCap i (firstn n (m_rest s)) (m_caps s'))))
  | Ahead a =>
    match run a s Some with
    | Some s' => k (MState (m_prev s) (m_rest s) (m_caps s'))
    | None => None
    end
  | Bound =>
    if xorb (isWordAt (m_prev s)) (isWordAt (hd_error (m_rest s))) then k s else None
  | Bol => match m_prev s with None => k s | Some _ => None end
  | Eol => match m_rest s with [] => k s | _ :: _ => None end
  end.

(** A match as [String.prototype.match] and [RegExp.prototype.exec] return
    it: the index, the matched text (element 0) and one entry per
    capturing group. *)
Record mresult : Type := MResult {
  m_index : nat;
  m_text : jsstring;
  m_groups : list (option jsstring)
}.

Fixpoint maxGroup (l : list nat) : nat :=
  match l with [] => 0 | i :: l' => Nat.max i (maxGroup l') end.

Definition nGroups (r : regex) : nat := maxGroup (groupsOf r).

Definition groupList (r : regex) (caps : list (nat * jsstring)) :=
  List.map (fun i => getCap i caps) (seq 1 (nGroups r)).

(** One attempt at the current position. *)
Definition matchHere (r : regex) (prev : option cu) (rest : jsstring)
    : option (nat * list (option jsstring)) :=
  match run r (MState prev rest []) Some with
  | Some s' => Some (length rest - length (m_rest s'), groupList r (m_caps s'))
  | None => None
  end.

(** The leftmost match at or after the current position. *)
Fixpoint searchFrom (r : regex) (prev : option cu) (rest : jsstring) (idx : nat)
    {struct rest} : option mresult :=
  match matchHere r prev rest with
  | Some (n, gs) => Some (MResult idx (firstn n rest) gs)
  | None =>
    match rest with
    | [] => None
    | c :: t => searchFrom r (Some c) t (S idx)
    end
  end.

(** [s.match(r)] and [r.exec(s)] for a pattern without the [g] flag. *)
Definition exec (r : regex) (s : jsstring) : option mresult := searchFrom r None s 0.

(** [r.test(s)]. *)
Definition test (r : regex) (s : jsstring) : bool :=
  match exec r s with Some _ => true | None => false end.

(** All matches of a pattern with the [g] flag, left to right; after an
    empty match the scan moves one code unit on.  [skip] counts the code
    units of the last match still to be passed. *)
Fixpoint scan (r : regex) (prev : option cu) (rest : jsstring) (idx skip : nat)
    {struct rest} : list mresult :=
  match skip with
  | S n =>
    match rest with
    | [] => []
    | c :: t => scan r (Some c) t (S idx) n
    end
  | 0 =>
    match matchHere r prev rest with
    | Some (n, gs) =>
      MResult idx (firstn n rest) gs ::
      match rest with
      | [] => []
      | c :: t => scan r (Some c) t (S idx) (pred n)
      end
    | None =>
      match rest with
      | [] => []
      | c :: t => scan r (Some c) t (S idx) 0
      end
    end
  end.

Definition matchAll (r : regex) (s : jsstring) : list mresult := scan r None s 0 0.

(** [s.replace(r, repl)] for a pattern with the [g] flag and a replacement
    text without [$]. *)
Fixpoint replaceGo (r : regex) (repl : jsstring) (prev : option cu)
    (rest : jsstring) (skip : nat) {struct rest} : jsstring :=
  match skip with
  | S n =>
    match rest with
    | [] => []
    | c :: t => replaceGo r repl (Some c) t n
    end
  | 0 =>
    match matchHere r prev rest with
    | Some (n, _) =>
      repl ++
      match rest with
      | [] => []
      | c :: t => (if Nat.eqb n 0 then [c] else []) ++ replaceGo r repl (Some c) t (pred n)
      end
    | None =>
      match rest with
      | [] => []
      | c :: t => c :: replaceGo r repl (Some c) t 0
      end
    end
  end.

Definition replaceAll (r : regex) (repl : jsstring) (s : jsstring) : jsstring :=
  replaceGo r repl None s 0.

(** [s.replace(r, repl)] for a pattern without the [g] flag. *)
Definition replaceFirst (r : regex) (repl : jsstring) (s : jsstring) : jsstring :=
  match exec r s with
  | Some m => firstn (m_index m) s ++ repl ++ skipn (m_index m + length (m_text m)) s
  | None => s
  end.

(** [s.split(r)] for a separator pattern that never matches the empty
    string: the pieces between the matches. *)
Fixpoint splitGo (r : regex) (prev : option cu) (rest : jsstring) (skip : nat)
    (cur : jsstring) {struct rest} : list jsstring :=
  match skip with
  | S n =>
    match rest with
    | [] => [rev cur]
    | c :: t => splitGo r (Some c) t n cur
    end
  | 0 =>
    match rest with
    | [] => [rev cur]
    | c :: t =>
      match matchHere r prev rest with
      | Some (S n, _) => rev cur :: splitGo r (Some c) t n []
      | _ => splitGo r (Some c) t 0 (c :: cur)
      end
    end
  end.

Definition split (r : regex) (s : jsstring) : list jsstring := splitGo r None s 0 [].

(** Pattern combinators. *)
Fixpoint strOf (l : jsstring) : regex :=
  match l with
  | [] => Empty
  | [c] => Char (code c)
  | c :: l' => Seq (Char (code c)) (strOf l')
  end.

Fixpoint striOf (l : jsstring) : regex :=
  match l with
  | [] => Empty
  | [c] => Char (foldCase c)
  | c :: l' => Seq (Char (foldCase c)) (striOf l')
  end.

Definition str (s : string) : regex := strOf (lit s).     (* literal text *)
Definition stri (s : string) : regex := striOf (lit s).   (* literal text under /i *)
Definition star (r : regex) : regex := Rep 0 None r.
Definition plus (r : regex) : regex := Rep 1 None r.
Definition opt (r : regex) : regex := Rep 0 (Some 1) r.
Definition atLeast (n : nat) (r : regex) : regex := Rep n None r.
Definition times (n m : nat) (r : regex) : regex := Rep n (Some m) r.

End RegExp.

Import RegExp.

Declare Scope re_scope.
Delimit Scope re_scope with re.
Bind Scope re_scope with regex.
Infix ">>" := Seq (right associativity, at level 60) : re_scope.
Infix "<|>" := Alt (right associativity, at level 70) : re_scope.

(** ** Strings: the built-in methods the sources call *)

Module Str.

Fixpoint dropWhile (p : cset) (s : jsstring) : jsstring :=
  match s with
  | c :: t => if p c then dropWhile p t else s
  | [] => []
  end.

Definition trimStart (s : jsstring) : jsstring := dropWhile isSpace s.
Definition trimEnd (s : jsstring) : jsstring := rev (dropWhile isSpace (rev s)).
(** [s.trim()]: strips WhiteSpace and LineTerminator, the set of [\s]. *)
Definition trim (s : jsstring) : jsstring := trimEnd (trimStart s).

Fixpoint startsWith (p s : jsstring) : bool :=
  match p, s with
  | [], _ => true
  | x :: p', y :: s' => N.eqb x y && startsWith p' s'
  | _ :: _, [] => false
  end.

Definition endsWith (p s : jsstring) : bool := startsWith (rev p) (rev s).

(** [s.slice(a, b)] for [0 <= a] and [0 <= b]. *)
Definition slice (a b : nat) (s : jsstring) : jsstring := firstn (b - a) (skipn a s).

Fixpoint join (sep : jsstring) (l : list jsstring) : jsstring :=
  match l with
  | [] => []
  | [x] => x
  | x :: l' => x ++ sep ++ join sep l'
  end.

(** [toUpperCase] and [toLowerCase].  The sources apply [toUpperCase]
    and one [toLowerCase] to text matched by ASCII classes; the other
    [toLowerCase] is applied to the file name, whose result is only
    tested against ASCII words.  Two code units outside ASCII lower into
    ASCII letters (U+212A to [k], U+0130 to [i] and U+0307); the other
    code units outside ASCII stay outside ASCII and are kept as they
    are. *)
Definition upperUnit (c : cu) : cu := if isLower c then (c - 32)%N else c.

Definition lowerUnit (c : cu) : jsstring :=
  if isUpper c then [(c + 32)%N]
  else if N.eqb c 8490 then [107%N]
  else if N.eqb c 304 then [105%N; 775%N]
  else [c].

Definition toUpperCase (s : jsstring) : jsstring := List.map upperUnit s.
Definition toLowerCase (s : jsstring) : jsstring := flat_map lowerUnit s.

End Str.

(** ** Numbers: IEEE-754 binary64 *)

Module Num.

Definition number := spec_float.
Definition prec : Z := 53.
Definition emax : Z := 1024.

Definition NaN : number := S754_nan.
Definition ofZ (z : Z) : number := binary_normalize prec emax z 0 false.
Definition ofNat (n : nat) : number := ofZ (Z.of_nat n).
Definition add : number -> number -> number := SFadd prec emax.
Definition mul : number -> number -> number := SFmul prec emax.
Definition div : number -> number -> number := SFdiv prec emax.
Definition neg : number -> number := SFopp.
Definition ltb : number -> number -> bool := SFltb.
Definition leb : number -> number -> bool := SFleb.
Definition isNaN (x : number) : bool :=
  match x with S754_nan => true | _ => false end.
Definition isZero (x : number) : bool :=
  match x with S754_zero _ => true | _ => false end.

(** ToBoolean on a number: [0], [-0] and [NaN] are falsy. *)
Definition truthy (x : number) : bool := negb (isZero x || isNaN x).

(** The number nearest to [m * 10^e] for [0 <= m] (ties to even), as a
    decimal literal or [parseFloat] produces it. *)
Definition ofDecimal (m : Z) (e : Z) : number :=
  match m with
  | Z0 => S754_zero false
  | Zneg _ => S754_nan
  | Zpos _ =>
    if (0 <=? e)%Z then binary_normalize prec emax (m * 10 ^ e) 0 false
    else
      let '(q, e', l) := SFdiv_core_binary prec emax m 0 (10 ^ (- e)) 0 in
      binary_round_aux prec emax false q e' l
  end.

(** [Math.round]: the nearest integer, a tie going up; [-0] for
    [-0.5 <= x < 0]. *)
Definition round (x : number) : number :=
  match x with
  | S754_finite s m e =>
    if (0 <=? e)%Z then x
    else
      let d := (2 ^ (- e))%Z in
      let v := (if s then - Zpos m else Zpos m)%Z in
      let n := ((2 * v + d) / (2 * d))%Z in
      if (n =? 0)%Z then S754_zero s else ofZ n
  | _ => x
  end.

(** [Math.max] and [Math.min] of two numbers. *)
Definition max (a b : number) : number :=
  match SFcompare a b with
  | None => NaN
  | Some Lt => b
  | Some Gt => a
  | Some Eq => match a, b with S754_zero true, S754_zero false => b | _, _ => a end
  end.

Definition min (a b : number) : number :=
  match SFcompare a b with
  | None => NaN
  | Some Lt => a
  | Some Gt => b
  | Some Eq => match a, b with S754_zero false, S754_zero true => b | _, _ => a end
  end.

Fixpoint takeDigits (s : jsstring) : jsstring * jsstring :=
  match s with
  | c :: t =>
    if isDigit c then let '(d, r) := takeDigits t in (c :: d, r) else ([], s)
  | [] => ([], [])
  end.

Definition digitsVal (ds : jsstring) : Z :=
  fold_left (fun a c => (10 * a + (Z.of_N c - 48))%Z) ds 0%Z.

Definition takeSign (s : jsstring) : bool * jsstring :=
  match s with
  | c :: t =>
    if chr "-" c then (true, t) else if chr "+" c then (false, t) else (false, s)
  | [] => (false, [])
  end.

(** [parseFloat]: leading white space is skipped, then the longest
    prefix that is a StrDecimalLiteral is read; [NaN] when there is
    none. *)
Definition parseFloat (s : jsstring) : number :=
  let '(sg, s1) := takeSign (Str.trimStart s) in
  if Str.startsWith (lit "Infinity") s1 then S754_infinity sg
  else
    let '(ip, s2) := takeDigits s1 in
    let '(fp, s3) :=
      match s2 with
      | c :: t => if chr "." c then takeDigits t else ([], s2)
      | [] => ([], s2)
      end in
    match ip ++ fp with
    | [] => NaN
    | ds =>
      let ex :=
        match s3 with
        | c :: t =>
          if (chr "e" :|: chr "E") c then
            let '(esg, t') := takeSign t in
            let '(ed, _) := takeDigits t' in
            match ed with
            | [] => 0%Z
            | _ => if esg then (- digitsVal ed)%Z else digitsVal ed
            end
          else 0%Z
        | [] => 0%Z
        end in
      let v := ofDecimal (digitsVal ds) (ex - Z.of_nat (length fp)) in
      if sg then neg v else v
    end.

End Num.

(** ** Dates: the part of date-fns that [normalizeDate] calls

    [parse], [isValid] and [format] come from the date-fns package, which
    the repository imports and does not contain.  They are modelled here
    from the documented behaviour of the package for the tokens that
    occur in [DATE_FORMATS] ([yyyy], [MM], [M], [MMM], [dd], [d] and
    literal characters, English locale).  A [Date] is kept as its
    calendar fields. *)

Module DateFns.

Record date : Type := Date {
  dYear : Z;      (* full year *)
  dMonth : Z;     (* 0 = January *)
  dDay : Z;       (* day of the month *)
  dTime : Z       (* milliseconds since midnight *)
}.

(** What a call of [parse] can do: return Invalid Date, return a date, or
    raise a RangeError. *)
Inductive outcome : Type :=
| Invalid
| Valid (d : date)
| Throw.

(** The format string is cut into tokens: a run of one repeated letter,
    or a single other character. *)
Fixpoint tokenize (s : jsstring) : list jsstring :=
  match s with
  | [] => []
  | c :: t =>
    match tokenize t with
    | (c' :: tok) :: rest =>
      if isWordChar c && N.eqb c c' then (c :: c' :: tok) :: rest
      else [c] :: (c' :: tok) :: rest
    | rest => [c] :: rest
    end
  end.

Definition parseInt (ds : jsstring) : Z := Num.digitsVal ds.

(** [parseNumericPattern]: the pattern is anchored at the start of what
    is left of the input. *)
Definition parseNumericPattern (r : regex) (s : jsstring) : option (Z * jsstring) :=
  match exec r s with
  | Some m => Some (parseInt (m_text m), skipn (length (m_text m)) s)
  | None => None
  end.

Definition digit : regex := Char isDigit.
(* /^(1[0-2]|0?\d)/ *)
Definition monthPattern : regex :=
  (Bol >> Group 1 ((str "1" >> Char (between 48 50)) <|> (opt (str "0") >> digit)))%re.
(* /^(3[0-1]|[0-2]?\d)/ *)
Definition datePattern : regex :=
  (Bol >> Group 1 ((str "3" >> Char (between 48 49)) <|> (opt (Char (between 48 50)) >> digit)))%re.
(* /^\d{1,n}/ *)
Definition nDigits (n : nat) : regex := (Bol >> times 1 n digit)%re.

(* /^(jan|feb|mar|apr|may|jun|jul|aug|sep|oct|nov|dec)/i *)
Definition monthAbbreviated : regex :=
  (Bol >> Group 1 (stri "jan" <|> stri "feb" <|> stri "mar" <|> stri "apr" <|> stri "may"
     <|> stri "jun" <|> stri "jul" <|> stri "aug" <|> stri "sep" <|> stri "oct"
     <|> stri "nov" <|> stri "dec"))%re.
(* /^[jfmasond]/i *)
Definition monthNarrow : regex :=
  (Bol >> Char (oneOf "jfmasondJFMASOND"))%re.

Open Scope string_scope.
(* /^ja/i, /^f/i, /^mar/i, /^ap/i, /^may/i, /^jun/i, /^jul/i, /^au/i, /^s/i, /^o/i, /^n/i, /^d/i *)
Definition parseMonthAny : list regex :=
  List.map (fun p => (Bol >> stri p)%re)
    ["ja"; "f"; "mar"; "ap"; "may"; "jun"; "jul"; "au"; "s"; "o"; "n"; "d"].
(* /^j/i, /^f/i, /^m/i, /^a/i, /^m/i, /^j/i, /^j/i, /^a/i, /^s/i, /^o/i, /^n/i, /^d/i *)
Definition parseMonthNarrow : list regex :=
  List.map (fun p => (Bol >> stri p)%re)
    ["j"; "f"; "m"; "a"; "m"; "j"; "j"; "a"; "s"; "o"; "n"; "d"].
Close Scope string_scope.

Fixpoint findIndex {A : Type} (p : A -> bool) (l : list A) : option nat :=
  match l with
  | [] => None
  | x :: l' => if p x then Some 0 else option_map S (findIndex p l')
  end.

(** [match.month] of the locale: the text is matched by the pattern of
    the width, the month is the index of the first parse pattern that
    fits the matched text. *)
Definition matchMonth (pat : regex) (parsePats : list regex) (s : jsstring)
    : option (Z * jsstring) :=
  match exec pat s with
  | Some m =>
    match findIndex (fun r => test r (m_text m)) parsePats with
    | Some i => Some (Z.of_nat i, skipn (length (m_text m)) s)
    | None => None
    end
  | None => None
  end.

(** The values read so far. *)
Record fields : Type := Fields {
  fYear : option Z;
  fMonth : option Z;     (* 0 = January *)
  fDay : option Z
}.

Definition keepFirst (old : option Z) (v : Z) : option Z :=
  match old with Some _ => old | None => Some v end.

Inductive step : Type :=
| Mismatch                                  (* the token does not fit: Invalid Date *)
| Unknown                                   (* a letter this model has no parser for *)
| Next (f : fields) (rest : jsstring).

(** One token of the format against the input. *)
Definition parseToken (tok : jsstring) (f : fields) (s : jsstring) : step :=
  match tok with
  | [] => Next f s
  | c :: _ =>
    if chr "y" c then
      match length tok with
      | 2 => Unknown     (* two-digit years: not in DATE_FORMATS *)
      | n =>
        match parseNumericPattern (nDigits (if Nat.eqb n 1 then 4 else n)) s with
        | Some (v, rest) => Next (Fields (keepFirst (fYear f) v) (fMonth f) (fDay f)) rest
        | None => Mismatch
        end
      end
    else if chr "M" c then
      let r :=
        match length tok with
        | 1 => parseNumericPattern monthPattern s
        | 2 => parseNumericPattern (nDigits 2) s
        | 3 =>
          match matchMonth monthAbbreviated parseMonthAny s with
          | Some x => Some x
          | None => matchMonth monthNarrow parseMonthNarrow s
          end
        | _ => None
        end in
      match length tok with
      | 1 | 2 =>
        match r with
        | Some (v, rest) => Next (Fields (fYear f) (keepFirst (fMonth f) (v - 1)) (fDay f)) rest
        | None => Mismatch
        end
      | 3 =>
        match r with
        | Some (v, rest) => Next (Fields (fYear f) (keepFirst (fMonth f) v) (fDay f)) rest
        | None => Mismatch
        end
      | _ => Unknown
      end
    else if chr "d" c then
      match (if Nat.eqb (length tok) 1 then parseNumericPattern datePattern s
             else parseNumericPattern (nDigits (length tok)) s) with
      | Some (v, rest) => Next (Fields (fYear f) (fMonth f) (keepFirst (fDay f) v)) rest
      | None => Mismatch
      end
    else if isAlpha c then Unknown
    else if Str.startsWith tok s then Next f (skipn (length tok) s)
    else Mismatch
  end.

Fixpoint parseTokens (toks : list jsstring) (f : fields) (s : jsstring)
    : step :=
  match toks with
  | [] => Next f s
  | tok :: toks' =>
    match parseToken tok f s with
    | Next f' s' => parseTokens toks' f' s'
    | other => other
    end
  end.

Definition isLeapYearIndex (y : Z) : bool :=
  ((y mod 400 =? 0) || ((y mod 4 =? 0) && negb (y mod 100 =? 0)))%Z.

Definition DAYS_IN_MONTH : list Z := [31; 28; 31; 30; 31; 30; 31; 31; 30; 31; 30; 31]%Z.
Definition DAYS_IN_MONTH_LEAP_YEAR : list Z := [31; 29; 31; 30; 31; 30; 31; 31; 30; 31; 30; 31]%Z.

Definition daysIn (y m : Z) : Z :=
  nth (Z.to_nat m) (if isLeapYearIndex y then DAYS_IN_MONTH_LEAP_YEAR else DAYS_IN_MONTH) 0%Z.

(** The setters run by priority: year, month, day.  Each validates its
    value against the date built so far, then writes it and sets the
    time of day to midnight; the year setter moves to 1 January, the
    month setter to the first of the month. *)
Definition setYear (v : option Z) (d : date) : option date :=
  match v with
  | None => Some d
  | Some y => if (0 <? y)%Z then Some (Date y 0 1 0) else None
  end.

Definition setMonth (v : option Z) (d : date) : option date :=
  match v with
  | None => Some d
  | Some m =>
    if ((0 <=? m) && (m <=? 11))%Z then Some (Date (dYear d) m 1 0) else None
  end.

Definition setDay (v : option Z) (d : date) : option date :=
  match v with
  | None => Some d
  | Some n =>
    if ((1 <=? n) && (n <=? daysIn (dYear d) (dMonth d)))%Z
    then Some (Date (dYear d) (dMonth d) n 0) else None
  end.

(** [parse(dateString, formatString, referenceDate)]: what is left of
    the input after the last token must be white space; the fields that
    the format does not mention are those of the reference date. *)
Definition parse (s : jsstring) (fmt : jsstring) (ref : date) : outcome :=
  match parseTokens (tokenize fmt) (Fields None None None) s with
  | Mismatch => Invalid
  | Unknown => Throw
  | Next f rest =>
    if existsb (fun c => negb (isSpace c)) rest then Invalid
    else
      match setYear (fYear f) ref with
      | None => Invalid
      | Some d1 =>
        match setMonth (fMonth f) d1 with
        | None => Invalid
        | Some d2 =>
          match setDay (fDay f) d2 with
          | None => Invalid
          | Some d3 => Valid d3
          end
        end
      end
  end.

Definition decimal (n : Z) : jsstring :=
  lit (NilZero.string_of_uint (N.to_uint (Z.to_N n))).

(** [addLeadingZeros(number, targetLength)] for [0 <= number]. *)
Definition addLeadingZeros (n : Z) (len : nat) : jsstring :=
  let ds := decimal n in
  repeat (ch "0") (len - length ds) ++ ds.

(** [format(d, 'yyyy-MM-dd')]. *)
Definition formatISO (d : date) : jsstring :=
  let y := if (0 <? dYear d)%Z then dYear d else (1 - dYear d)%Z in
  addLeadingZeros y 4 ++ lit "-" ++ addLeadingZeros (dMonth d + 1) 2
    ++ lit "-" ++ addLeadingZeros (dDay d) 2.

End DateFns.

Import DateFns.

(** Pattern shorthands: [\s], [\s+], [\s*], [\d]. *)
Definition sp : regex := Char isSpace.
Definition sp1 : regex := plus sp.
Definition sp0 : regex := star sp.
Definition dg : regex := Char isDigit.

(** ** src/utils/normalize.js *)

Module Normalize.

Open Scope string_scope.
Definition DATE_FORMATS : list jsstring :=
  List.map lit
    [ "dd/MM/yyyy"; "MM/dd/yyyy"; "yyyy-MM-dd";
      "dd-MM-yyyy"; "MM-dd-yyyy"; "d/M/yyyy"; "d-M-yyyy";
      "dd MMM yyyy"; "dd-MMM-yyyy"; "MMM dd, yyyy"; "MMM d, yyyy";
      "dd.MM.yyyy"; "yyyy/MM/dd" ].
Close Scope string_scope.

Section WithHost.

(** [new Date(text)] as the host reads it, in local calendar fields;
    [None] is Invalid Date.  ECMAScript leaves the reading of text
    outside its own date-time format to the host, so it is a parameter
    of the development; it is a function of the text. *)
Variable nativeDate : jsstring -> option date.

(** The templates in order; a RangeError of [parse] is caught and the
    next template is tried.  [now] is the value of [new Date()], the
    reference date handed to [parse]; the source reads the clock anew
    for each template, and one reading stands for all of them here
    (by [parse_ref_irrelevant] below no reading reaches the result). *)
Fixpoint tryFormats (now : date) (cleaned : jsstring) (fmts : list jsstring)
    : option jsstring :=
  match fmts with
  | [] => None
  | fmt :: fmts' =>
    match parse cleaned fmt now with
    | Valid d => Some (formatISO d)
    | Invalid | Throw => tryFormats now cleaned fmts'
    end
  end.

Definition normalizeDate (now : date) (raw : jsstring) : option jsstring :=
  match raw with
  | [] => None
  | _ =>
    let cleaned := replaceAll sp1 (lit " ") (Str.trim raw) in
    match tryFormats now cleaned DATE_FORMATS with
    | Some iso => Some iso
    | None =>
      match nativeDate cleaned with
      | Some d => if (1990 <? dYear d)%Z then Some (formatISO d) else None
      | None => None
      end
    end
  end.

End WithHost.

(* /[₹$€£¥₩,\s]/g *)
Definition currencyOrSpace : regex :=
  Char (code rupee :|: chr "$" :|: code euro :|: code pound :|: code yen
        :|: code won :|: chr "," :|: isSpace).
(* /[()]/g *)
Definition parens : regex := Char (chr "(" :|: chr ")").
(* /^-/ *)
Definition leadingMinus : regex := (Bol >> str "-")%re.

Definition normalizeAmount (raw : jsstring) : option Num.number :=
  match raw with
  | [] => None
  | _ =>
    let str0 := Str.trim raw in
    let str1 := replaceAll currencyOrSpace [] str0 in
    let isNegative :=
      Str.startsWith (lit "(") str1 && Str.endsWith (lit ")") str1
      || Str.startsWith (lit "-") str1 in
    let str2 := replaceFirst leadingMinus [] (replaceAll parens [] str1) in
    let amount := Num.parseFloat str2 in
    if Num.isNaN amount then None
    else Some (if isNegative then Num.neg amount else amount)
  end.

(* /\r?\n/ *)
Definition lineBreak : regex := (opt (Char (code 13)) >> Char (code 10))%re.

Definition nonEmpty (l : jsstring) : bool :=
  match l with [] => false | _ :: _ => true end.

Definition getLines (text : jsstring) : list jsstring :=
  filter nonEmpty (List.map Str.trim (split lineBreak text)).

(* /[|]{2,}/g   /l(?=\d)/g   /O(?=\d)/g   /\bI(?=\d)/g   /\s{2,}/g *)
Definition pipes : regex := atLeast 2 (Char (chr "|")).
Definition ellBeforeDigit : regex := (Char (chr "l") >> Ahead dg)%re.
Definition ohBeforeDigit : regex := (Char (chr "O") >> Ahead dg)%re.
Definition eyeBeforeDigit : regex := (Bound >> Char (chr "I") >> Ahead dg)%re.
Definition spaces2 : regex := atLeast 2 sp.

Definition cleanOCRArtifacts (text : jsstring) : jsstring :=
  replaceAll spaces2 (lit " ")
    (replaceAll eyeBeforeDigit (lit "1")
      (replaceAll ohBeforeDigit (lit "0")
        (replaceAll ellBeforeDigit (lit "1")
          (replaceAll pipes (lit " ") text)))).

(** A field value of a header object. *)
Inductive value : Type :=
| VNull
| VStr (s : jsstring)
| VNum (n : Num.number).

Definition ofStr (o : option jsstring) : value :=
  match o with Some s => VStr s | None => VNull end.
Definition ofNum (o : option Num.number) : value :=
  match o with Some n => VNum n | None => VNull end.

(** [fields[k] !== null && fields[k] !== undefined && fields[k] !== ''];
    [None] is the [undefined] of a missing key. *)
Definition isFilled (v : option value) : bool :=
  match v with
  | None | Some VNull | Some (VStr []) => false
  | Some _ => true
  end.

Fixpoint lookup (k : string) (fields : list (string * value)) : option value :=
  match fields with
  | [] => None
  | (k', v) :: fields' => if String.eqb k k' then Some v else lookup k fields'
  end.

Definition dec (m e : Z) : Num.number := Num.ofDecimal m e.

Definition calcConfidence (fields : list (string * value)) (required : list string)
    : Num.number :=
  let allFields := List.map fst fields in
  match allFields with
  | [] => Num.ofZ 0
  | _ =>
    let filled := filter (fun k => isFilled (lookup k fields)) allFields in
    let requiredFilled := filter (fun k => isFilled (lookup k fields)) required in
    let fieldScore := Num.div (Num.ofNat (length filled)) (Num.ofNat (length allFields)) in
    let requiredScore :=
      if (0 <? length required)%nat
      then Num.div (Num.ofNat (length requiredFilled)) (Num.ofNat (length required))
      else Num.ofZ 1 in
    Num.div
      (Num.round
        (Num.mul
          (Num.add (Num.mul fieldScore (dec 4 (-1))) (Num.mul requiredScore (dec 6 (-1))))
          (Num.ofZ 100)))
      (Num.ofZ 100)
  end.

End Normalize.

(** ** src/parsers/classifier.js *)

Module Classifier.

Record keyword : Type := Keyword { pattern : regex; weight : nat }.

Definition BANK_KEYWORDS : list keyword :=
  [ Keyword (stri "bank" >> sp1 >> stri "statement") 5;
    Keyword (stri "account" >> sp1 >>
             Group 1 (stri "number" <|> (stri "no" >> opt (str ".")) <|> str "#")) 4;
    Keyword (stri "opening" >> sp1 >> stri "balance") 5;
    Keyword (stri "closing" >> sp1 >> stri "balance") 5;
    Keyword (stri "transaction" >> sp1 >>
             Group 1 (stri "date" <|> stri "id" <|> stri "ref")) 3;
    Keyword (stri "debit") 3;
    Keyword (stri "credit") 2;
    Keyword (stri "available" >> sp1 >> stri "balance") 4;
    Keyword (stri "statement" >> sp1 >> stri "period") 4;
    Keyword (stri "IFSC" <|> (stri "swift" >> sp1 >> stri "code")) 4;
    Keyword (stri "account" >> sp1 >> stri "type") 3;
    Keyword (stri "running" >> sp1 >> stri "balance") 4;
    Keyword (stri "narration" <|> stri "description") 2;
    Keyword (stri "passbook") 4;
    Keyword ((stri "savings" >> sp1 >> stri "account")
             <|> (stri "current" >> sp1 >> stri "account")) 3 ]%re.

Definition TAX_KEYWORDS : list keyword :=
  [ Keyword (stri "form" >> sp1 >> Group 1 (stri "26as" <|> str "16" <|> stri "16a")) 6;
    Keyword ((stri "tax" >> sp1 >> stri "deducted" >> sp1 >> stri "at" >> sp1 >> stri "source")
             <|> stri "TDS") 6;
    Keyword (stri "income" >> sp1 >> stri "tax") 4;
    Keyword (stri "deductor") 6;
    Keyword (stri "PAN" >> sp1 >> opt (Group 1 (stri "of" >> sp1)) >>
             Group 2 (stri "deductee" <|> stri "deductor")) 5;
    Keyword (stri "TAN") 4;
    Keyword (stri "section" >> sp1 >> plus dg >> opt (Char isAlpha)) 3;
    Keyword (stri "status" >> sp1 >> stri "of" >> sp1 >> stri "booking") 5;
    Keyword (stri "total" >> sp1 >> stri "tax" >> sp1 >> stri "deducted") 5;
    Keyword (stri "TDS" >> sp1 >> stri "deposited") 5;
    Keyword (stri "amount" >> sp1 >> stri "paid" >> star (Char isDot) >> stri "credited") 4;
    Keyword (stri "date" >> sp1 >> stri "of" >> sp1 >> stri "booking") 4;
    Keyword (stri "traces" <|> stri "NSDL") 4;
    Keyword (stri "assessment" >> sp1 >> stri "year") 5 ]%re.

(** [(text.match(pattern) || []).length]: the patterns carry no [g]
    flag, so the array returned on a match holds the matched text and
    one entry per capturing group. *)
Definition matchesLength (text : jsstring) (p : regex) : nat :=
  match exec p text with
  | Some m => S (length (m_groups m))
  | None => 0
  end.

Definition contribution (text : jsstring) (k : keyword) : nat :=
  Nat.min (matchesLength text (pattern k)) 2 * weight k.

Definition scoreText (text : jsstring) (keywords : list keyword) : nat :=
  fold_left (fun score k => score + contribution text k) keywords 0.

Inductive docType : Type := bank_statement | tax_statement | unknown.

Record verdict : Type := Verdict {
  documentType : docType;
  confidence : Num.number;
  scores : option (nat * nat)        (* bankScore, taxScore: absent for unknown *)
}.

(* /bank|statement|passbook/   /26as|tds|tax|form16/ *)
Definition bankName : regex := (str "bank" <|> str "statement" <|> str "passbook")%re.
Definition taxName : regex := (str "26as" <|> str "tds" <|> str "tax" <|> str "form16")%re.

Definition classifyDocument (text : jsstring) (filename : jsstring) : verdict :=
  let bankScore := scoreText text BANK_KEYWORDS in
  let taxScore := scoreText text TAX_KEYWORDS in
  let fn := Str.toLowerCase filename in
  let bankBonus := if test bankName fn then 10 else 0 in
  let taxBonus := if test taxName fn then 10 else 0 in
  let totalBank := bankScore + bankBonus in
  let totalTax := taxScore + taxBonus in
  let maxScore := Nat.max totalBank totalTax in
  let minThreshold := 8 in
  if maxScore <? minThreshold then Verdict unknown (Num.ofZ 0) None
  else
    let documentType := if totalTax <=? totalBank then bank_statement else tax_statement in
    let winnerScore :=
      match documentType with bank_statement => totalBank | _ => totalTax end in
    let loserScore :=
      match documentType with bank_statement => totalTax | _ => totalBank end in
    let confidence :=
      Num.min (Normalize.dec 99 (-2))
        (Num.div (Num.ofNat winnerScore) (Num.ofNat (winnerScore + loserScore + 1))) in
    Verdict documentType
      (Num.div (Num.round (Num.mul confidence (Num.ofZ 100))) (Num.ofZ 100))
      (Some (totalBank, totalTax)).

End Classifier.

(** ** Warnings and records shared by the parsers *)

Inductive wcode : Type :=
| NO_DEDUCTORS | NO_TRANSACTIONS | NO_TABLE_HEADER | HEURISTIC_PARSING
| SCHEMA_VALIDATION | UNKNOWN_DOCUMENT_TYPE | SCANNED_PDF | LOW_OCR_QUALITY.

Record warning : Type := Warning { code_ : wcode; message : jsstring }.

Definition wcode_eqb (a b : wcode) : bool :=
  match a, b with
  | NO_DEDUCTORS, NO_DEDUCTORS | NO_TRANSACTIONS, NO_TRANSACTIONS
  | NO_TABLE_HEADER, NO_TABLE_HEADER | HEURISTIC_PARSING, HEURISTIC_PARSING
  | SCHEMA_VALIDATION, SCHEMA_VALIDATION | UNKNOWN_DOCUMENT_TYPE, UNKNOWN_DOCUMENT_TYPE
  | SCANNED_PDF, SCANNED_PDF | LOW_OCR_QUALITY, LOW_OCR_QUALITY => true
  | _, _ => false
  end.

Definition hasCode (c : wcode) (ws : list warning) : bool :=
  existsb (fun w => wcode_eqb (code_ w) c) ws.

(** [m[i]] of a match: the i-th capture, [None] when the group took no
    part in the match. *)
Definition capture (i : nat) (m : mresult) : option jsstring :=
  nth (pred i) (m_groups m) None.

(** The first pattern of a list that matches, with its match. *)
Fixpoint firstMatch (ps : list regex) (text : jsstring) : option mresult :=
  match ps with
  | [] => None
  | p :: ps' =>
    match exec p text with
    | Some m => Some m
    | None => firstMatch ps' text
    end
  end.

(** [x || null] on a number that may be [null] or [undefined]. *)
Definition orNull (x : option Num.number) : option Num.number :=
  match x with
  | Some v => if Num.truthy v then Some v else None
  | None => None
  end.

(** [s || null] on a string. *)
Definition strOrNull (s : jsstring) : option jsstring :=
  match s with [] => None | _ => Some s end.

(** ** src/parsers/bankParser.js *)

Module BankParser.

Import Normalize.

Record header : Type := Header {
  bank_name : option jsstring;
  account_number : option jsstring;
  account_holder_name : option jsstring;
  account_type : option jsstring;
  ifsc_code : option jsstring;
  branch : option jsstring;
  statement_period_from : option jsstring;
  statement_period_to : option jsstring;
  opening_balance : option Num.number;
  closing_balance : option Num.number;
  currency : jsstring
}.

Open Scope string_scope.
Definition headerFields (h : header) : list (string * value) :=
  [ ("bank_name", ofStr (bank_name h));
    ("account_number", ofStr (account_number h));
    ("account_holder_name", ofStr (account_holder_name h));
    ("account_type", ofStr (account_type h));
    ("ifsc_code", ofStr (ifsc_code h));
    ("branch", ofStr (branch h));
    ("statement_period_from", ofStr (statement_period_from h));
    ("statement_period_to", ofStr (statement_period_to h));
    ("opening_balance", ofNum (opening_balance h));
    ("closing_balance", ofNum (closing_balance h));
    ("currency", VStr (currency h)) ].
Close Scope string_scope.

Record transaction : Type := Transaction {
  date_ : option jsstring;
  description : option jsstring;
  debit : option Num.number;
  credit : option Num.number;
  balance : option Num.number;
  reference : option jsstring;
  raw_ : option jsstring          (* [_raw], set in header mode only *)
}.

(** Pieces that recur in the patterns. *)
Definition colonOrDash : regex := opt (Char (chr ":" :|: chr "-")).     (* [:\-]? *)
Definition lbl : regex := (sp0 >> colonOrDash >> sp0)%re.               (* \s*[:\-]?\s* *)
Definition nameChars : cset := isAlpha :|: isSpace :|: chr ".".         (* [a-zA-Z\s\.] *)
Definition amountChars : cset := isDigit :|: chr "," :|: chr ".".       (* [\d,\.] *)
Definition dateChars : cset := isDigit :|: chr "/" :|: chr "-" :|: chr ".".   (* [\d\/\-\.] *)
Definition rupeeOrDollar : regex := opt (Char (code rupee :|: chr "$")).      (* [₹$]? *)

(* /([A-Z][A-Za-z\s]+(?:Bank|BANK|banking|BANKING)[A-Za-z\s]* )/ *)
Definition bankNameRe : regex :=
  Group 1 (Char isUpper >> plus (Char (isAlpha :|: isSpace)) >>
           (str "Bank" <|> str "BANK" <|> str "banking" <|> str "BANKING") >>
           star (Char (isAlpha :|: isSpace)))%re.

(* (\d[\d\s\-]{5,20}) *)
Definition acctDigits : regex :=
  Group 1 (dg >> times 5 20 (Char (isDigit :|: isSpace :|: chr "-")))%re.

(* /account\s+(?:number|no\.?|#)\s*[:\-]?\s*(\d[\d\s\-]{5,20})/i
   /a\/c\s+(?:no\.?|number|#)\s*[:\-]?\s*(\d[\d\s\-]{5,20})/i
   /acc(?:ount)?\s*no[.:]?\s*(\d[\d\s\-]{5,20})/i *)
Definition acctPatterns : list regex :=
  [ stri "account" >> sp1 >> (stri "number" <|> (stri "no" >> opt (str ".")) <|> str "#")
      >> lbl >> acctDigits;
    stri "a/c" >> sp1 >> ((stri "no" >> opt (str ".")) <|> stri "number" <|> str "#")
      >> lbl >> acctDigits;
    stri "acc" >> opt (stri "ount") >> sp0 >> stri "no" >> opt (Char (chr "." :|: chr ":"))
      >> sp0 >> acctDigits ]%re.

(* /(?:account\s+holder|customer\s+name|name)\s*[:\-]?\s*([A-Z][a-zA-Z\s\.]+)/i
   /in\s+the\s+name\s+of\s*[:\-]?\s*([A-Z][a-zA-Z\s\.]+)/i *)
Definition namePatterns : list regex :=
  [ ((stri "account" >> sp1 >> stri "holder") <|> (stri "customer" >> sp1 >> stri "name")
       <|> stri "name") >> lbl >> Group 1 (Char isAlpha >> plus (Char nameChars));
    stri "in" >> sp1 >> stri "the" >> sp1 >> stri "name" >> sp1 >> stri "of" >> lbl
      >> Group 1 (Char isAlpha >> plus (Char nameChars)) ]%re.

(* /(savings|current|salary|nre|nro|fixed\s+deposit)\s*account/i *)
Definition typeRe : regex :=
  (Group 1 (stri "savings" <|> stri "current" <|> stri "salary" <|> stri "nre" <|> stri "nro"
            <|> (stri "fixed" >> sp1 >> stri "deposit")) >> sp0 >> stri "account")%re.

(* /IFSC\s*[:\-]?\s*([A-Z]{4}0[A-Z0-9]{6})/i *)
Definition ifscRe : regex :=
  (stri "IFSC" >> lbl >>
   Group 1 (times 4 4 (Char isAlpha) >> str "0" >> times 6 6 (Char (isAlpha :|: isDigit))))%re.

(* /(?:statement|from)\s+(?:period|date)\s*[:\-]?\s*([\d\/\-\.]+\s*(?:to|[-–])\s*[\d\/\-\.]+)/i
   /period\s*[:\-]?\s*([\d\/\-\.a-zA-Z]+)\s+to\s+([\d\/\-\.a-zA-Z]+)/i
   /from\s*[:\-]?\s*([\d\/\-\.a-zA-Z]+)\s+to\s+([\d\/\-\.a-zA-Z]+)/i *)
Definition periodPatterns : list regex :=
  [ (stri "statement" <|> stri "from") >> sp1 >> (stri "period" <|> stri "date") >> lbl >>
      Group 1 (plus (Char dateChars) >> sp0 >> (stri "to" <|> Char (chr "-" :|: code endash))
               >> sp0 >> plus (Char dateChars));
    stri "period" >> lbl >> Group 1 (plus (Char (dateChars :|: isAlpha))) >> sp1 >> stri "to"
      >> sp1 >> Group 2 (plus (Char (dateChars :|: isAlpha)));
    stri "from" >> lbl >> Group 1 (plus (Char (dateChars :|: isAlpha))) >> sp1 >> stri "to"
      >> sp1 >> Group 2 (plus (Char (dateChars :|: isAlpha))) ]%re.

(* /\s+to\s+|[-–]/i *)
Definition periodSplit : regex :=
  ((sp1 >> stri "to" >> sp1) <|> Char (chr "-" :|: code endash))%re.

(* /opening\s+balance\s*[:\-]?\s*([₹$]?\s*[\d,\.]+(?:\.\d{2})?)/i
   /balance\s+b\/f\s*[:\-]?\s*([₹$]?\s*[\d,\.]+)/i *)
Definition openBalPatterns : list regex :=
  [ stri "opening" >> sp1 >> stri "balance" >> lbl >>
      Group 1 (rupeeOrDollar >> sp0 >> plus (Char amountChars) >> opt (str "." >> times 2 2 dg));
    stri "balance" >> sp1 >> stri "b/f" >> lbl >>
      Group 1 (rupeeOrDollar >> sp0 >> plus (Char amountChars)) ]%re.

(* /closing\s+balance\s*[:\-]?\s*([₹$]?\s*[\d,\.]+(?:\.\d{2})?)/i
   /balance\s+c\/f\s*[:\-]?\s*([₹$]?\s*[\d,\.]+)/i *)
Definition closeBalPatterns : list regex :=
  [ stri "closing" >> sp1 >> stri "balance" >> lbl >>
      Group 1 (rupeeOrDollar >> sp0 >> plus (Char amountChars) >> opt (str "." >> times 2 2 dg));
    stri "balance" >> sp1 >> stri "c/f" >> lbl >>
      Group 1 (rupeeOrDollar >> sp0 >> plus (Char amountChars)) ]%re.

(* /₹|INR/   /\$|USD/   /£|GBP/   /€|EUR/ *)
Definition inrRe : regex := (Char (code rupee) <|> str "INR")%re.
Definition usdRe : regex := (str "$" <|> str "USD")%re.
Definition gbpRe : regex := (Char (code pound) <|> str "GBP")%re.
Definition eurRe : regex := (Char (code euro) <|> str "EUR")%re.

Definition bindCap (i : nat) (o : option mresult) : option jsstring :=
  match o with Some m => capture i m | None => None end.

Section WithHost.

Variable nativeDate : jsstring -> option date.
Variable now : date.

Local Abbreviation normalizeDate := (Normalize.normalizeDate nativeDate now).

(** The loop over [periodPatterns]: the two period fields are
    overwritten by each pattern that matches, and the loop stops as soon
    as [statement_period_from] is set. *)
Fixpoint periodLoop (ps : list regex) (text : jsstring)
    (from to : option jsstring) : option jsstring * option jsstring :=
  match ps with
  | [] => (from, to)
  | p :: ps' =>
    match exec p text with
    | None => periodLoop ps' text from to
    | Some m =>
      let '(from', to') :=
        match capture 2 m with
        | Some (c :: m2) =>
          (match capture 1 m with Some m1 => normalizeDate m1 | None => None end,
           normalizeDate (c :: m2))
        | _ =>
          match split periodSplit (match capture 1 m with Some m1 => m1 | None => [] end) with
          | [p0; p1] => (normalizeDate p0, normalizeDate p1)
          | _ => (from, to)
          end
        end in
      match from' with
      | Some (_ :: _) => (from', to')
      | _ => periodLoop ps' text from' to'
      end
    end
  end.

Definition extractHeader (text : jsstring) (lines : list jsstring) : header :=
  let bank_name := option_map Str.trim (bindCap 1 (exec bankNameRe text)) in
  let account_number :=
    option_map (replaceAll sp []) (bindCap 1 (firstMatch acctPatterns text)) in
  let account_holder_name := option_map Str.trim (bindCap 1 (firstMatch namePatterns text)) in
  let account_type := option_map Str.toLowerCase (bindCap 1 (exec typeRe text)) in
  let ifsc_code := option_map Str.toUpperCase (bindCap 1 (exec ifscRe text)) in
  let '(period_from, period_to) := periodLoop periodPatterns text None None in
  let opening_balance :=
    match bindCap 1 (firstMatch openBalPatterns text) with
    | Some a => normalizeAmount a
    | None => None
    end in
  let closing_balance :=
    match bindCap 1 (firstMatch closeBalPatterns text) with
    | Some a => normalizeAmount a
    | None => None
    end in
  let currency :=
    if test inrRe text then lit "INR"
    else if test usdRe text then lit "USD"
    else if test gbpRe text then lit "GBP"
    else if test eurRe text then lit "EUR"
    else lit "INR" in
  Header bank_name account_number account_holder_name account_type ifsc_code None
    period_from period_to opening_balance closing_balance currency.

End WithHost.

(* /date.*(?:narration|description|particulars).*(?:debit|dr).*(?:credit|cr)/i
   /date.*(?:details|description).*(?:withdrawal|debit).*(?:deposit|credit)/i
   /txn.*date.*description/i *)
Definition anything : regex := star (Char isDot).
Definition headerPatterns : list regex :=
  [ stri "date" >> anything >> (stri "narration" <|> stri "description" <|> stri "particulars")
      >> anything >> (stri "debit" <|> stri "dr") >> anything >> (stri "credit" <|> stri "cr");
    stri "date" >> anything >> (stri "details" <|> stri "description")
      >> anything >> (stri "withdrawal" <|> stri "debit") >> anything
      >> (stri "deposit" <|> stri "credit");
    stri "txn" >> anything >> stri "date" >> anything >> stri "description" ]%re.

(* /total|closing\s+balance|opening\s+balance|grand\s+total/i *)
Definition summaryRe : regex :=
  (stri "total" <|> (stri "closing" >> sp1 >> stri "balance")
   <|> (stri "opening" >> sp1 >> stri "balance") <|> (stri "grand" >> sp1 >> stri "total"))%re.
(* /^[-=_|*\s]+$/ *)
Definition separatorRe : regex :=
  (Bol >> plus (Char (oneOf "-=_|*" :|: isSpace)) >> Eol)%re.
(* /\d{1,2}[\/-]\d{1,2}[\/-]\d{2,4}/   /\d{1,2}\s+[A-Za-z]{3}\s+\d{4}/ *)
Definition slashDate : regex :=
  (times 1 2 dg >> Char (chr "/" :|: chr "-") >> times 1 2 dg >> Char (chr "/" :|: chr "-")
   >> times 2 4 dg)%re.
Definition wordDate : regex :=
  (times 1 2 dg >> sp1 >> times 3 3 (Char isAlpha) >> sp1 >> times 4 4 dg)%re.

(* /(\d{1,2}[\/\-\.]\d{1,2}[\/\-\.]\d{2,4}|\d{1,2}\s+[A-Za-z]{3}\s+\d{4})/ *)
Definition dateSep : regex := Char (chr "/" :|: chr "-" :|: chr ".").
Definition rowDate : regex :=
  Group 1 ((times 1 2 dg >> dateSep >> times 1 2 dg >> dateSep >> times 2 4 dg)
           <|> wordDate)%re.
(* /([₹$]?\s*[\d,]+\.\d{2})/g *)
Definition amtPattern : regex :=
  Group 1 (rupeeOrDollar >> sp0 >> plus (Char (isDigit :|: chr ",")) >> str "."
           >> times 2 2 dg)%re.
(* /dr|debit|withdrawal/i   /cr|credit|deposit/i *)
Definition debitWords : regex := (stri "dr" <|> stri "debit" <|> stri "withdrawal")%re.
Definition creditWords : regex := (stri "cr" <|> stri "credit" <|> stri "deposit")%re.
(* /(?:ref|txn|chq|utr)[:\s#]*([A-Z0-9]{8,20})/i *)
Definition refRe : regex :=
  ((stri "ref" <|> stri "txn" <|> stri "chq" <|> stri "utr")
   >> star (Char (chr ":" :|: isSpace :|: chr "#"))
   >> Group 1 (times 8 20 (Char (isAlpha :|: isDigit))))%re.

(* /(\d{1,2}[\/\-\.]\d{1,2}[\/\-\.]\d{2,4})/   /[\d,]+\.\d{2}/g   /[\d,\.]+/g *)
Definition heuristicDate : regex :=
  Group 1 (times 1 2 dg >> dateSep >> times 1 2 dg >> dateSep >> times 2 4 dg)%re.
Definition plainAmount : regex :=
  (plus (Char (isDigit :|: chr ",")) >> str "." >> times 2 2 dg)%re.
Definition digitsAndMarks : regex := plus (Char amountChars).

(** [detectColumns]: the position of the header token of each kind; a
    later token of the same kind overwrites the position. *)
Record columns : Type := Columns {
  col_date : option nat;
  col_description : option nat;
  col_debit : option nat;
  col_credit : option nat;
  col_balance : option nat;
  col_reference : option nat
}.

(* /\s{2,}|\t/ *)
Definition columnSplit : regex := (atLeast 2 sp <|> Char (code 9))%re.

Definition classifyToken (token : jsstring) (pos : nat) (c : columns) : columns :=
  let lower := Str.toLowerCase token in
  if test (str "date") lower then
    Columns (Some pos) (col_description c) (col_debit c) (col_credit c) (col_balance c) (col_reference c)
  else if test (str "narration" <|> str "description" <|> str "particulars" <|> str "details")%re lower then
    Columns (col_date c) (Some pos) (col_debit c) (col_credit c) (col_balance c) (col_reference c)
  else if test (str "debit" <|> str "withdrawal" <|> str "dr")%re lower then
    Columns (col_date c) (col_description c) (Some pos) (col_credit c) (col_balance c) (col_reference c)
  else if test (str "credit" <|> str "deposit" <|> str "cr")%re lower then
    Columns (col_date c) (col_description c) (col_debit c) (Some pos) (col_balance c) (col_reference c)
  else if test (str "balance") lower then
    Columns (col_date c) (col_description c) (col_debit c) (col_credit c) (Some pos) (col_reference c)
  else if test (str "ref" <|> str "id" <|> str "chq" <|> str "cheque")%re lower then
    Columns (col_date c) (col_description c) (col_debit c) (col_credit c) (col_balance c) (Some pos)
  else c.

Fixpoint detectLoop (tokens : list jsstring) (pos : nat) (c : columns) : columns :=
  match tokens with
  | [] => c
  | token :: tokens' => detectLoop tokens' (S pos) (classifyToken token pos c)
  end.

Definition detectColumns (headerLine : jsstring) : columns :=
  detectLoop (split columnSplit headerLine) 0 (Columns None None None None None None).

(** The [exec] loop over [amtPattern]: value and index of every match. *)
Definition rowAmounts (line : jsstring) : list (option Num.number * nat) :=
  List.map
    (fun m => (match capture 1 m with Some a => normalizeAmount a | None => None end,
               m_index m))
    (matchAll amtPattern line).

Definition amountValue (amounts : list (option Num.number * nat)) (i : nat)
    : option Num.number :=
  match nth_error amounts i with
  | Some (v, _) => v
  | None => None
  end.

(** The three amount fields from the amounts of a row, by their number
    and the words of the line. *)
Definition assignAmounts (line : jsstring) (amounts : list (option Num.number * nat))
    : option Num.number * option Num.number * option Num.number :=
  if 3 <=? length amounts then
    (orNull (amountValue amounts 0), orNull (amountValue amounts 1),
     orNull (amountValue amounts 2))
  else if length amounts =? 2 then
    if test debitWords line then (amountValue amounts 0, None, amountValue amounts 1)
    else if test creditWords line then (None, amountValue amounts 0, amountValue amounts 1)
    else (amountValue amounts 0, None, amountValue amounts 1)
  else if length amounts =? 1 then (None, None, amountValue amounts 0)
  else (None, None, None).

Section Rows.

Variable nativeDate : jsstring -> option date.
Variable now : date.

Local Abbreviation normalizeDate := (Normalize.normalizeDate nativeDate now).

Definition parseTransactionRow (line : jsstring) (colMap : columns) (lineIdx : nat)
    : option transaction :=
  match exec rowDate line with
  | None => None
  | Some dateMatch =>
    match normalizeDate (match capture 1 dateMatch with Some d => d | None => [] end) with
    | None | Some [] => None
    | Some date =>
      let amounts := rowAmounts line in
      let dateEnd := m_index dateMatch + length (m_text dateMatch) in
      let firstAmtIdx :=
        match amounts with (_, i) :: _ => i | [] => length line end in
      let description :=
        replaceAll sp1 (lit " ") (Str.trim (Str.slice dateEnd firstAmtIdx line)) in
      let '(debit, credit, balance) := assignAmounts line amounts in
      let reference := bindCap 1 (exec refRe line) in
      Some (Transaction (Some date) (strOrNull description) debit credit balance
                        reference (Some line))
    end
  end.

Definition heuristicAmounts (line : jsstring) : list (option Num.number) :=
  List.map (fun m => normalizeAmount (m_text m)) (matchAll plainAmount line).

Definition flatten (o : option (option Num.number)) : option Num.number :=
  match o with Some v => v | None => None end.

(** One line of the heuristic scan: a transaction when the line holds a
    date token and at least one amount token. *)
Definition heuristicRow (line : jsstring) : option transaction :=
  match exec heuristicDate line with
  | None => None
  | Some dateMatch =>
    let amounts := heuristicAmounts line in
    match amounts with
    | [] => None
    | _ =>
      Some (Transaction
        (normalizeDate (match capture 1 dateMatch with Some d => d | None => [] end))
        (strOrNull (Str.trim (replaceAll digitsAndMarks []
           (skipn (m_index dateMatch + length (m_text dateMatch)) line))))
        (orNull (flatten (nth_error amounts 0)))
        (orNull (flatten (nth_error amounts 1)))
        (orNull (flatten (nth_error amounts 2)))
        None None)
    end
  end.

Definition heuristicMessage : jsstring :=
  lit "Using heuristic transaction parsing " ++ [8212%N] ++ lit " accuracy may be reduced.".

(** [parseTransactionHeuristic] pushes its warning onto the array it is
    given and returns the transactions: the array is threaded through. *)
Fixpoint heuristicLoop (lines : list jsstring) : list transaction :=
  match lines with
  | [] => []
  | line :: lines' =>
    match heuristicRow line with
    | Some t => t :: heuristicLoop lines'
    | None => heuristicLoop lines'
    end
  end.

Definition parseTransactionHeuristic (lines : list jsstring) (warnings : list warning)
    : list transaction * list warning :=
  (heuristicLoop lines, warnings ++ [Warning HEURISTIC_PARSING heuristicMessage]).

(** [lines.findIndex(l => p.test(l))] for each header pattern in turn,
    stopping at the first pattern that finds a line. *)
Fixpoint findHeader (ps : list regex) (lines : list jsstring) : option nat :=
  match ps with
  | [] => None
  | p :: ps' =>
    match findIndex (test p) lines with
    | Some i => Some i
    | None => findHeader ps' lines
    end
  end.

(** The rows after the header line: the loop ends at a summary line,
    passes separator lines and lines without a date. *)
Fixpoint rowLoop (rows : list jsstring) (colMap : columns) (i : nat) : list transaction :=
  match rows with
  | [] => []
  | line :: rows' =>
    if test summaryRe line then []
    else if test separatorRe line then rowLoop rows' colMap (S i)
    else if negb (test slashDate line) && negb (test wordDate line)
    then rowLoop rows' colMap (S i)
    else
      match parseTransactionRow line colMap i with
      | Some txn => txn :: rowLoop rows' colMap (S i)
      | None => rowLoop rows' colMap (S i)
      end
  end.

Definition extractTransactions (lines : list jsstring) (fullText : jsstring)
    : list transaction * list warning :=
  match findHeader headerPatterns lines with
  | None =>
    parseTransactionHeuristic lines
      [Warning NO_TABLE_HEADER (lit "Could not find transaction table header row.")]
  | Some headerLineIdx =>
    let headerLine := nth headerLineIdx lines [] in
    let colMap := detectColumns headerLine in
    (rowLoop (skipn (S headerLineIdx) lines) colMap (S headerLineIdx), [])
  end.

Record output : Type := Output {
  out_header : header;
  out_transactions : list transaction
}.

Record extraction : Type := Extraction {
  ex_output : output;
  ex_confidence : Num.number;
  ex_warnings : list warning
}.

Definition extractBankStatement (pageTexts : list jsstring) (fullText : jsstring)
    : extraction :=
  let text := cleanOCRArtifacts fullText in
  let lines := getLines text in
  let header := extractHeader nativeDate now text lines in
  let '(transactions, tableWarnings) := extractTransactions lines text in
  let warnings :=
    tableWarnings ++
    (if length transactions =? 0
     then [Warning NO_TRANSACTIONS
             (lit "No transaction rows could be extracted from this document.")]
     else []) in
  let confidence :=
    calcConfidence (headerFields header)
      ["account_number"; "statement_period_from"; "statement_period_to"]%string in
  Extraction (Output header transactions)
    (Num.max confidence (if 0 <? length transactions then dec 5 (-1) else dec 1 (-1)))
    warnings.

End Rows.

End BankParser.

(** ** src/parsers/taxParser.js *)

Module TaxParser.

Import Normalize.

Record header : Type := Header {
  form_type : option jsstring;
  assessment_year : option jsstring;
  taxpayer_name : option jsstring;
  pan : option jsstring;
  taxpayer_address : option jsstring;
  total_amount_paid_credited : option Num.number;
  total_tax_deducted : option Num.number;
  total_tds_deposited : option Num.number
}.

Open Scope string_scope.
Definition headerFields (h : header) : list (string * value) :=
  [ ("form_type", ofStr (form_type h));
    ("assessment_year", ofStr (assessment_year h));
    ("taxpayer_name", ofStr (taxpayer_name h));
    ("pan", ofStr (pan h));
    ("taxpayer_address", ofStr (taxpayer_address h));
    ("total_amount_paid_credited", ofNum (total_amount_paid_credited h));
    ("total_tax_deducted", ofNum (total_tax_deducted h));
    ("total_tds_deposited", ofNum (total_tds_deposited h)) ].
Close Scope string_scope.

Record transaction : Type := Transaction {
  section_ : option jsstring;
  transaction_date : option jsstring;
  booking_date : option jsstring;
  status_of_booking : option jsstring;
  remarks : option jsstring;
  amount_paid_credited : option Num.number;
  tax_deducted : option Num.number;
  tds_deposited : option Num.number
}.

Record deductor : Type := Deductor {
  d_name : option jsstring;
  d_tan : option jsstring;
  d_pan : option jsstring;
  d_total_amount_paid_credited : option Num.number;
  d_total_tax_deducted : option Num.number;
  d_total_tds_deposited : option Num.number;
  d_transactions : list transaction
}.

Definition lbl : regex := BankParser.lbl.                   (* \s*[:\-]?\s* *)
(* ([₹$]?\s*[\d,\.]+) *)
Definition amountGroup : regex :=
  Group 1 (BankParser.rupeeOrDollar >> sp0 >> plus (Char BankParser.amountChars))%re.
Definition dashes : cset := chr "-" :|: code endash.        (* [-–] *)

(* /form\s+(26as|16a?|27d)/i *)
Definition formRe : regex :=
  (stri "form" >> sp1 >> Group 1 (stri "26as" <|> (str "16" >> opt (stri "a")) <|> stri "27d"))%re.
(* /assessment\s+year\s*[:\-]?\s*(\d{4}\s*[-–]\s*\d{2,4})/i *)
Definition ayRe : regex :=
  (stri "assessment" >> sp1 >> stri "year" >> lbl >>
   Group 1 (times 4 4 dg >> sp0 >> Char dashes >> sp0 >> times 2 4 dg))%re.
(* ([A-Z]{5}\d{4}[A-Z]) under /i *)
Definition panGroup : regex :=
  Group 1 (times 5 5 (Char isAlpha) >> times 4 4 dg >> Char isAlpha)%re.
(* /PAN\s*(?:of\s+(?:taxpayer|deductee))?\s*[:\-]?\s*([A-Z]{5}\d{4}[A-Z])/i *)
Definition panRe : regex :=
  (stri "PAN" >> sp0 >> opt (stri "of" >> sp1 >> (stri "taxpayer" <|> stri "deductee"))
   >> lbl >> panGroup)%re.
(* /(?:name\s+of\s+(?:taxpayer|deductee|assessee)|taxpayer\s+name)\s*[:\-]?\s*([A-Z][a-zA-Z\s\.]+)/i
   /assessee\s+name\s*[:\-]?\s*([A-Z][a-zA-Z\s\.]+)/i *)
Definition namePatterns : list regex :=
  [ ((stri "name" >> sp1 >> stri "of" >> sp1 >>
        (stri "taxpayer" <|> stri "deductee" <|> stri "assessee"))
       <|> (stri "taxpayer" >> sp1 >> stri "name")) >> lbl
      >> Group 1 (Char isAlpha >> plus (Char BankParser.nameChars));
    stri "assessee" >> sp1 >> stri "name" >> lbl
      >> Group 1 (Char isAlpha >> plus (Char BankParser.nameChars)) ]%re.
(* /total\s+(?:amount\s+)?paid\s*[\/]?\s*credited\s*[:\-]?\s*([₹$]?\s*[\d,\.]+)/i *)
Definition paidRe : regex :=
  (stri "total" >> sp1 >> opt (stri "amount" >> sp1) >> stri "paid" >> sp0 >> opt (str "/")
   >> sp0 >> stri "credited" >> lbl >> amountGroup)%re.
(* /total\s+tax\s+deducted\s*[:\-]?\s*([₹$]?\s*[\d,\.]+)/i *)
Definition taxDeductedRe : regex :=
  (stri "total" >> sp1 >> stri "tax" >> sp1 >> stri "deducted" >> lbl >> amountGroup)%re.
(* /total\s+TDS\s+deposited\s*[:\-]?\s*([₹$]?\s*[\d,\.]+)/i *)
Definition tdsDepositedRe : regex :=
  (stri "total" >> sp1 >> stri "TDS" >> sp1 >> stri "deposited" >> lbl >> amountGroup)%re.

Definition amountOf (o : option mresult) : option Num.number :=
  match BankParser.bindCap 1 o with
  | Some a => normalizeAmount a
  | None => None
  end.

Definition extractTaxHeader (text : jsstring) (lines : list jsstring) : header :=
  Header
    (option_map (fun m => Str.toUpperCase (replaceAll sp1 (lit " ") (m_text m)))
       (exec formRe text))
    (option_map (replaceAll sp []) (BankParser.bindCap 1 (exec ayRe text)))
    (option_map Str.trim (BankParser.bindCap 1 (firstMatch namePatterns text)))
    (option_map Str.toUpperCase (BankParser.bindCap 1 (exec panRe text)))
    None
    (amountOf (exec paidRe text))
    (amountOf (exec taxDeductedRe text))
    (amountOf (exec tdsDepositedRe text)).

(* /name\s+of\s+deductor/i   /deductor\s+(?:name|details)/i   /(?:Part|Section)\s+[AB]\s*[-–:]/i *)
Definition deductorStartPatterns : list regex :=
  [ stri "name" >> sp1 >> stri "of" >> sp1 >> stri "deductor";
    stri "deductor" >> sp1 >> (stri "name" <|> stri "details");
    (stri "Part" <|> stri "Section") >> sp1 >> Char (oneOf "ABab") >> sp0
      >> Char (dashes :|: chr ":") ]%re.

(** [splitByDeductors]: the loop state is the list of closed blocks, the
    block being filled and the [inBlock] flag. *)
Fixpoint splitLoop (startPatterns : list regex) (lines : list jsstring)
    (blocks : list (list jsstring)) (currentBlock : list jsstring) (inBlock : bool)
    : list (list jsstring) * list jsstring :=
  match lines with
  | [] => (blocks, currentBlock)
  | line :: lines' =>
    let isStart := existsb (fun p => test p line) startPatterns in
    if isStart then
      splitLoop startPatterns lines'
        (if 0 <? length currentBlock then blocks ++ [currentBlock] else blocks)
        [line] true
    else if inBlock then
      splitLoop startPatterns lines' blocks (currentBlock ++ [line]) inBlock
    else splitLoop startPatterns lines' blocks currentBlock inBlock
  end.

Definition splitByDeductors (lines : list jsstring) (startPatterns : list regex)
    : list (list jsstring) :=
  let '(blocks, currentBlock) := splitLoop startPatterns lines [] [] false in
  let blocks := if 0 <? length currentBlock then blocks ++ [currentBlock] else blocks in
  if length blocks =? 0 then blocks ++ [lines] else blocks.

(* /name\s+of\s+deductor\s*[:\-]?\s*([A-Z][^\n\r]{2,60})/i *)
Definition deductorNameRe : regex :=
  (stri "name" >> sp1 >> stri "of" >> sp1 >> stri "deductor" >> lbl >>
   Group 1 (Char isAlpha >> times 2 60 (Char (compl (code 10 :|: code 13)))))%re.
(* /TAN\s*(?:of\s+deductor)?\s*[:\-]?\s*([A-Z]{4}\d{5}[A-Z])/i *)
Definition tanRe : regex :=
  (stri "TAN" >> sp0 >> opt (stri "of" >> sp1 >> stri "deductor") >> lbl >>
   Group 1 (times 4 4 (Char isAlpha) >> times 5 5 dg >> Char isAlpha))%re.
(* /PAN\s+of\s+deductor\s*[:\-]?\s*([A-Z]{5}\d{4}[A-Z])/i *)
Definition deductorPanRe : regex :=
  (stri "PAN" >> sp1 >> stri "of" >> sp1 >> stri "deductor" >> lbl >> panGroup)%re.
(* /total\s+amount\s+paid\s*[\/]?\s*credited\s*[:\-]?\s*([₹$]?\s*[\d,\.]+)/i *)
Definition blockPaidRe : regex :=
  (stri "total" >> sp1 >> stri "amount" >> sp1 >> stri "paid" >> sp0 >> opt (str "/")
   >> sp0 >> stri "credited" >> lbl >> amountGroup)%re.

(* /section/i   /(transaction|date)/i *)
Definition sectionWord : regex := stri "section".
Definition transactionOrDate : regex := Group 1 (stri "transaction" <|> stri "date")%re.
(* /^[-=\s|]+$/   /total|grand\s+total/i *)
Definition separatorRe : regex := (Bol >> plus (Char (oneOf "-=|" :|: isSpace)) >> Eol)%re.
Definition totalRe : regex := (stri "total" <|> (stri "grand" >> sp1 >> stri "total"))%re.
(* /\b(1\d{2}[A-Z]?)\b/ *)
Definition sectionRe : regex :=
  (Bound >> Group 1 (str "1" >> times 2 2 dg >> opt (Char isUpper)) >> Bound)%re.
(* /(\d{1,2}[\/\-\.]\d{1,2}[\/\-\.]\d{2,4})/g   /[₹$]?\s*[\d,]+\.\d{2}/g *)
Definition datesRe : regex := BankParser.heuristicDate.
Definition amountsRe : regex :=
  (BankParser.rupeeOrDollar >> sp0 >> plus (Char (isDigit :|: chr ",")) >> str "."
   >> times 2 2 dg)%re.
(* /\b(F|U|P|O)\b/ *)
Definition statusRe : regex :=
  (Bound >> Group 1 (str "F" <|> str "U" <|> str "P" <|> str "O") >> Bound)%re.
(* /remarks?\s*[:\-]?\s*([A-Za-z0-9\s\-\.]{3,50})/i *)
Definition remarksRe : regex :=
  (stri "remark" >> opt (stri "s") >> lbl >>
   Group 1 (times 3 50 (Char (isAlpha :|: isDigit :|: isSpace :|: chr "-" :|: chr "."))))%re.

Definition statusMap (c : jsstring) : jsstring :=
  if jseqb c (lit "F") then lit "Final"
  else if jseqb c (lit "U") then lit "Unmatched"
  else if jseqb c (lit "P") then lit "Provisional"
  else if jseqb c (lit "O") then lit "Overbooked"
  else c.

Definition extractStatusOfBooking (line : jsstring) : option jsstring :=
  option_map statusMap (BankParser.bindCap 1 (exec statusRe line)).

Definition extractRemarks (line : jsstring) : option jsstring :=
  option_map Str.trim (BankParser.bindCap 1 (exec remarksRe line)).

Section WithHost.

Variable nativeDate : jsstring -> option date.
Variable now : date.

Local Abbreviation normalizeDate := (Normalize.normalizeDate nativeDate now).

Definition isTruthyStr (o : option jsstring) : bool :=
  match o with Some (_ :: _) => true | _ => false end.

(** One row of a block; [hasHeader] says whether the block has a
    sub-table header line. *)
Definition tdsRow (hasHeader : bool) (line : jsstring) : option transaction :=
  let sectionMatch := exec sectionRe line in
  match sectionMatch, hasHeader with
  | None, true => None
  | _, _ =>
    let dateMatches := List.map m_text (matchAll datesRe line) in
    let amounts := List.map (fun m => normalizeAmount (m_text m)) (matchAll amountsRe line) in
    let txn :=
      Transaction
        (BankParser.bindCap 1 sectionMatch)
        (match dateMatches with d0 :: _ => normalizeDate d0 | [] => None end)
        (match dateMatches with _ :: (c :: d1) :: _ => normalizeDate (c :: d1) | _ => None end)
        (extractStatusOfBooking line)
        (extractRemarks line)
        (BankParser.flatten (nth_error amounts 0))
        (BankParser.flatten (nth_error amounts 1))
        (BankParser.flatten (nth_error amounts 2)) in
    if isTruthyStr (section_ txn) || isTruthyStr (transaction_date txn)
    then Some txn else None
  end.

Fixpoint tdsLoop (hasHeader : bool) (rows : list jsstring) : list transaction :=
  match rows with
  | [] => []
  | line :: rows' =>
    if test separatorRe line then tdsLoop hasHeader rows'
    else if test totalRe line then []
    else
      match tdsRow hasHeader line with
      | Some txn => txn :: tdsLoop hasHeader rows'
      | None => tdsLoop hasHeader rows'
      end
  end.

Definition extractTDSTransactions (lines : list jsstring) (blockText : jsstring)
    : list transaction :=
  match findIndex (fun l => test sectionWord l && test transactionOrDate l) lines with
  | Some headerIdx => tdsLoop true (skipn (S headerIdx) lines)
  | None => tdsLoop false lines
  end.

Definition parseDeductorBlock (lines : list jsstring) (blockText : jsstring) : deductor :=
  Deductor
    (option_map Str.trim (BankParser.bindCap 1 (exec deductorNameRe blockText)))
    (option_map Str.toUpperCase (BankParser.bindCap 1 (exec tanRe blockText)))
    (option_map Str.toUpperCase (BankParser.bindCap 1 (exec deductorPanRe blockText)))
    (amountOf (exec blockPaidRe blockText))
    (amountOf (exec taxDeductedRe blockText))
    (amountOf (exec tdsDepositedRe blockText))
    (extractTDSTransactions lines blockText).

Definition extractDeductors (lines : list jsstring) (fullText : jsstring)
    : list deductor * list warning :=
  (List.map (fun block => parseDeductorBlock block (Str.join [10%N] block))
     (splitByDeductors lines deductorStartPatterns),
   []).

Record output : Type := Output {
  out_header : header;
  out_deductors : list deductor
}.

Record extraction : Type := Extraction {
  ex_output : output;
  ex_confidence : Num.number;
  ex_warnings : list warning
}.

Definition extractTaxStatement (pageTexts : list jsstring) (fullText : jsstring)
    : extraction :=
  let text := cleanOCRArtifacts fullText in
  let lines := getLines text in
  let header := extractTaxHeader text lines in
  let '(deductors, tableWarnings) := extractDeductors lines text in
  let warnings :=
    tableWarnings ++
    (if length deductors =? 0
     then [Warning NO_DEDUCTORS (lit "No deductor/TDS sections could be extracted.")]
     else []) in
  let confidence :=
    calcConfidence (headerFields header) ["pan"; "assessment_year"; "taxpayer_name"]%string in
  Extraction (Output header deductors)
    (Num.max confidence (if 0 <? length deductors then dec 5 (-1) else dec 1 (-1)))
    warnings.

End WithHost.

End TaxParser.

(** ** src/workers/processor.js: the pure part of [processJob]

    From the page texts on: join the pages, flag poor OCR, classify,
    extract, blend the confidence, assemble the result and append the
    schema deviations.  Reading the file, OCR, the queue and the
    database lie outside. *)

Module Processor.

Import Normalize Classifier.

Definition SCHEMA_VERSION : jsstring := lit "1.0".

Record processing : Type := Processing {
  is_scanned : bool;
  page_count : nat;
  ocr_applied : bool
}.

(** What [...extractionResult.output] spreads into the result: the
    output of the extractor that ran, nothing for an unknown document. *)
Inductive payload : Type :=
| BankPayload (o : BankParser.output)
| TaxPayload (o : TaxParser.output)
| NoPayload.

Record finalResult : Type := FinalResult {
  schema_version : jsstring;
  document_id : jsstring;
  document_type : docType;
  processing_ : processing;
  confidence_ : Num.number;
  warnings_ : list warning;
  payload_ : payload
}.

(** What step 5 hands on: the output, the confidence and the warnings
    of the extractor, or the fixed object of the unknown branch, which
    has no [output] and no [warnings]. *)
Record extractionResult : Type := ExtractionResult {
  er_payload : payload;
  er_confidence : Num.number;
  er_warnings : option (list warning)
}.

Definition pageBreak : jsstring :=
  [10%N; 10%N] ++ lit "--- PAGE BREAK ---" ++ [10%N; 10%N].

Section WithHost.

Variable nativeDate : jsstring -> option date.
(** [validateResult] of src/schemas/validator.js runs the Ajv package on
    the result: whether the result is valid, and the error texts. *)
Variable validateResult : finalResult -> docType -> bool * list jsstring.

Definition extract (now : date) (documentType : docType)
    (pageTexts : list jsstring) (fullText : jsstring) : extractionResult :=
  match documentType with
  | bank_statement =>
    let r := BankParser.extractBankStatement nativeDate now pageTexts fullText in
    ExtractionResult (BankPayload (BankParser.ex_output r))
      (BankParser.ex_confidence r) (Some (BankParser.ex_warnings r))
  | tax_statement =>
    let r := TaxParser.extractTaxStatement nativeDate now pageTexts fullText in
    ExtractionResult (TaxPayload (TaxParser.ex_output r))
      (TaxParser.ex_confidence r) (Some (TaxParser.ex_warnings r))
  | unknown => ExtractionResult NoPayload (dec 1 (-1)) None
  end.

Definition processCore (now : date) (documentId : jsstring) (isScanned : bool)
    (pageCount : nat) (pageTexts : list jsstring) (originalName : jsstring)
    : finalResult :=
  let warnings0 :=
    if isScanned
    then [Warning SCANNED_PDF (lit "Document appears to be scanned. OCR applied.")]
    else [] in
  let fullText := Str.join pageBreak pageTexts in
  let wordCount :=
    length (filter (fun w => 2 <? length w) (split sp1 fullText)) in
  let warnings1 :=
    if isScanned && (wordCount <? 20)
    then warnings0 ++ [Warning LOW_OCR_QUALITY
      (lit "OCR produced very little readable text. The scan quality may be too poor to extract data reliably.")]
    else warnings0 in
  let v := classifyDocument fullText originalName in
  let documentType := documentType v in
  let classifyConfidence := confidence v in
  let warnings2 :=
    match documentType with
    | unknown => warnings1 ++ [Warning UNKNOWN_DOCUMENT_TYPE
      (lit "Could not confidently classify document type. Attempting generic extraction.")]
    | _ => warnings1
    end in
  let extractionResult := extract now documentType pageTexts fullText in
  let overallConfidence :=
    Num.div
      (Num.round
        (Num.mul
          (Num.add (Num.mul classifyConfidence (dec 2 (-1)))
                   (Num.mul (er_confidence extractionResult) (dec 8 (-1))))
          (Num.ofZ 100)))
      (Num.ofZ 100) in
  let finalResult :=
    FinalResult SCHEMA_VERSION documentId documentType
      (Processing isScanned pageCount isScanned)
      overallConfidence
      (warnings2 ++ match er_warnings extractionResult with Some ws => ws | None => [] end)
      (er_payload extractionResult) in
  let '(valid, schemaErrors) := validateResult finalResult documentType in
  if valid then finalResult
  else
    FinalResult (schema_version finalResult) (document_id finalResult)
      (document_type finalResult) (processing_ finalResult) (confidence_ finalResult)
      (warnings_ finalResult ++ List.map (fun e => Warning SCHEMA_VALIDATION e) schemaErrors)
      (payload_ finalResult).

End WithHost.

End Processor.

(** * Definitions used to state the properties *)

(** A host whose [Date] constructor reads no text, and a reading of the
    clock (2 November 2026, noon): the concrete host of the examples. *)
Definition noNative : jsstring -> option date := fun _ => None.
Definition sampleNow : date := Date 2026 10 2 43200000.

(** The number of occurrences of a pattern in a text: its matches from
    left to right, as the [g] flag counts them. *)
Definition occurrences (r : regex) (text : jsstring) : nat := length (matchAll r text).

Definition kwDebit : Classifier.keyword :=
  nth 5 Classifier.BANK_KEYWORDS (Classifier.Keyword Empty 0).
Definition kwAccount : Classifier.keyword :=
  nth 1 Classifier.BANK_KEYWORDS (Classifier.Keyword Empty 0).

Definition deductorBlock : jsstring :=
  lit "Name of Deductor: XYZ Pvt Ltd" ++ [10%N] ++ lit "TAN: MUMX12345A" ++ [10%N]
  ++ lit "192 30/04/2024 F 5500.00".

Definition salaryRow : jsstring := lit "01/01/2024 SALARY CREDIT 55000.00 80430.50".

Definition salaryTxn : BankParser.transaction :=
  BankParser.Transaction (Some (lit "2024-01-01")) (Some (lit "SALARY CREDIT")) None
    (Some (Num.ofZ 55000)) (Some (Normalize.dec 8043050 (-2))) None (Some salaryRow).

Definition salaryStatement : jsstring :=
  lit "Date Description Debit Credit Balance" ++ [10%N] ++ salaryRow.

(** A host validator that finds every result valid. *)
Definition allValid : Processor.finalResult -> Classifier.docType -> bool * list jsstring :=
  fun _ _ => (true, []).

(** The end-to-end statement for empty input as the specification has
    it: unknown type, nothing extracted, confidence at most 0.1, and a
    warning that no transactions or no deductors were found. *)
Definition emptyInputAsSpecified (r : Processor.finalResult) : Prop :=
  Processor.document_type r = Classifier.unknown /\
  Processor.payload_ r = Processor.NoPayload /\
  Num.leb (Processor.confidence_ r) (Normalize.dec 1 (-1)) = true /\
  (hasCode NO_TRANSACTIONS (Processor.warnings_ r)
   || hasCode NO_DEDUCTORS (Processor.warnings_ r)) = true.

(** Strictly positional assignment of the amounts of a line. *)
Definition positional (t : BankParser.transaction) (amounts : list (option Num.number))
    : Prop :=
  BankParser.debit t = BankParser.flatten (nth_error amounts 0) /\
  BankParser.credit t = BankParser.flatten (nth_error amounts 1) /\
  BankParser.balance t = BankParser.flatten (nth_error amounts 2).

(** Positional assignment in which a zero amount is recorded as null. *)
Definition positionalOrNull (t : BankParser.transaction)
    (amounts : list (option Num.number)) : Prop :=
  BankParser.debit t = orNull (BankParser.flatten (nth_error amounts 0)) /\
  BankParser.credit t = orNull (BankParser.flatten (nth_error amounts 1)) /\
  BankParser.balance t = orNull (BankParser.flatten (nth_error amounts 2)).

(** The amount field of a transaction by position: debit, credit,
    balance. *)
Definition amountField (k : nat) (t : BankParser.transaction) : option Num.number :=
  match k with
  | 0 => BankParser.debit t
  | 1 => BankParser.credit t
  | _ => BankParser.balance t
  end.

(** [dateMatch[1]]: the date token of a row. *)
Definition dateToken (m : mresult) : jsstring :=
  match capture 1 m with Some d => d | None => [] end.

Definition zeroLine : jsstring := lit "01/01/2024 X 0.00 5.00".
Definition zeroRow : jsstring := lit "02/01/2024 ATM 0.00 100.00 0.00".

(** Whether a token list holds a token of a given letter, and whether
    a format names the year, the month and the day. *)
Definition headIs (a : ascii) (tok : jsstring) : bool :=
  match tok with c :: _ => chr a c | [] => false end.
Definition hasToken (a : ascii) (toks : list jsstring) : bool := existsb (headIs a) toks.
Definition namesAllFields (fmt : jsstring) : bool :=
  hasToken "y" (tokenize fmt) && hasToken "M" (tokenize fmt) && hasToken "d" (tokenize fmt).
Definition isSome {A : Type} (o : option A) : bool :=
  match o with Some _ => true | None => false end.

(** The local values of [normalizeAmount]: the text after the currency
    symbols, white space and commas are removed ([str] after the first
    [replace]), the sign flag [isNegative], and the text handed to
    [parseFloat]. *)
Definition stripped (raw : jsstring) : jsstring :=
  replaceAll Normalize.currencyOrSpace [] (Str.trim raw).
Definition negativeMarked (raw : jsstring) : bool :=
  Str.startsWith (lit "(") (stripped raw) && Str.endsWith (lit ")") (stripped raw)
  || Str.startsWith (lit "-") (stripped raw).
Definition amountBody (raw : jsstring) : jsstring :=
  replaceFirst Normalize.leadingMinus [] (replaceAll Normalize.parens [] (stripped raw)).

(** An amount text with its currency symbols, white space and commas
    removed. *)
Definition withoutSymbols (raw : jsstring) : jsstring :=
  replaceAll Normalize.currencyOrSpace [] raw.

Definition startsWithDigit (s : jsstring) : bool :=
  match s with c :: _ => isDigit c | [] => false end.

Definition isNegative (x : Num.number) : bool := Num.ltb x (Num.ofZ 0).

(** Whether a text begins with a number as [parseFloat] reads one:
    "Infinity", a digit, or a point before a digit, after an optional
    sign. *)
Definition unsignedStart (s : jsstring) : bool :=
  Str.startsWith (lit "Infinity") s || startsWithDigit s ||
  match s with c :: t => chr "." c && startsWithDigit t | [] => false end.

Definition numericStart (s : jsstring) : bool :=
  match s with
  | c :: t => if chr "-" c || chr "+" c then unsignedStart t else unsignedStart s
  | [] => false
  end.

(** The greedy run of a class at the head of a text, bounded by [hi],
    and the matcher position after [n] code units. *)
Fixpoint spanLen (p : cset) (hi : option nat) (rest : jsstring) : nat :=
  match hi with
  | Some 0 => 0
  | _ =>
    match rest with
    | x :: t => if p x then S (spanLen p (option_map pred hi) t) else 0
    | [] => 0
    end
  end.

Fixpoint advance (n : nat) (prev : option cu) (rest : jsstring) : option cu * jsstring :=
  match n, rest with
  | S n', x :: t => advance n' (Some x) t
  | _, _ => (prev, rest)
  end.

(** The text that [normalizeDate] hands to the templates. *)
Definition cleanedDate (raw : jsstring) : jsstring :=
  replaceAll sp1 (lit " ") (Str.trim raw).

Definition accepts (now : date) (cleaned fmt : jsstring) : bool :=
  match parse cleaned fmt now with Valid _ => true | _ => false end.

(** The calendar fields of a JavaScript [Date]: [getMonth()] lies in
    0..11 and [getDate()] in 1..31. *)
Definition calendarDate (d : date) : Prop :=
  (0 <= dMonth d <= 11)%Z /\ (1 <= dDay d <= 31)%Z.

(** A date with an expanded year in the date-time format of ECMAScript
    (ECMA-262, Date Time String Format), and a host in a zone at UTC
    that reads this one text, as every host must, and no other. *)
Definition longYearText : jsstring := lit "+012345-06-15".
Definition expandedYearHost : jsstring -> option date :=
  fun s => if jseqb s longYearText then Some (Date 12345 5 15 0) else None.

(** The form YYYY-MM-DD: four digits, a dash, two digits, a dash, two
    digits. *)
Definition isoShape (s : jsstring) : bool :=
  match s with
  | [y1; y2; y3; y4; h1; m1; m2; h2; d1; d2] =>
    forallb isDigit [y1; y2; y3; y4; m1; m2; d1; d2] && chr "-" h1 && chr "-" h2
  | _ => false
  end.

Definition shortYears (toks : list jsstring) : bool :=
  forallb (fun tok => negb (headIs "y" tok) || (length tok <=? 4)) toks.

Definition padOK (len : nat) (n : Z) : bool :=
  (length (addLeadingZeros n len) =? len) && forallb isDigit (addLeadingZeros n len).

(** Whether a pattern matches at a position, and whether it matches
    nowhere from a position on. *)
Definition hit (r : regex) (prev : option cu) (rest : jsstring) : bool :=
  match matchHere r prev rest with Some _ => true | None => false end.

Fixpoint noHit (r : regex) (prev : option cu) (s : jsstring) : bool :=
  negb (hit r prev s) &&
  match s with
  | [] => true
  | c :: t => noHit r (Some c) t
  end.

(** Replacing each one-unit match of a pattern by the unit [b]. *)
Fixpoint subst1 (r : regex) (b : cu) (prev : option cu) (s : jsstring) : jsstring :=
  match s with
  | [] => []
  | c :: t => (if hit r prev s then b else c) :: subst1 r b (Some c) t
  end.

(** Replacing each run of two or more units of a class by the unit
    [b]; [inRun] says that the scan is inside a run being replaced. *)
Fixpoint collapse (p : cset) (b : cu) (inRun : bool) (s : jsstring) : jsstring :=
  match s with
  | [] => []
  | c :: t =>
    if p c then
      if inRun then collapse p b true t
      else if 2 <=? spanLen p None s then b :: collapse p b true t
      else c :: collapse p b false t
    else c :: collapse p b false t
  end.

(** No two neighbouring units of a class; [prevIn] says that the unit
    before the text is of the class. *)
Fixpoint noRun (p : cset) (prevIn : bool) (s : jsstring) : bool :=
  match s with
  | [] => true
  | c :: t => if p c then negb prevIn && noRun p true t else noRun p false t
  end.

(** A continuation cut off above [n] remaining code units, and a
    matcher that only continues at or after its own position. *)
Definition restrict (n : nat) (k : cont) : cont :=
  fun y => if length (m_rest y) <=? n then k y else None.

Definition shrinking (step : mstate -> cont -> option mstate) : Prop :=
  forall s k, step s k = step s (restrict (length (m_rest s)) k).

(** The number of units of a class in a text, and the number of
    positions at which a pattern matches. *)
Definition count (a : cset) (s : jsstring) : nat := length (filter a s).

Fixpoint hits (r : regex) (prev : option cu) (s : jsstring) : nat :=
  match s with
  | [] => 0
  | c :: t => (if hit r prev s then 1 else 0) + hits r (Some c) t
  end.

(** Further predicates of the proofs. *)

Definition notSymbol : cset := fun x =>
  negb ((code rupee :|: chr "$" :|: code euro :|: code pound :|: code yen
         :|: code won :|: chr "," :|: isSpace) x).

Definition notParen : cset := fun x => negb ((chr "(" :|: chr ")") x).

(** The sign of what [parseFloat] reads from unsigned digits. *)
Definition signIs (s : bool) (x : Num.number) : Prop :=
  match x with
  | S754_zero s' | S754_infinity s' | S754_finite s' _ _ => s' = s
  | S754_nan => True
  end.

(** A pattern whose matches are one unit long. *)
Definition unitMatches (r : regex) : Prop :=
  forall prev rest n gs, matchHere r prev rest = Some (n, gs) -> n = 1 /\ rest <> [].

Definition letterBeforeDigit (cl : cset) : regex := Seq (Char cl) (Ahead dg).

Definition headIn (p : cset) (s : jsstring) : bool :=
  match s with c :: _ => p c | [] => false end.

Definition yearOK (f : fields) : Prop :=
  forall y, fYear f = Some y -> (0 <= y <= 9999)%Z.

Definition noisyText : jsstring := lit "A/c ||| l234O5  Balance   I50".

(** The OCR-quality check of [processJob]: fewer than 20 words of more
    than two code units. *)
Definition fewWords (text : jsstring) : bool :=
  length (filter (fun w => 2 <? length w) (split sp1 text)) <? 20.

Definition formL6 : jsstring := lit "Form l6".
Definition tdsFormL6 : jsstring := lit "TDS deductor Form l6".
Definition pipedWords : jsstring :=
  Str.join (lit " ") (repeat (lit "abc") 19) ++ lit " ab||cd".

(** The result of the pipeline for a document of one page named
    "scan.pdf", on the host of the examples. *)
Definition onePageResult (isScanned : bool) (text : jsstring) : Processor.finalResult :=
  Processor.processCore noNative allValid sampleNow (lit "doc-1") isScanned 1
    [text] (lit "scan.pdf").

(** ** The words of a pattern

    The texts that a pattern can match, read from its syntax (a
    lookahead and the anchors match the empty text); the texts that a
    group of a given index can capture; what one run of the matcher
    from a state [s] to a state [s1] has done; and the patterns whose
    bounded repetitions have their bounds in order. *)
Fixpoint Lang (r : regex) (w : jsstring) : Prop :=
  match r with
  | Empty => w = []
  | Char c => exists x, w = [x] /\ c x = true
  | Seq a b => exists u v, w = u ++ v /\ Lang a u /\ Lang b v
  | Alt a b => Lang a w \/ Lang b w
  | Rep lo hi a =>
    exists ws, w = concat ws /\ Forall (Lang a) ws /\ lo <= length ws /\
               (forall h, hi = Some h -> length ws <= h)
  | Group _ a => Lang a w
  | Ahead _ | Bound | Bol | Eol => w = []
  end.

Fixpoint GroupLang (r : regex) (i : nat) (v : jsstring) : Prop :=
  match r with
  | Seq a b | Alt a b => GroupLang a i v \/ GroupLang b i v
  | Rep _ _ a | Ahead a => GroupLang a i v
  | Group j a => (j = i /\ Lang a v) \/ GroupLang a i v
  | _ => False
  end.

Definition capsFrom (r : regex) (s s1 : mstate) : Prop :=
  forall i v, getCap i (m_caps s1) = Some v ->
              getCap i (m_caps s) = Some v \/ GroupLang r i v.

Definition Steps (r : regex) (s s1 : mstate) : Prop :=
  exists w, m_rest s = w ++ m_rest s1 /\ Lang r w /\ capsFrom r s s1.

Fixpoint wf (r : regex) : bool :=
  match r with
  | Seq a b | Alt a b => wf a && wf b
  | Rep lo hi a => match hi with Some h => lo <=? h | None => true end && wf a
  | Group _ a | Ahead a => wf a
  | _ => true
  end.

(** What a match of a pattern in a text is: the matched text stands at
    the index, is a word of the pattern, and each capture is a word of
    its group. *)
Definition matchOf (r : regex) (s : jsstring) (m : mresult) : Prop :=
  (exists post, s = firstn (m_index m) s ++ m_text m ++ post) /\
  m_index m <= length s /\
  Lang r (m_text m) /\
  forall i v, capture (S i) m = Some v -> GroupLang r (S i) v.

(** The number that an amount token stands for: its digits, read as
    hundredths. *)
Definition centsOf (tok : jsstring) : Num.number :=
  Normalize.dec (Num.digitsVal (filter isDigit tok)) (-2).

(** The shape of an amount token: currency sign and white space, then
    digits and commas, a point and two digits. *)
Definition tokenShape (w : jsstring) : Prop :=
  exists pre ds d1 d2,
    w = pre ++ ds ++ [46%N; d1; d2] /\
    forallb (code rupee :|: chr "$" :|: isSpace) pre = true /\
    forallb (isDigit :|: chr ",") ds = true /\
    isDigit d1 = true /\ isDigit d2 = true.

(** ** src/utils/normalize.js: [findLineIndex]

    The loop over the lines; [-1] when no line matches.  The pattern
    carries no [g] and no [y] flag (with one of them [test] would start
    from the position the last call left). *)
Fixpoint findLineFrom (lines : list jsstring) (pattern : regex) (i : nat) : Z :=
  match lines with
  | [] => (-1)%Z
  | l :: lines' =>
    if test pattern l then Z.of_nat i else findLineFrom lines' pattern (S i)
  end.

Definition findLineIndex (lines : list jsstring) (pattern : regex) : Z :=
  findLineFrom lines pattern 0.

(** Every line feed of a text has white space next to it: before it
    ([prevSp] says so for the unit before the text) or after it. *)
Fixpoint besideSpace (prevSp : bool) (s : jsstring) : bool :=
  match s with
  | [] => true
  | c :: t =>
    (negb (c =? 10)%N || prevSp || headIn isSpace t) && besideSpace (isSpace c) t
  end.

(** Numbers of the confidence computations: [k / 100], the rounded
    hundredfold of the three confidence formulas, and the integer that
    an integral number stands for. *)
Definition hundredth (k : Z) : Num.number := Num.div (Num.ofZ k) (Num.ofZ 100).

Definition sameNumber (x y : Num.number) : bool :=
  match x, y with
  | S754_zero a, S754_zero b | S754_infinity a, S754_infinity b => Bool.eqb a b
  | S754_nan, S754_nan => true
  | S754_finite a m e, S754_finite b m' e' => Bool.eqb a b && Pos.eqb m m' && Z.eqb e e'
  | _, _ => false
  end.

Definition toZ (x : Num.number) : Z :=
  match x with
  | S754_finite s m e =>
    let v := if (0 <=? e)%Z then (Z.pos m * 2 ^ e)%Z else (Z.pos m / 2 ^ (- e))%Z in
    if s then (- v)%Z else v
  | _ => 0%Z
  end.

Definition isHundredfold (lo hi : Z) (r : Num.number) : bool :=
  (lo <=? toZ r)%Z && (toZ r <=? hi)%Z && sameNumber r (Num.ofZ (toZ r)).

Definition verdictRound (w l : nat) : Num.number :=
  Num.round (Num.mul (Num.min (Normalize.dec 99 (-2))
    (Num.div (Num.ofNat w) (Num.ofNat (w + l + 1)))) (Num.ofZ 100)).

Definition calcRound (filled total requiredFilled required : nat) : Num.number :=
  Num.round
    (Num.mul
      (Num.add
        (Num.mul (Num.div (Num.ofNat filled) (Num.ofNat total)) (Normalize.dec 4 (-1)))
        (Num.mul
          (if (0 <? required)%nat
           then Num.div (Num.ofNat requiredFilled) (Num.ofNat required)
           else Num.ofZ 1)
          (Normalize.dec 6 (-1))))
      (Num.ofZ 100)).

Definition blend (c e : Num.number) : Num.number :=
  Num.div
    (Num.round
      (Num.mul (Num.add (Num.mul c (Normalize.dec 2 (-1))) (Num.mul e (Normalize.dec 8 (-1))))
               (Num.ofZ 100)))
    (Num.ofZ 100).

Definition between01 (lo : Num.number) (x : Num.number) : bool :=
  Num.leb lo x && Num.leb x (Num.ofZ 1).

Definition zseq (a n : nat) : list Z := List.map Z.of_nat (seq a n).

(** The most that a keyword list can add to a score. *)
Definition maxContribution (k : Classifier.keyword) : nat :=
  Nat.min (S (nGroups (Classifier.pattern k))) 2 * Classifier.weight k.

Definition maxScore (keywords : list Classifier.keyword) : nat :=
  list_sum (List.map maxContribution keywords).

(** Whether a line starts a deductor block, the lines from the first
    line of a kind on, and a block that begins with a start line and
    holds no other. *)
Definition isStart (startPatterns : list regex) (line : jsstring) : bool :=
  existsb (fun p => test p line) startPatterns.

Fixpoint skipTo {A : Type} (f : A -> bool) (l : list A) : list A :=
  match l with
  | [] => []
  | x :: t => if f x then l else skipTo f t
  end.

Definition startsBlock (startPatterns : list regex) (block : list jsstring) : Prop :=
  exists l rest,
    block = l :: rest /\ isStart startPatterns l = true /\
    forallb (fun x => negb (isStart startPatterns x)) rest = true.

(** The warning codes that do not come from the schema validation. *)
Definition notSchema (c : wcode) : bool := negb (wcode_eqb c SCHEMA_VALIDATION).

(** A section code: 1, two digits, and at most one capital letter. *)
Definition sectionShape (v : jsstring) : Prop :=
  exists d1 d2 rest,
    v = 49%N :: d1 :: d2 :: rest /\ isDigit d1 = true /\ isDigit d2 = true /\
    (rest = [] \/ exists u, rest = [u] /\ isUpper u = true).

(** The words of [statusMap]. *)
Definition statusWords : list jsstring :=
  [lit "Final"; lit "Unmatched"; lit "Provisional"; lit "Overbooked"].

(** The line at which the loop over the rows of a block ends: no
    separator, and with the word "total". *)
Definition endsRows (line : jsstring) : bool :=
  negb (test TaxParser.separatorRe line) && test TaxParser.totalRe line.

(** The lines of a block that the row loop runs over: those after the
    sub-table header line, all lines when there is none. *)
Definition blockRows (lines : list jsstring) : list jsstring :=
  match findIndex (fun l => test TaxParser.sectionWord l && test TaxParser.transactionOrDate l)
                  lines with
  | Some headerIdx => skipn (S headerIdx) lines
  | None => lines
  end.

Definition blockHasHeader (lines : list jsstring) : bool :=
  isSome (findIndex (fun l => test TaxParser.sectionWord l && test TaxParser.transactionOrDate l)
                    lines).

(** The lines and the row of the deductor block of the examples. *)
Definition blockLines : list jsstring :=
  [lit "Name of Deductor: XYZ Pvt Ltd"; lit "TAN: MUMX12345A"; lit "192 30/04/2024 F 5500.00"].

Definition blockRow : TaxParser.transaction :=
  TaxParser.Transaction (Some (lit "192")) (Some (lit "2024-04-30")) None
    (Some (lit "Final")) None (Some (Num.ofZ 5500)) None None.

(** The bodies of the groups of a pattern that carry a given index. *)
Fixpoint groupBodies (r : regex) (i : nat) : list regex :=
  match r with
  | Seq a b | Alt a b => groupBodies a i ++ groupBodies b i
  | Rep _ _ a | Ahead a => groupBodies a i
  | Group j a => (if Nat.eqb j i then [a] else []) ++ groupBodies a i
  | _ => []
  end.

(** Identifiers in upper case: [letters] capital letters, [digits]
    digits and one capital letter (a PAN has 5 and 4, a TAN 4 and 5);
    an IFSC code; an account number; an assessment year. *)
Definition idShape (letters digits : nat) (v : jsstring) : Prop :=
  exists a b c,
    v = a ++ b ++ [c] /\ length a = letters /\ forallb isUpper a = true /\
    length b = digits /\ forallb isDigit b = true /\ isUpper c = true.

Definition ifscShape (v : jsstring) : Prop :=
  exists a b,
    v = a ++ 48%N :: b /\ length a = 4 /\ forallb isUpper a = true /\
    length b = 6 /\ forallb (isUpper :|: isDigit) b = true.

Definition accountShape (v : jsstring) : Prop :=
  exists d w,
    v = d :: w /\ isDigit d = true /\ forallb (isDigit :|: chr "-") w = true /\
    length w <= 20.

Definition yearShape (v : jsstring) : Prop :=
  exists a d b,
    v = a ++ d :: b /\ length a = 4 /\ forallb isDigit a = true /\
    TaxParser.dashes d = true /\ 2 <= length b <= 4 /\ forallb isDigit b = true.

Definition currencies : list jsstring := [lit "INR"; lit "USD"; lit "GBP"; lit "EUR"].

(** Header texts of the examples. *)
Definition bankHead : jsstring :=
  lit "Account No: 1234-5678 90" ++ [10%N] ++ lit "IFSC: hdfc0001234".
Definition taxHead : jsstring :=
  lit "Assessment Year: 2024 - 25" ++ [10%N] ++ lit "PAN: abcde1234f".
Definition deductorHead : jsstring :=
  lit "TAN: mumx12345a" ++ [10%N] ++ lit "PAN of Deductor: aaacx1234k".

(** * Properties *)

Unset Implicit Arguments.

Ltac break_match :=
  match goal with
  | |- context [match ?x with _ => _ end] => destruct x eqn:?
  end.

Lemma jseqb_spec (a b : jsstring) : jseqb a b = true <-> a = b.
Proof.
  revert b; induction a as [|x a IH]; intros [|y b]; simpl; split; try easy.
  - intros H; apply andb_true_iff in H as [H1 H2].
    apply N.eqb_eq in H1; apply IH in H2; now subst.
  - intros H; injection H as -> ->.
    rewrite N.eqb_refl; simpl; now apply IH.
Qed.

(** ** The matcher *)

Lemma groupList_length (r : regex) caps : length (groupList r caps) = nGroups r.
Proof. unfold groupList. now rewrite length_map, length_seq. Qed.

Lemma matchHere_groups (r : regex) prev rest n gs :
  matchHere r prev rest = Some (n, gs) -> length gs = nGroups r.
Proof.
  unfold matchHere. destruct (run r _ Some); [|discriminate].
  intros H; injection H as _ <-. apply groupList_length.
Qed.

Lemma searchFrom_groups (r : regex) rest : forall prev idx m,
  searchFrom r prev rest idx = Some m -> length (m_groups m) = nGroups r.
Proof.
  induction rest as [|c t IH]; intros prev idx m; simpl.
  - destruct (matchHere r prev []) as [[n gs]|] eqn:E; [|discriminate].
    intros H; injection H as <-. simpl. eapply matchHere_groups; eauto.
  - destruct (matchHere r prev (c :: t)) as [[n gs]|] eqn:E.
    + intros H; injection H as <-. simpl. eapply matchHere_groups; eauto.
    + apply IH.
Qed.

(** The bound on the iterations of a quantifier is never reached: the
    matcher of a pattern continues at or after the position where it
    started, so an iteration past the lower bound consumes input, and
    any amount of fuel above [lo + length rest] gives the same result. *)
Lemma restrict_here (n : nat) (k : cont) (y : mstate) :
  length (m_rest y) <= n -> restrict n k y = k y.
Proof. intros H. unfold restrict. now rewrite (proj2 (Nat.leb_le _ _) H). Qed.

Lemma restrict_agree (n : nat) (k k' : cont) :
  (forall y, length (m_rest y) <= n -> k y = k' y) -> restrict n k = restrict n k'.
Proof.
  intros H. apply functional_extensionality. intros y. unfold restrict.
  destruct (Nat.leb_spec (length (m_rest y)) n); [now apply H|reflexivity].
Qed.

Lemma shrinking_le (step : mstate -> cont -> option mstate) :
  shrinking step ->
  forall s k n, length (m_rest s) <= n -> step s (restrict n k) = step s k.
Proof.
  intros Hs s k n Hn. rewrite (Hs s (restrict n k)), (Hs s k). f_equal.
  apply restrict_agree. intros y Hy. apply restrict_here. lia.
Qed.

Lemma repLoop_shrinking (step : mstate -> cont -> option mstate) (gs : list nat) :
  shrinking step ->
  forall fuel lo hi s k n,
    length (m_rest s) <= n ->
    repLoop step gs fuel lo hi s (restrict n k) = repLoop step gs fuel lo hi s k.
Proof.
  intros Hs. induction fuel as [|fuel IH]; intros lo hi s k n Hn.
  - destruct hi as [[|h]|]; simpl; now apply restrict_here.
  - assert (Hd : forall hi',
      step (MState (m_prev s) (m_rest s) (clearCaps gs (m_caps s)))
        (fun y => if Nat.eqb lo 0 && Nat.eqb (length (m_rest y)) (length (m_rest s))
                  then None else repLoop step gs fuel (pred lo) hi' y (restrict n k))
      = step (MState (m_prev s) (m_rest s) (clearCaps gs (m_caps s)))
        (fun y => if Nat.eqb lo 0 && Nat.eqb (length (m_rest y)) (length (m_rest s))
                  then None else repLoop step gs fuel (pred lo) hi' y k)).
    { intros hi'.
      match goal with |- step ?x ?d1 = step ?x ?d2 => rewrite (Hs x d1), (Hs x d2) end.
      f_equal. apply restrict_agree. cbn [m_rest]. intros y Hy.
      destruct (_ && _); [reflexivity|]. apply IH. lia. }
    destruct hi as [[|h]|]; cbn [repLoop option_map].
    + now apply restrict_here.
    + rewrite Hd, (restrict_here n k s Hn). reflexivity.
    + rewrite Hd, (restrict_here n k s Hn). reflexivity.
Qed.

Lemma run_shrinking (r : regex) : shrinking (run r).
Proof.
  induction r as [|c|a IHa b IHb|a IHa b IHb|lo hi a IHa|i a IHa|a IHa| | |];
    intros s k; cbn [run].
  - symmetry. now apply restrict_here.
  - destruct (m_rest s) as [|x t] eqn:E; [reflexivity|].
    destruct (c x); [|reflexivity]. symmetry. apply restrict_here. simpl. lia.
  - match goal with |- run a s ?d1 = run a s ?d2 => rewrite (IHa s d1), (IHa s d2) end.
    f_equal. apply restrict_agree. intros y Hy. symmetry.
    now apply (shrinking_le _ IHb).
  - now rewrite <- (IHa s k), <- (IHb s k).
  - symmetry. now apply (repLoop_shrinking _ _ IHa).
  - match goal with |- run a s ?d1 = run a s ?d2 => rewrite (IHa s d1), (IHa s d2) end.
    f_equal. apply restrict_agree. intros y Hy. symmetry. now apply restrict_here.
  - destruct (run a s Some); [|reflexivity]. symmetry. now apply restrict_here.
  - destruct (xorb _ _); [|reflexivity]. symmetry. now apply restrict_here.
  - destruct (m_prev s); [reflexivity|]. symmetry. now apply restrict_here.
  - destruct (m_rest s) eqn:E; [|reflexivity]. symmetry. apply restrict_here.
    rewrite E. simpl. lia.
Qed.

Lemma repLoop_fuel (step : mstate -> cont -> option mstate) (gs : list nat) :
  shrinking step ->
  forall fuel fuel' lo hi s k,
    lo + length (m_rest s) < fuel -> lo + length (m_rest s) < fuel' ->
    repLoop step gs fuel lo hi s k = repLoop step gs fuel' lo hi s k.
Proof.
  intros Hs. induction fuel as [|fuel IH]; intros fuel' lo hi s k H1 H2; [lia|].
  destruct fuel' as [|fuel']; [lia|].
  assert (Hd : forall hi',
    step (MState (m_prev s) (m_rest s) (clearCaps gs (m_caps s)))
      (fun y => if Nat.eqb lo 0 && Nat.eqb (length (m_rest y)) (length (m_rest s))
                then None else repLoop step gs fuel (pred lo) hi' y k)
    = step (MState (m_prev s) (m_rest s) (clearCaps gs (m_caps s)))
      (fun y => if Nat.eqb lo 0 && Nat.eqb (length (m_rest y)) (length (m_rest s))
                then None else repLoop step gs fuel' (pred lo) hi' y k)).
  { intros hi'.
    match goal with |- step ?x ?d1 = step ?x ?d2 => rewrite (Hs x d1), (Hs x d2) end.
    f_equal. apply restrict_agree. cbn [m_rest]. intros y Hy.
    destruct (Nat.eqb_spec lo 0) as [->|Hlo];
      destruct (Nat.eqb_spec (length (m_rest y)) (length (m_rest s))); cbn [andb];
      try reflexivity; apply IH; simpl; lia. }
  destruct hi as [[|h]|]; cbn [repLoop option_map]; try reflexivity; now rewrite Hd.
Qed.

Lemma rep_fuel_adequate (lo : nat) (hi : option nat) (a : regex) (s : mstate) (k : cont)
    (fuel : nat) :
  lo + length (m_rest s) < fuel ->
  run (Rep lo hi a) s k = repLoop (run a) (groupsOf a) fuel lo hi s k.
Proof.
  intros H. cbn [run]. apply (repLoop_fuel _ _ (run_shrinking a)); lia.
Qed.

(** ** The classifier *)

(** What a keyword adds to the score depends on whether its pattern
    matches and on the number of its capturing groups, not on how often
    it matches. *)
Lemma contribution_by_groups (text : jsstring) (k : Classifier.keyword) :
  Classifier.contribution text k =
  (if test (Classifier.pattern k) text
   then Nat.min (S (nGroups (Classifier.pattern k))) 2 else 0) * Classifier.weight k.
Proof.
  unfold Classifier.contribution, Classifier.matchesLength, test.
  destruct (exec (Classifier.pattern k) text) as [m|] eqn:E; [|reflexivity].
  unfold exec in E. apply searchFrom_groups in E. now rewrite E.
Qed.

(** C1 (code at the failing inputs): [/debit/i] occurs three times in
    "debit debit debit" and adds its weight once, not twice;
    [/account\s+(number|no\.?|#)/i] occurs once in "account number" and
    adds its weight twice, as the match array holds the match and one
    capture. *)
Theorem scoreText_counts_captures_not_occurrences :
  In kwDebit Classifier.BANK_KEYWORDS /\
  occurrences (Classifier.pattern kwDebit) (lit "debit debit debit") = 3 /\
  Classifier.contribution (lit "debit debit debit") kwDebit = 1 * Classifier.weight kwDebit /\
  Classifier.scoreText (lit "debit debit debit") Classifier.BANK_KEYWORDS = 3 /\
  In kwAccount Classifier.BANK_KEYWORDS /\
  occurrences (Classifier.pattern kwAccount) (lit "account number") = 1 /\
  Classifier.contribution (lit "account number") kwAccount = 2 * Classifier.weight kwAccount.
Proof.
  split; [unfold kwDebit; apply nth_In; simpl; lia|].
  do 3 (split; [vm_compute; reflexivity|]).
  split; [unfold kwAccount; apply nth_In; simpl; lia|].
  split; vm_compute; reflexivity.
Qed.

(** ** The tax extractor on the three-line block *)

(** C8: the block with the lines "Name of Deductor: XYZ Pvt Ltd",
    "TAN: MUMX12345A" and "192 30/04/2024 F 5500.00" yields exactly one
    deductor, with TAN "MUMX12345A", and exactly one transaction, with
    section "192", transaction date "2024-04-30" and status of booking
    "Final". *)
Theorem tax_block_one_deductor_one_row :
  forall nativeDate now pageTexts,
    TaxParser.out_deductors
      (TaxParser.ex_output (TaxParser.extractTaxStatement nativeDate now pageTexts deductorBlock))
    = [ TaxParser.Deductor (Some (lit "XYZ Pvt Ltd")) (Some (lit "MUMX12345A")) None None None None
          [ TaxParser.Transaction (Some (lit "192")) (Some (lit "2024-04-30")) None
              (Some (lit "Final")) None (Some (Num.ofZ 5500)) None None ] ].
Proof. intros. vm_compute. reflexivity. Qed.

(** ** Empty input *)

Lemma hasCode_app (c : wcode) (a b : list warning) :
  hasCode c (a ++ b) = hasCode c a || hasCode c b.
Proof. unfold hasCode. apply existsb_app. Qed.

Lemma hasCode_schema (c : wcode) (es : list jsstring) :
  c <> SCHEMA_VALIDATION ->
  hasCode c (List.map (fun e => Warning SCHEMA_VALIDATION e) es) = false.
Proof.
  intros Hc. induction es as [|e es IH]; [reflexivity|].
  simpl. rewrite IH. destruct c; try reflexivity. now elim Hc.
Qed.

Lemma classify_empty (name : jsstring) :
  test Classifier.bankName (Str.toLowerCase name) = false ->
  test Classifier.taxName (Str.toLowerCase name) = false ->
  Classifier.classifyDocument [] name
  = Classifier.Verdict Classifier.unknown (Num.ofZ 0) None.
Proof.
  intros Hb Ht. unfold Classifier.classifyDocument.
  rewrite Hb, Ht.
  replace (Classifier.scoreText [] Classifier.BANK_KEYWORDS) with 0
    by (vm_compute; reflexivity).
  replace (Classifier.scoreText [] Classifier.TAX_KEYWORDS) with 0
    by (vm_compute; reflexivity).
  reflexivity.
Qed.

(** C4 (as the code has it): for empty input text and a file name that
    carries no bank or tax hint, the result has type unknown, no header
    and no records (no extractor runs), confidence 0.08, which is at
    most 0.1, and an UNKNOWN_DOCUMENT_TYPE warning; it has no
    NO_TRANSACTIONS and no NO_DEDUCTORS warning. *)
Theorem empty_text_is_unknown :
  forall nativeDate validateResult now documentId isScanned pageCount pageTexts originalName,
    Str.join Processor.pageBreak pageTexts = [] ->
    test Classifier.bankName (Str.toLowerCase originalName) = false ->
    test Classifier.taxName (Str.toLowerCase originalName) = false ->
    let r := Processor.processCore nativeDate validateResult now documentId isScanned
               pageCount pageTexts originalName in
    Processor.document_type r = Classifier.unknown /\
    Processor.payload_ r = Processor.NoPayload /\
    Processor.confidence_ r = Normalize.dec 8 (-2) /\
    Num.leb (Processor.confidence_ r) (Normalize.dec 1 (-1)) = true /\
    hasCode UNKNOWN_DOCUMENT_TYPE (Processor.warnings_ r) = true /\
    hasCode NO_TRANSACTIONS (Processor.warnings_ r) = false /\
    hasCode NO_DEDUCTORS (Processor.warnings_ r) = false.
Proof.
  intros nd vr now id sc pc pts name Hj Hb Ht r. subst r.
  unfold Processor.processCore. rewrite Hj, (classify_empty _ Hb Ht).
  cbn [Classifier.documentType Classifier.confidence Processor.extract
       Processor.er_confidence Processor.er_warnings Processor.er_payload].
  match goal with
  | |- context [Num.div (Num.round ?x) ?y] =>
    replace (Num.div (Num.round x) y) with (Normalize.dec 8 (-2))
      by (vm_compute; reflexivity)
  end.
  destruct (vr _ _) as [[|] errs];
    cbn [Processor.document_type Processor.payload_ Processor.confidence_
         Processor.warnings_];
    repeat rewrite hasCode_app;
    repeat rewrite hasCode_schema by discriminate;
    destruct sc; repeat split; vm_compute; reflexivity.
Qed.

Lemma empty_text_is_unknown_witness :
  let r := Processor.processCore noNative allValid sampleNow (lit "doc-1") false 1 []
             (lit "scan.pdf") in
  Processor.document_type r = Classifier.unknown /\
  Processor.payload_ r = Processor.NoPayload /\
  Processor.confidence_ r = Normalize.dec 8 (-2) /\
  Num.leb (Processor.confidence_ r) (Normalize.dec 1 (-1)) = true /\
  hasCode UNKNOWN_DOCUMENT_TYPE (Processor.warnings_ r) = true /\
  hasCode NO_TRANSACTIONS (Processor.warnings_ r) = false /\
  hasCode NO_DEDUCTORS (Processor.warnings_ r) = false.
Proof.
  apply (@empty_text_is_unknown noNative allValid sampleNow (lit "doc-1") false 1 []
           (lit "scan.pdf")); vm_compute; reflexivity.
Defined.

(** C4 (as stated) fails: with no pages and the file name "scan.pdf" the
    result carries neither a NO_TRANSACTIONS nor a NO_DEDUCTORS warning;
    with the file name "bank.pdf" the empty text is classified as a bank
    statement and the confidence is 0.26. *)
Lemma empty_text_not_as_specified :
  ~ emptyInputAsSpecified
      (Processor.processCore noNative allValid sampleNow (lit "doc-1") false 1 []
         (lit "scan.pdf")) /\
  ~ emptyInputAsSpecified
      (Processor.processCore noNative allValid sampleNow (lit "doc-1") false 1 []
         (lit "bank.pdf")).
Proof.
  unfold emptyInputAsSpecified. split.
  - set (r := Processor.processCore _ _ _ _ _ _ _ _).
    assert (E : (hasCode NO_TRANSACTIONS (Processor.warnings_ r)
                 || hasCode NO_DEDUCTORS (Processor.warnings_ r)) = false)
      by (vm_compute; reflexivity).
    intros [_ [_ [_ H]]]. rewrite E in H. discriminate.
  - set (r := Processor.processCore _ _ _ _ _ _ _ _).
    assert (E : Processor.document_type r = Classifier.bank_statement)
      by (vm_compute; reflexivity).
    intros [H _]. rewrite E in H. discriminate.
Qed.

(** ** Bank rows in header mode *)

Lemma rowLoop_cons nativeDate now line rows colMap i :
  BankParser.rowLoop nativeDate now (line :: rows) colMap i =
  if test BankParser.summaryRe line then []
  else if test BankParser.separatorRe line
  then BankParser.rowLoop nativeDate now rows colMap (S i)
  else if negb (test BankParser.slashDate line) && negb (test BankParser.wordDate line)
  then BankParser.rowLoop nativeDate now rows colMap (S i)
  else
    match BankParser.parseTransactionRow nativeDate now line colMap i with
    | Some txn => txn :: BankParser.rowLoop nativeDate now rows colMap (S i)
    | None => BankParser.rowLoop nativeDate now rows colMap (S i)
    end.
Proof. reflexivity. Qed.

Lemma rowLoop_salary nativeDate now rows colMap i :
  BankParser.rowLoop nativeDate now (salaryRow :: rows) colMap i
  = salaryTxn :: BankParser.rowLoop nativeDate now rows colMap (S i).
Proof.
  rewrite rowLoop_cons.
  replace (test BankParser.summaryRe salaryRow) with false by (vm_compute; reflexivity).
  replace (test BankParser.separatorRe salaryRow) with false by (vm_compute; reflexivity).
  replace (test BankParser.slashDate salaryRow) with true by (vm_compute; reflexivity).
  replace (BankParser.parseTransactionRow nativeDate now salaryRow colMap i)
    with (Some salaryTxn) by (vm_compute; reflexivity).
  reflexivity.
Qed.



(** ** Zero amounts and the heuristic scan *)

Lemma orNull_zero (v : Num.number) : Num.isZero v = true -> orNull (Some v) = None.
Proof. intros H. unfold orNull, Num.truthy. now rewrite H. Qed.

Lemma assignAmounts_three line amounts :
  3 <= length amounts ->
  BankParser.assignAmounts line amounts =
  (orNull (BankParser.amountValue amounts 0), orNull (BankParser.amountValue amounts 1),
   orNull (BankParser.amountValue amounts 2)).
Proof.
  intros H. unfold BankParser.assignAmounts.
  destruct (Nat.leb_spec 3 (length amounts)); [reflexivity|lia].
Qed.

Lemma parseTransactionRow_amounts nativeDate now line colMap idx t :
  BankParser.parseTransactionRow nativeDate now line colMap idx = Some t ->
  (BankParser.debit t, BankParser.credit t, BankParser.balance t)
  = BankParser.assignAmounts line (BankParser.rowAmounts line).
Proof.
  unfold BankParser.parseTransactionRow.
  destruct (exec BankParser.rowDate line) as [dm|]; [|discriminate].
  destruct (Normalize.normalizeDate _ _ _) as [[|c d]|]; try discriminate.
  destruct (BankParser.assignAmounts line (BankParser.rowAmounts line)) as [[db cr] bl].
  intros H; injection H as <-. reflexivity.
Qed.

Lemma heuristicRow_spec nativeDate now line t :
  BankParser.heuristicRow nativeDate now line = Some t ->
  test BankParser.heuristicDate line = true /\
  BankParser.heuristicAmounts line <> [] /\
  positionalOrNull t (BankParser.heuristicAmounts line).
Proof.
  unfold BankParser.heuristicRow, test.
  destruct (exec BankParser.heuristicDate line) as [dm|]; [|discriminate].
  destruct (BankParser.heuristicAmounts line) as [|a amounts] eqn:E; [discriminate|].
  intros H; injection H as <-.
  split; [reflexivity|]. split; [discriminate|].
  unfold positionalOrNull. simpl. auto.
Qed.

Lemma heuristicLoop_In nativeDate now lines t :
  In t (BankParser.heuristicLoop nativeDate now lines) ->
  exists line, In line lines /\ BankParser.heuristicRow nativeDate now line = Some t.
Proof.
  induction lines as [|l lines IH]; simpl; [easy|].
  destruct (BankParser.heuristicRow nativeDate now l) as [t'|] eqn:E.
  - intros [<-|H].
    + exists l; auto.
    + destruct (IH H) as (line & Hin & Hrow). exists line; auto.
  - intros H. destruct (IH H) as (line & Hin & Hrow). exists line; auto.
Qed.

Lemma formatISO_not_empty (d : date) : formatISO d <> [].
Proof. unfold formatISO. destruct (addLeadingZeros _ 4); discriminate. Qed.

Lemma tryFormats_not_empty (now : date) (c : jsstring) (fmts : list jsstring) :
  Normalize.tryFormats now c fmts <> Some [].
Proof.
  induction fmts as [|f fmts IH]; simpl; [discriminate|].
  destruct (parse c f now) as [|d|]; auto.
  intros H; injection H. apply formatISO_not_empty.
Qed.

Lemma normalizeDate_not_empty nativeDate (now : date) (raw : jsstring) :
  Normalize.normalizeDate nativeDate now raw <> Some [].
Proof.
  destruct raw as [|c t]; [discriminate|]. unfold Normalize.normalizeDate.
  destruct (Normalize.tryFormats now _ Normalize.DATE_FORMATS) as [iso|] eqn:E.
  - intros H; injection H as ->. exact (tryFormats_not_empty _ _ _ E).
  - destruct (nativeDate _) as [d|]; [|discriminate].
    destruct (1990 <? dYear d)%Z; [|discriminate].
    intros H; injection H. apply formatISO_not_empty.
Qed.

Lemma orNull_truthy (v : Num.number) : Num.truthy v = true -> orNull (Some v) = Some v.
Proof. intros H. unfold orNull. now rewrite H. Qed.

(** C10: a monetary token whose value is 0 is recorded as null.  In
    header mode a row whose date token is read as a date and that holds
    three or more amounts gives a transaction, and in it each of the
    first three amounts (debit, credit, balance) is null when its value
    is 0 and is the value itself otherwise.  In heuristic mode a line
    with a date token and at least one amount token gives a
    transaction, and in it each of the three amount fields is null when
    its token is 0 or absent and is the value of its token otherwise. *)
Theorem zero_amount_recorded_as_null :
  forall nativeDate now,
    (forall line colMap idx dm iso,
        exec BankParser.rowDate line = Some dm ->
        Normalize.normalizeDate nativeDate now (dateToken dm) = Some iso ->
        3 <= length (BankParser.rowAmounts line) ->
        exists t,
          BankParser.parseTransactionRow nativeDate now line colMap idx = Some t /\
          forall k v,
            k < 3 ->
            BankParser.amountValue (BankParser.rowAmounts line) k = Some v ->
            (Num.isZero v = true -> amountField k t = None) /\
            (Num.truthy v = true -> amountField k t = Some v)) /\
    (forall line,
        test BankParser.heuristicDate line = true ->
        BankParser.heuristicAmounts line <> [] ->
        exists t,
          BankParser.heuristicRow nativeDate now line = Some t /\
          forall k,
            k < 3 ->
            (nth_error (BankParser.heuristicAmounts line) k = None ->
             amountField k t = None) /\
            (forall v,
                nth_error (BankParser.heuristicAmounts line) k = Some (Some v) ->
                (Num.isZero v = true -> amountField k t = None) /\
                (Num.truthy v = true -> amountField k t = Some v))).
Proof.
  intros nd now. split.
  - intros line colMap idx dm iso Hdm Hiso Hlen.
    destruct (BankParser.parseTransactionRow nd now line colMap idx) as [t|] eqn:Hrow.
    + exists t. split; [reflexivity|]. intros k v Hk Hv.
      apply parseTransactionRow_amounts in Hrow.
      rewrite (assignAmounts_three _ _ Hlen) in Hrow.
      injection Hrow as Hd Hc Hb.
      destruct k as [|[|[|k]]]; try lia; simpl; rewrite Hv in *; split; intros Hz;
        [rewrite orNull_zero in * by assumption|rewrite orNull_truthy in * by assumption
        |rewrite orNull_zero in * by assumption|rewrite orNull_truthy in * by assumption
        |rewrite orNull_zero in * by assumption|rewrite orNull_truthy in * by assumption];
        assumption.
    + exfalso. unfold BankParser.parseTransactionRow in Hrow. rewrite Hdm in Hrow.
      fold (dateToken dm) in Hrow. rewrite Hiso in Hrow.
      destruct iso as [|c d]; [exact (normalizeDate_not_empty nd now _ Hiso)|].
      destruct (BankParser.assignAmounts line (BankParser.rowAmounts line)) as [[db cr] bl].
      discriminate.
  - intros line Hdate Hamt.
    destruct (BankParser.heuristicRow nd now line) as [t|] eqn:Hrow.
    + exists t. split; [reflexivity|]. intros k Hk.
      apply heuristicRow_spec in Hrow as (_ & _ & Hd & Hc & Hb).
      destruct k as [|[|[|k]]]; try lia; cbn [amountField];
        (split; [intros E|intros v E; split; intros Hz]);
        rewrite E in *; cbn [BankParser.flatten] in *;
        try rewrite orNull_zero in * by assumption;
        try rewrite orNull_truthy in * by assumption; assumption.
    + exfalso. unfold BankParser.heuristicRow in Hrow. unfold test in Hdate.
      destruct (exec BankParser.heuristicDate line) as [dm|]; [|discriminate].
      destruct (BankParser.heuristicAmounts line); [now elim Hamt|discriminate].
Qed.

Lemma zero_amount_recorded_as_null_witness :
  Normalize.normalizeAmount (lit "0.00") = Some (S754_zero false) /\
  (exists t,
      BankParser.parseTransactionRow noNative sampleNow zeroRow
        (BankParser.detectColumns []) 0 = Some t /\
      BankParser.debit t = None /\ BankParser.credit t = Some (Num.ofZ 100) /\
      BankParser.balance t = None) /\
  (exists t,
      BankParser.heuristicRow noNative sampleNow zeroLine = Some t /\
      BankParser.debit t = None /\ BankParser.credit t = Some (Num.ofZ 5) /\
      BankParser.balance t = None).
Proof.
  split; [vm_compute; reflexivity|]. split.
  - edestruct (proj1 (zero_amount_recorded_as_null noNative sampleNow) zeroRow
                 (BankParser.detectColumns []) 0) as (t & Ht & Hk).
    + vm_compute. reflexivity.
    + vm_compute. reflexivity.
    + vm_compute. lia.
    + exists t. split; [exact Ht|]. split; [|split].
      * apply (proj1 (Hk 0 (S754_zero false) ltac:(lia) ltac:(vm_compute; reflexivity))).
        reflexivity.
      * apply (proj2 (Hk 1 (Num.ofZ 100) ltac:(lia) ltac:(vm_compute; reflexivity))).
        vm_compute. reflexivity.
      * apply (proj1 (Hk 2 (S754_zero false) ltac:(lia) ltac:(vm_compute; reflexivity))).
        reflexivity.
  - edestruct (proj2 (zero_amount_recorded_as_null noNative sampleNow) zeroLine)
      as (t & Ht & Hk).
    + vm_compute. reflexivity.
    + vm_compute. discriminate.
    + exists t. split; [exact Ht|]. split; [|split].
      * apply (proj1 (proj2 (Hk 0 ltac:(lia)) (S754_zero false)
                        ltac:(vm_compute; reflexivity))).
        reflexivity.
      * apply (proj2 (proj2 (Hk 1 ltac:(lia)) (Num.ofZ 5)
                        ltac:(vm_compute; reflexivity))).
        vm_compute. reflexivity.
      * apply (proj1 (Hk 2 ltac:(lia))). vm_compute. reflexivity.
Defined.

Lemma findIndex_none {A : Type} (f : A -> bool) (l : list A) :
  (forall x, In x l -> f x = false) -> findIndex f l = None.
Proof.
  induction l as [|x l IH]; intros H; simpl; [reflexivity|].
  rewrite (H x (or_introl eq_refl)), IH; [reflexivity|].
  intros y Hy. apply H. now right.
Qed.

Lemma findHeader_none (ps : list regex) (lines : list jsstring) :
  (forall p l, In p ps -> In l lines -> test p l = false) ->
  BankParser.findHeader ps lines = None.
Proof.
  induction ps as [|p ps IH]; intros H; simpl; [reflexivity|].
  rewrite findIndex_none.
  - apply IH. intros q l Hq Hl. apply H; [now right|assumption].
  - intros l Hl. apply H; [now left|assumption].
Qed.




(** ** The clock: [parse] does not depend on the reference date *)

Lemma keepFirst_isSome (o : option Z) (v : Z) : isSome (keepFirst o v) = true.
Proof. now destruct o. Qed.

Lemma keepFirst_keeps (o : option Z) (v : Z) : isSome o = true -> keepFirst o v = o.
Proof. now destruct o. Qed.

Lemma headIs_excl (a b : ascii) (c : cu) :
  a <> b -> chr a c = true -> chr b c = false.
Proof.
  unfold chr, ch. intros Hab Ha. apply N.eqb_eq in Ha. subst c.
  apply N.eqb_neq. intros E. apply Hab.
  rewrite <- (ascii_N_embedding a), <- (ascii_N_embedding b). now f_equal.
Qed.

Lemma parseToken_fields (tok : jsstring) (f f' : fields) (s rest : jsstring) :
  parseToken tok f s = Next f' rest ->
  (isSome (fYear f) || headIs "y" tok = true -> isSome (fYear f') = true) /\
  (isSome (fMonth f) || headIs "M" tok = true -> isSome (fMonth f') = true) /\
  (isSome (fDay f) || headIs "d" tok = true -> isSome (fDay f') = true).
Proof.
  unfold parseToken. destruct tok as [|c tok'].
  { intros H; injection H as <- <-. simpl. rewrite !orb_false_r. auto. }
  cbn [headIs].
  destruct (chr "y" c) eqn:Ey.
  { rewrite (headIs_excl "y"%char "M"%char c) by (discriminate || assumption).
    rewrite (headIs_excl "y"%char "d"%char c) by (discriminate || assumption).
    rewrite !orb_false_r, orb_true_r.
    repeat break_match; try discriminate;
      intros H; injection H as <- <-; simpl; auto using keepFirst_isSome. }
  destruct (chr "M" c) eqn:Em.
  { rewrite (headIs_excl "M"%char "d"%char c) by (discriminate || assumption).
    rewrite !orb_false_r, orb_true_r.
    repeat break_match; try discriminate;
      intros H; injection H as <- <-; simpl; auto using keepFirst_isSome. }
  destruct (chr "d" c) eqn:Ed.
  { rewrite !orb_false_r, orb_true_r.
    repeat break_match; try discriminate;
      intros H; injection H as <- <-; simpl; auto using keepFirst_isSome. }
  rewrite !orb_false_r.
  repeat break_match; try discriminate; intros H; injection H as <- <-; auto.
Qed.

Lemma parseTokens_fields (toks : list jsstring) : forall f f' s rest,
  parseTokens toks f s = Next f' rest ->
  (isSome (fYear f) || hasToken "y" toks = true -> isSome (fYear f') = true) /\
  (isSome (fMonth f) || hasToken "M" toks = true -> isSome (fMonth f') = true) /\
  (isSome (fDay f) || hasToken "d" toks = true -> isSome (fDay f') = true).
Proof.
  induction toks as [|tok toks IH]; intros f f' s rest; simpl.
  - intros H; injection H as <- <-. rewrite !orb_false_r. auto.
  - destruct (parseToken tok f s) as [| |f1 s1] eqn:E; try discriminate.
    intros H. apply IH in H as (Hy & Hm & Hd).
    apply parseToken_fields in E as (Ey & Em & Ed).
    repeat split; intros Hx.
    + apply Hy. apply orb_true_iff in Hx as [Hx|Hx].
      * rewrite Ey; [reflexivity|]. now rewrite Hx.
      * apply orb_true_iff in Hx as [Hx|Hx].
        -- rewrite Ey; [reflexivity|]. rewrite Hx. apply orb_true_r.
        -- rewrite Hx. apply orb_true_r.
    + apply Hm. apply orb_true_iff in Hx as [Hx|Hx].
      * rewrite Em; [reflexivity|]. now rewrite Hx.
      * apply orb_true_iff in Hx as [Hx|Hx].
        -- rewrite Em; [reflexivity|]. rewrite Hx. apply orb_true_r.
        -- rewrite Hx. apply orb_true_r.
    + apply Hd. apply orb_true_iff in Hx as [Hx|Hx].
      * rewrite Ed; [reflexivity|]. now rewrite Hx.
      * apply orb_true_iff in Hx as [Hx|Hx].
        -- rewrite Ed; [reflexivity|]. rewrite Hx. apply orb_true_r.
        -- rewrite Hx. apply orb_true_r.
Qed.

(** A format that names the year, the month and the day overwrites every
    field of the reference date. *)
Lemma parse_ref_irrelevant (fmt s : jsstring) (ref1 ref2 : date) :
  namesAllFields fmt = true -> parse s fmt ref1 = parse s fmt ref2.
Proof.
  unfold namesAllFields. intros H.
  apply andb_true_iff in H as [H Hd]. apply andb_true_iff in H as [Hy Hm].
  unfold parse.
  destruct (parseTokens (tokenize fmt) (Fields None None None) s) as [| |f rest] eqn:E;
    try reflexivity.
  apply parseTokens_fields in E as (Ey & Em & Ed).
  rewrite Hy in Ey. rewrite Hm in Em. rewrite Hd in Ed.
  specialize (Ey eq_refl). specialize (Em eq_refl). specialize (Ed eq_refl).
  destruct (fYear f) as [y|]; [|discriminate].
  destruct (fMonth f) as [m|]; [|discriminate].
  destruct (fDay f) as [d|]; [|discriminate].
  destruct (existsb _ rest); [reflexivity|].
  unfold setYear. destruct (0 <? y)%Z; reflexivity.
Qed.

Lemma DATE_FORMATS_name_all_fields :
  forallb namesAllFields Normalize.DATE_FORMATS = true.
Proof. vm_compute. reflexivity. Qed.

Lemma tryFormats_now (fmts : list jsstring) (cleaned : jsstring) (now1 now2 : date) :
  forallb namesAllFields fmts = true ->
  Normalize.tryFormats now1 cleaned fmts = Normalize.tryFormats now2 cleaned fmts.
Proof.
  induction fmts as [|fmt fmts IH]; simpl; [reflexivity|].
  intros H. apply andb_true_iff in H as [H1 H2].
  rewrite (parse_ref_irrelevant fmt cleaned now1 now2 H1), (IH H2). reflexivity.
Qed.

Lemma normalizeDate_now nativeDate (now1 now2 : date) :
  Normalize.normalizeDate nativeDate now1 = Normalize.normalizeDate nativeDate now2.
Proof.
  apply functional_extensionality. intros raw. unfold Normalize.normalizeDate.
  rewrite (tryFormats_now _ _ now1 now2 DATE_FORMATS_name_all_fields). reflexivity.
Qed.

Lemma extractBankStatement_now nativeDate (now1 now2 : date) pageTexts fullText :
  BankParser.extractBankStatement nativeDate now1 pageTexts fullText
  = BankParser.extractBankStatement nativeDate now2 pageTexts fullText.
Proof.
  unfold BankParser.extractBankStatement, BankParser.extractHeader,
    BankParser.extractTransactions, BankParser.parseTransactionHeuristic,
    BankParser.heuristicLoop, BankParser.heuristicRow, BankParser.rowLoop,
    BankParser.parseTransactionRow, BankParser.periodLoop.
  rewrite (normalizeDate_now nativeDate now1 now2). reflexivity.
Qed.

Lemma extractTaxStatement_now nativeDate (now1 now2 : date) pageTexts fullText :
  TaxParser.extractTaxStatement nativeDate now1 pageTexts fullText
  = TaxParser.extractTaxStatement nativeDate now2 pageTexts fullText.
Proof.
  unfold TaxParser.extractTaxStatement, TaxParser.extractDeductors,
    TaxParser.parseDeductorBlock, TaxParser.extractTDSTransactions, TaxParser.tdsLoop,
    TaxParser.tdsRow.
  rewrite (normalizeDate_now nativeDate now1 now2). reflexivity.
Qed.

(** C3: the result of the core (type, header, records, confidence,
    warnings) is a function of the page texts and the file name; the
    reading of the clock that [normalizeDate] hands to [parse] as
    reference date does not reach it. *)
Theorem core_is_deterministic :
  forall nativeDate validateResult now1 now2 documentId isScanned pageCount pageTexts
         originalName,
    Processor.processCore nativeDate validateResult now1 documentId isScanned pageCount
      pageTexts originalName
    = Processor.processCore nativeDate validateResult now2 documentId isScanned pageCount
        pageTexts originalName.
Proof.
  intros. unfold Processor.processCore, Processor.extract.
  destruct (Classifier.documentType _);
    rewrite ?(extractBankStatement_now nativeDate now1 now2),
            ?(extractTaxStatement_now nativeDate now1 now2); reflexivity.
Qed.

(** ** The matcher on one-class patterns *)

Lemma sub_succ_self (n : nat) : S n - n = 1.
Proof. lia. Qed.

Lemma matchHere_char (c : cset) prev rest :
  matchHere (Char c) prev rest =
  match rest with
  | x :: _ => if c x then Some (1, []) else None
  | [] => None
  end.
Proof.
  unfold matchHere. simpl. destruct rest as [|x t]; [reflexivity|].
  destruct (c x); [|reflexivity]. simpl m_rest.
  change (length (x :: t)) with (S (length t)). now rewrite sub_succ_self.
Qed.

(** Replacing every code unit of a class. *)
Lemma replaceGo_char (c : cset) (repl : jsstring) (s : jsstring) : forall prev,
  replaceGo (Char c) repl prev s 0 = flat_map (fun x => if c x then repl else [x]) s.
Proof.
  induction s as [|x t IH]; intros prev; cbn [replaceGo flat_map];
    rewrite matchHere_char; [reflexivity|].
  destruct (c x); simpl; now rewrite IH.
Qed.

Lemma replaceAll_char_delete (c : cset) (s : jsstring) :
  replaceAll (Char c) [] s = filter (fun x => negb (c x)) s.
Proof.
  unfold replaceAll. rewrite replaceGo_char.
  induction s as [|x t IH]; simpl; [reflexivity|].
  destruct (c x); simpl; now rewrite IH.
Qed.

Lemma searchFrom_bol_later (r : regex) (rest : jsstring) : forall c idx,
  searchFrom (Seq Bol r) (Some c) rest idx = None.
Proof.
  induction rest as [|x t IH]; intros c idx; simpl; [reflexivity|apply IH].
Qed.

(** [s.replace(/^-/, '')]. *)
Lemma replaceFirst_leadingMinus (s : jsstring) :
  replaceFirst Normalize.leadingMinus [] s =
  match s with
  | c :: t => if chr "-" c then t else s
  | [] => []
  end.
Proof.
  unfold replaceFirst, exec, Normalize.leadingMinus.
  destruct s as [|c t]; [reflexivity|].
  cbn [searchFrom]. unfold matchHere. cbn [run str lit strOf List.map list_ascii_of_string m_rest m_prev].
  change (code (N_of_ascii "-") c) with (chr "-" c).
  destruct (chr "-" c).
  - cbn [m_rest m_index m_text]. change (length (c :: t)) with (S (length t)).
    rewrite sub_succ_self. reflexivity.
  - now rewrite searchFrom_bol_later.
Qed.

(** ** Amounts *)

Lemma filter_dropWhile (keep p : cset) (s : jsstring) :
  (forall x, p x = true -> keep x = false) ->
  filter keep (Str.dropWhile p s) = filter keep s.
Proof.
  intros H. induction s as [|x t IH]; simpl; [reflexivity|].
  destruct (p x) eqn:E; [|reflexivity]. now rewrite (H x E).
Qed.

Lemma filter_rev {A : Type} (f : A -> bool) (l : list A) :
  filter f (rev l) = rev (filter f l).
Proof.
  induction l as [|x l IH]; simpl; [reflexivity|].
  rewrite filter_app, IH. simpl. destruct (f x); simpl; [reflexivity|].
  now rewrite app_nil_r.
Qed.

Lemma filter_trim (keep : cset) (s : jsstring) :
  (forall x, isSpace x = true -> keep x = false) ->
  filter keep (Str.trim s) = filter keep s.
Proof.
  intros H. unfold Str.trim, Str.trimEnd, Str.trimStart.
  rewrite filter_rev, (filter_dropWhile _ _ _ H), filter_rev, rev_involutive.
  apply (filter_dropWhile _ _ _ H).
Qed.

Lemma filter_idem {A : Type} (f : A -> bool) (l : list A) :
  filter f (filter f l) = filter f l.
Proof.
  induction l as [|x l IH]; simpl; [reflexivity|].
  destruct (f x) eqn:E; simpl; [rewrite E|]; now rewrite IH.
Qed.

Lemma notSymbol_space (x : cu) : isSpace x = true -> notSymbol x = false.
Proof.
  intros H. unfold notSymbol, union. rewrite H. now rewrite orb_true_r.
Qed.

Lemma stripped_filter (raw : jsstring) : stripped raw = filter notSymbol raw.
Proof.
  unfold stripped, Normalize.currencyOrSpace. rewrite replaceAll_char_delete.
  apply filter_trim, notSymbol_space.
Qed.

Lemma withoutSymbols_filter (raw : jsstring) : withoutSymbols raw = filter notSymbol raw.
Proof. unfold withoutSymbols, Normalize.currencyOrSpace. apply replaceAll_char_delete. Qed.

Lemma stripped_withoutSymbols (raw : jsstring) : stripped (withoutSymbols raw) = stripped raw.
Proof. now rewrite !stripped_filter, withoutSymbols_filter, filter_idem. Qed.

Lemma normalizeAmount_unfold (raw : jsstring) :
  raw <> [] ->
  Normalize.normalizeAmount raw =
  if Num.isNaN (Num.parseFloat (amountBody raw)) then None
  else Some (if negativeMarked raw then Num.neg (Num.parseFloat (amountBody raw))
             else Num.parseFloat (amountBody raw)).
Proof. destruct raw; [congruence|reflexivity]. Qed.

Lemma normalizeAmount_no_body (raw : jsstring) :
  stripped raw = [] -> Normalize.normalizeAmount raw = None.
Proof.
  intros H. destruct raw as [|c t]; [reflexivity|].
  rewrite normalizeAmount_unfold by discriminate.
  unfold amountBody. rewrite H. reflexivity.
Qed.

Lemma normalizeAmount_withoutSymbols (raw : jsstring) :
  Normalize.normalizeAmount raw = Normalize.normalizeAmount (withoutSymbols raw).
Proof.
  destruct raw as [|c t] eqn:Eraw; [reflexivity|]. rewrite <- Eraw.
  assert (Hraw : raw <> []) by (subst; discriminate).
  destruct (withoutSymbols raw) as [|c' t'] eqn:Ew.
  - simpl. apply normalizeAmount_no_body.
    now rewrite stripped_filter, <- withoutSymbols_filter.
  - rewrite <- Ew. rewrite !normalizeAmount_unfold by (assumption || rewrite Ew; discriminate).
    unfold amountBody, negativeMarked. now rewrite !stripped_withoutSymbols.
Qed.

Lemma stripped_parenthesized (s : jsstring) :
  stripped (lit "(" ++ s ++ lit ")") = lit "(" ++ stripped s ++ lit ")".
Proof.
  rewrite !stripped_filter. change (lit "(") with [40%N]. change (lit ")") with [41%N].
  rewrite !filter_app. reflexivity.
Qed.

Lemma negativeMarked_parenthesized (s : jsstring) :
  negativeMarked (lit "(" ++ s ++ lit ")") = true.
Proof.
  unfold negativeMarked. rewrite stripped_parenthesized.
  change (lit "(") with [40%N]. change (lit ")") with [41%N].
  unfold Str.endsWith. cbn [app rev]. rewrite rev_app_distr. reflexivity.
Qed.

Lemma amountBody_parenthesized (s : jsstring) :
  amountBody (lit "(" ++ s ++ lit ")") = amountBody s.
Proof.
  unfold amountBody. rewrite stripped_parenthesized.
  unfold Normalize.parens. rewrite !replaceAll_char_delete.
  change (lit "(") with [40%N]. change (lit ")") with [41%N].
  rewrite !filter_app.
  change (filter (fun x => negb ((chr "(" :|: chr ")") x)) [40%N]) with (@nil cu).
  change (filter (fun x => negb ((chr "(" :|: chr ")") x)) [41%N]) with (@nil cu).
  now rewrite app_nil_r.
Qed.

Lemma normalizeAmount_parenthesized (s : jsstring) :
  negativeMarked s = false ->
  Normalize.normalizeAmount (lit "(" ++ s ++ lit ")")
  = option_map Num.neg (Normalize.normalizeAmount s).
Proof.
  intros Hs.
  rewrite (normalizeAmount_unfold (lit "(" ++ s ++ lit ")")) by discriminate.
  rewrite negativeMarked_parenthesized, amountBody_parenthesized.
  destruct s as [|c t] eqn:Es.
  - reflexivity.
  - rewrite <- Es in *. rewrite normalizeAmount_unfold by (subst; discriminate).
    rewrite Hs. now destruct (Num.isNaN _).
Qed.

Lemma normalizeAmount_parenthesized_marked (s : jsstring) :
  negativeMarked s = true ->
  Normalize.normalizeAmount (lit "(" ++ s ++ lit ")") = Normalize.normalizeAmount s.
Proof.
  intros Hs.
  rewrite (normalizeAmount_unfold (lit "(" ++ s ++ lit ")")) by discriminate.
  rewrite negativeMarked_parenthesized, amountBody_parenthesized.
  destruct s as [|c t] eqn:Es; [discriminate|].
  rewrite <- Es in *. rewrite normalizeAmount_unfold by (subst; discriminate).
  now rewrite Hs.
Qed.

Lemma binary_round_aux_sign (s : bool) (m e : Z) (l : location) :
  signIs s (binary_round_aux Num.prec Num.emax s m e l).
Proof.
  unfold binary_round_aux.
  destruct (shr_fexp _ _ m e l) as [mrs e'].
  destruct (shr_fexp _ _ _ e' loc_Exact) as [mrs2 e2].
  destruct (shr_m mrs2); simpl; auto.
  destruct (e2 <=? _)%Z; simpl; auto.
Qed.

Lemma ofDecimal_sign (m e : Z) : signIs false (Num.ofDecimal m e).
Proof.
  unfold Num.ofDecimal. destruct m as [|p|p]; [exact eq_refl| |exact I].
  destruct (0 <=? e)%Z eqn:Ee.
  - apply Z.leb_le in Ee.
    assert (Hpos : (0 < Z.pos p * 10 ^ e)%Z) by (apply Z.mul_pos_pos; [lia|apply Z.pow_pos_nonneg; lia]).
    destruct (Z.pos p * 10 ^ e)%Z as [|q|q] eqn:Eq; try lia.
    unfold binary_normalize. cbv iota beta. unfold binary_round.
    destruct (shl_align q 0 _) as [mz ez]. apply binary_round_aux_sign.
  - destruct (SFdiv_core_binary _ _ _ _ _ _) as [[q e'] l]. apply binary_round_aux_sign.
Qed.

Lemma signIs_false_compare (x : Num.number) :
  signIs false x -> Num.isNaN x = false ->
  isNegative x = false /\ isNegative (Num.neg x) = negb (Num.isZero x) /\
  Num.isZero (Num.neg x) = Num.isZero x.
Proof.
  destruct x as [s|s| |s m e]; simpl; try discriminate; intros -> _; repeat split.
Qed.

Lemma digit_not_space (c : cu) : isDigit c = true -> isSpace c = false.
Proof.
  unfold isDigit, between, isSpace. intros H.
  apply andb_true_iff in H as [H1 H2]. apply N.leb_le in H1, H2.
  repeat match goal with
         | |- context [(?a <=? ?b)%N] => destruct (N.leb_spec a b); try lia
         | |- context [(?a =? ?b)%N] => destruct (N.eqb_spec a b); try lia
         end.
Qed.

Lemma digit_not_char (a : ascii) (c : cu) :
  isDigit c = true -> (N_of_ascii a < 48 \/ 57 < N_of_ascii a)%N -> chr a c = false.
Proof.
  unfold isDigit, between, chr, ch. intros H Ha.
  apply andb_true_iff in H as [H1 H2]. apply N.leb_le in H1, H2.
  apply N.eqb_neq. lia.
Qed.

Lemma takeDigits_digit (c : cu) (t : jsstring) :
  isDigit c = true -> exists ds r, Num.takeDigits (c :: t) = (c :: ds, r).
Proof.
  intros H. simpl. rewrite H. destruct (Num.takeDigits t) as [d r]. eauto.
Qed.

Lemma takeDigits_none (s : jsstring) :
  startsWithDigit s = false -> Num.takeDigits s = ([], s).
Proof. destruct s as [|c t]; [reflexivity|]. simpl. now intros ->. Qed.

Lemma Forall_filter {A : Type} (P : A -> Prop) (f : A -> bool) (l : list A) :
  Forall P l -> Forall P (filter f l).
Proof.
  induction 1 as [|x l Hx Hl IH]; simpl; [constructor|].
  destruct (f x); [now constructor|assumption].
Qed.

Lemma iter_shr_1_nonneg (p : positive) : forall mrs,
  (0 <= shr_m mrs)%Z -> (0 <= shr_m (iter_pos shr_1 p mrs))%Z.
Proof.
  assert (H1 : forall mrs, (0 <= shr_m mrs)%Z -> (0 <= shr_m (shr_1 mrs))%Z).
  { intros [m r s]; simpl. destruct m as [|[q|q|]|q]; simpl; lia. }
  induction p as [p IH|p IH|]; intros mrs H; simpl; auto.
Qed.

Lemma shr_fexp_nonneg (m e : Z) (l : location) :
  (0 <= m)%Z -> (0 <= shr_m (fst (shr_fexp Num.prec Num.emax m e l)))%Z.
Proof.
  intros H. unfold shr_fexp, shr.
  assert (H0 : (0 <= shr_m (shr_record_of_loc m l))%Z) by (destruct l as [|[]]; exact H).
  destruct (_ - e)%Z; simpl; auto. now apply iter_shr_1_nonneg.
Qed.

Lemma binary_round_aux_notnan (s : bool) (m e : Z) (l : location) :
  (0 <= m)%Z -> Num.isNaN (binary_round_aux Num.prec Num.emax s m e l) = false.
Proof.
  intros H. unfold binary_round_aux.
  pose proof (shr_fexp_nonneg m e l H) as H1.
  destruct (shr_fexp _ _ m e l) as [mrs e']. simpl in H1.
  assert (H2 : (0 <= round_nearest_even (shr_m mrs) (loc_of_shr_record mrs))%Z).
  { unfold round_nearest_even. destruct (loc_of_shr_record mrs) as [|[]]; try lia.
    destruct (Z.even _); lia. }
  pose proof (shr_fexp_nonneg _ e' loc_Exact H2) as H3.
  destruct (shr_fexp _ _ _ e' loc_Exact) as [mrs2 e2]. simpl in H3.
  destruct (shr_m mrs2); simpl; try lia; auto.
  now destruct (e2 <=? _)%Z.
Qed.

Lemma ofDecimal_notnan (m e : Z) : (0 <= m)%Z -> Num.isNaN (Num.ofDecimal m e) = false.
Proof.
  intros Hm. unfold Num.ofDecimal. destruct m as [|p|p]; [reflexivity| |lia].
  destruct (0 <=? e)%Z eqn:Ee.
  - apply Z.leb_le in Ee.
    assert (Hpos : (0 < Z.pos p * 10 ^ e)%Z) by (apply Z.mul_pos_pos; [lia|apply Z.pow_pos_nonneg; lia]).
    destruct (Z.pos p * 10 ^ e)%Z as [|q|q] eqn:Eq; try lia.
    unfold binary_normalize. cbv iota beta. unfold binary_round.
    destruct (shl_align q 0 _) as [mz ez]. apply binary_round_aux_notnan. lia.
  - unfold SFdiv_core_binary.
    set (m' := match _ with Z0 => _ | Z.pos _ => _ | Z.neg _ => _ end).
    assert (Hm' : (0 <= m')%Z).
    { unfold m'. destruct (_ - _ - _)%Z; try lia. apply Z.shiftl_nonneg. lia. }
    assert (Hd : (0 < 10 ^ (- e))%Z) by (apply Z.pow_pos_nonneg; lia).
    pose proof (Z.div_pos m' (10 ^ (- e)) Hm' Hd) as Hq.
    unfold Z.div in Hq. destruct (Z.div_eucl m' (10 ^ (- e))) as [q r]. simpl in Hq.
    now apply binary_round_aux_notnan.
Qed.

Lemma takeDigits_all (s : jsstring) : forall ip r,
  Num.takeDigits s = (ip, r) -> forallb isDigit ip = true.
Proof.
  induction s as [|c t IH]; simpl; intros ip r E.
  - now injection E as <- _.
  - destruct (isDigit c) eqn:Ec.
    + destruct (Num.takeDigits t) as [d r']. injection E as <- _.
      simpl. now rewrite Ec, (IH d r').
    + now injection E as <- _.
Qed.

Lemma fold_digits_nonneg (ds : jsstring) : forall a,
  (0 <= a)%Z -> forallb isDigit ds = true ->
  (0 <= fold_left (fun a c => 10 * a + (Z.of_N c - 48)) ds a)%Z.
Proof.
  induction ds as [|c t IH]; intros a Ha Hd; cbn [fold_left]; [assumption|].
  cbn [forallb] in Hd. apply andb_true_iff in Hd as [Hc Ht]. apply IH; [|assumption].

  unfold isDigit, between in Hc. apply andb_true_iff in Hc as [H1 H2].
  apply N.leb_le in H1, H2. lia.
Qed.

Lemma digitsVal_nonneg (ds : jsstring) :
  forallb isDigit ds = true -> (0 <= Num.digitsVal ds)%Z.
Proof. intros H. apply fold_digits_nonneg; [lia|assumption]. Qed.

Lemma signed_value (sg : bool) (v : Num.number) :
  Num.isNaN v = false -> signIs false v ->
  Num.isNaN (if sg then Num.neg v else v) = false /\
  signIs sg (if sg then Num.neg v else v).
Proof. destruct sg, v; simpl; intros Hn Hs; try discriminate; subst; auto. Qed.

(** The value that [parseFloat] builds from the digits read. *)
Lemma decimal_value (sg : bool) (ds : jsstring) (e : Z) :
  forallb isDigit ds = true ->
  let v := Num.ofDecimal (Num.digitsVal ds) e in
  Num.isNaN (if sg then Num.neg v else v) = false /\
  signIs sg (if sg then Num.neg v else v).
Proof.
  intros H v. apply signed_value.
  - apply ofDecimal_notnan, digitsVal_nonneg, H.
  - apply ofDecimal_sign.
Qed.

(** [parseFloat] after the sign: a number is read exactly when the text
    starts with "Infinity", a digit, or a point before a digit; its
    sign is the sign read. *)
Lemma parseFloat_unsigned (u : jsstring) (sg : bool) (s1 : jsstring) :
  Num.takeSign (Str.trimStart u) = (sg, s1) ->
  (unsignedStart s1 = false -> Num.parseFloat u = Num.NaN) /\
  (unsignedStart s1 = true ->
   Num.isNaN (Num.parseFloat u) = false /\ signIs sg (Num.parseFloat u)).
Proof.
  intros E. unfold Num.parseFloat. rewrite E. unfold unsignedStart.
  destruct (Str.startsWith (lit "Infinity") s1) eqn:EI.
  { split; [discriminate|]. intros _. split; reflexivity. }
  cbn [orb]. destruct (startsWithDigit s1) eqn:Ed.
  - split; [discriminate|]. intros _.
    destruct s1 as [|c t]; [discriminate|]. simpl in Ed.
    destruct (takeDigits_digit c t Ed) as (ds & r & Et). rewrite Et.
    pose proof (takeDigits_all _ _ _ Et) as Hip.
    destruct (match r with
              | [] => ([], r)
              | c0 :: t0 => if chr "." c0 then Num.takeDigits t0 else ([], r)
              end) as [fp s3] eqn:Ef.
    assert (Hfp : forallb isDigit fp = true).
    { destruct r as [|c0 t0]; [now injection Ef as <- _|].
      destruct (chr "." c0); [exact (takeDigits_all _ _ _ Ef)|now injection Ef as <- _]. }
    cbn [app]. apply decimal_value. change (c :: ds ++ fp) with ((c :: ds) ++ fp).
    rewrite forallb_app, Hip. exact Hfp.
  - rewrite (takeDigits_none _ Ed). cbn [orb].
    destruct s1 as [|c t]; [split; [reflexivity|discriminate]|].
    destruct (chr "." c); cbn [andb]; [|split; [reflexivity|discriminate]].
    destruct (startsWithDigit t) eqn:Et.
    + split; [discriminate|]. intros _.
      destruct t as [|d t']; [discriminate|]. simpl in Et.
      destruct (takeDigits_digit d t' Et) as (ds & r & Ef). rewrite Ef.
      cbn [app]. apply decimal_value. exact (takeDigits_all _ _ _ Ef).
    + rewrite (takeDigits_none _ Et). split; [reflexivity|discriminate].
Qed.

Lemma takeSign_spec (u : jsstring) :
  Num.takeSign u = (Str.startsWith (lit "-") u,
                    match u with
                    | c :: t => if chr "-" c || chr "+" c then t else u
                    | [] => []
                    end).
Proof.
  destruct u as [|c t]; [reflexivity|]. unfold Num.takeSign.
  change (Str.startsWith (lit "-") (c :: t)) with ((45 =? c)%N && true).
  rewrite andb_true_r, N.eqb_sym. change (c =? 45)%N with (chr "-" c).
  destruct (chr "-" c) eqn:Em; [reflexivity|]. cbn [orb].
  now destruct (chr "+" c).
Qed.

Lemma numericStart_takeSign (u : jsstring) :
  numericStart u = unsignedStart (snd (Num.takeSign u)).
Proof.
  rewrite takeSign_spec. cbn [snd]. destruct u as [|c t]; [reflexivity|].
  unfold numericStart. now destruct (chr "-" c || chr "+" c).
Qed.

Lemma amountBody_head (raw : jsstring) : headIn isSpace (amountBody raw) = false.
Proof.
  unfold amountBody. rewrite replaceFirst_leadingMinus.
  unfold Normalize.parens. rewrite replaceAll_char_delete, stripped_filter.
  assert (H : Forall (fun c => isSpace c = false)
                (filter (fun x => negb ((chr "(" :|: chr ")") x)) (filter notSymbol raw))).
  { apply Forall_filter. apply Forall_forall. intros c Hc.
    apply filter_In in Hc as [_ Hc]. destruct (isSpace c) eqn:E; [|reflexivity].
    now rewrite (notSymbol_space c E) in Hc. }
  destruct (filter _ (filter notSymbol raw)) as [|c t]; [reflexivity|].
  inversion H as [|? ? Hc Ht]; subst.
  destruct (chr "-" c); [|exact Hc].
  destruct t as [|d t']; [reflexivity|]. now inversion Ht.
Qed.

Lemma trimStart_head (s : jsstring) : headIn isSpace s = false -> Str.trimStart s = s.
Proof. destruct s as [|c t]; [reflexivity|]. simpl. unfold Str.trimStart. simpl. now intros ->. Qed.

(** What [parseFloat] makes of the text that [normalizeAmount] hands
    to it. *)
Lemma parseFloat_amountBody (raw : jsstring) :
  let a := Num.parseFloat (amountBody raw) in
  (numericStart (amountBody raw) = false -> a = Num.NaN) /\
  (numericStart (amountBody raw) = true ->
   Num.isNaN a = false /\ signIs (Str.startsWith (lit "-") (amountBody raw)) a).
Proof.
  intros a. subst a. set (u := amountBody raw).
  assert (Et : Str.trimStart u = u) by apply trimStart_head, amountBody_head.
  assert (Hf : fst (Num.takeSign u) = Str.startsWith (lit "-") u)
    by (rewrite takeSign_spec; reflexivity).
  rewrite numericStart_takeSign, <- Hf.
  apply parseFloat_unsigned. rewrite Et. now destruct (Num.takeSign u).
Qed.

(** C6 (as the code has it): [normalizeAmount] returns the same number
    for a text and for the text without its currency symbols, white
    space and commas; when a text carries no sign of its own (its
    symbol-free form neither starts with "-" nor is fully
    parenthesized), putting it in parentheses negates the value, null
    staying null; a text that carries such a sign keeps its value in
    parentheses.  The result is null exactly when the text left after
    symbols, parentheses and one leading "-" are removed does not begin
    with a number (after an optional sign: a digit, a point before a
    digit, or "Infinity").  Otherwise the result is a number, and it
    is below zero exactly when it is not zero and a leading "-" or full
    parenthesization is present; the reading is the reverse when the
    text left itself begins with "-". *)
Theorem normalizeAmount_properties :
  forall s,
    Normalize.normalizeAmount s = Normalize.normalizeAmount (withoutSymbols s) /\
    (negativeMarked s = false ->
     Normalize.normalizeAmount (lit "(" ++ s ++ lit ")")
     = option_map Num.neg (Normalize.normalizeAmount s)) /\
    (negativeMarked s = true ->
     Normalize.normalizeAmount (lit "(" ++ s ++ lit ")") = Normalize.normalizeAmount s) /\
    (numericStart (amountBody s) = false -> Normalize.normalizeAmount s = None) /\
    (numericStart (amountBody s) = true ->
     exists r,
       Normalize.normalizeAmount s = Some r /\
       Num.isNaN r = false /\
       isNegative r
       = xorb (negativeMarked s) (Str.startsWith (lit "-") (amountBody s))
         && negb (Num.isZero r)).
Proof.
  intros s. split; [apply normalizeAmount_withoutSymbols|].
  split; [apply normalizeAmount_parenthesized|].
  split; [apply normalizeAmount_parenthesized_marked|].
  destruct (parseFloat_amountBody s) as [Hnan Hnum]. cbv zeta in Hnan, Hnum.
  destruct s as [|c t] eqn:Es.
  - split; [reflexivity|]. intros H. vm_compute in H. discriminate.
  - rewrite <- Es in *. assert (Hs : s <> []) by (subst; discriminate).
    rewrite normalizeAmount_unfold by exact Hs. split.
    + intros H. now rewrite (Hnan H).
    + intros H. destruct (Hnum H) as [Hn Hsg]. rewrite Hn.
      eexists. split; [reflexivity|].
      destruct (Num.parseFloat (amountBody s)) as [s0|s0| |s0 m e]; try discriminate;
        cbn [signIs] in Hsg; rewrite <- Hsg; destruct (negativeMarked s), s0; split;
        reflexivity.
Qed.

Lemma normalizeAmount_properties_witness :
  Normalize.normalizeAmount (lit "(1,250.50)")
  = option_map Num.neg (Normalize.normalizeAmount (lit "1,250.50")) /\
  (exists r, Normalize.normalizeAmount (lit "-1,250.50") = Some r /\
             Num.isNaN r = false /\ isNegative r = true) /\
  Normalize.normalizeAmount (lit "Rs.500") = None.
Proof.
  split; [|split].
  - apply (proj1 (proj2 (normalizeAmount_properties (lit "1,250.50")))).
    vm_compute. reflexivity.
  - destruct (proj2 (proj2 (proj2 (proj2 (normalizeAmount_properties (lit "-1,250.50")))))
                eq_refl) as (r & Hr & Hn & Hs).
    exists r. split; [exact Hr|]. split; [exact Hn|]. rewrite Hs.
    vm_compute in Hr. injection Hr as <-. reflexivity.
  - apply (proj1 (proj2 (proj2 (proj2 (normalizeAmount_properties (lit "Rs.500")))))).
    vm_compute. reflexivity.
Defined.

(** C6 (as stated) fails: "(-5)" is fully parenthesized and yields -5,
    the value of "-5" itself and not its negation; "--5" has a leading
    "-" and yields 5; "-0.00" has a leading "-" and yields a zero,
    which is not below zero; "(--5" has no leading "-", is not fully
    parenthesized and yields -5; "12abc" is not a number and yields
    12. *)
Lemma normalizeAmount_sign_not_as_specified :
  Normalize.normalizeAmount (lit "(" ++ lit "-5" ++ lit ")") = Some (Num.ofZ (-5)) /\
  Normalize.normalizeAmount (lit "-5") = Some (Num.ofZ (-5)) /\
  Normalize.normalizeAmount (lit "(" ++ lit "-5" ++ lit ")")
  <> option_map Num.neg (Normalize.normalizeAmount (lit "-5")) /\
  Normalize.normalizeAmount (lit "--5") = Some (Num.ofZ 5) /\
  Normalize.normalizeAmount (lit "-0.00") = Some (S754_zero true) /\
  isNegative (S754_zero true) = false /\
  negativeMarked (lit "(--5") = false /\
  Normalize.normalizeAmount (lit "(--5") = Some (Num.ofZ (-5)) /\
  Normalize.normalizeAmount (lit "12abc") = Some (Num.ofZ 12).
Proof.
  repeat split; try (vm_compute; reflexivity).
  intros H. vm_compute in H. discriminate.
Qed.

(** ** The matcher on a repeated class *)

Lemma clearCaps_nil (caps : list (nat * jsstring)) : clearCaps [] caps = caps.
Proof.
  unfold clearCaps. induction caps as [|x l IH]; simpl in *; [reflexivity|congruence].
Qed.

Lemma length_cons_neq {A : Type} (x : A) (t : list A) :
  Nat.eqb (length t) (length (x :: t)) = false.
Proof. apply Nat.eqb_neq. simpl. lia. Qed.

(** A repeated class against a continuation that accepts: the greedy
    run, when it reaches the lower bound. *)
Lemma repLoop_char (p : cset) (rest : jsstring) : forall fuel lo hi prev caps,
  lo + length rest < fuel ->
  (forall h, hi = Some h -> lo <= h) ->
  repLoop (run (Char p)) [] fuel lo hi (MState prev rest caps) Some =
  if lo <=? spanLen p hi rest
  then Some (MState (fst (advance (spanLen p hi rest) prev rest))
                    (snd (advance (spanLen p hi rest) prev rest)) caps)
  else None.
Proof.
  induction rest as [|x t IH]; intros fuel lo hi prev caps Hfuel Hhi.
  - destruct fuel as [|fuel']; [lia|].
    destruct hi as [[|h]|]; cbn [repLoop spanLen m_rest m_prev m_caps run].
    + rewrite (proj2 (Nat.leb_le lo 0)) by (apply Hhi; reflexivity). reflexivity.
    + destruct lo; reflexivity.
    + destruct lo; reflexivity.
  - destruct fuel as [|fuel']; [lia|].
    assert (Hstep : forall hi', (forall h, hi' = Some h -> pred lo <= h) ->
      repLoop (run (Char p)) [] fuel' (pred lo) hi' (MState (Some x) t caps) Some =
      if pred lo <=? spanLen p hi' t
      then Some (MState (fst (advance (spanLen p hi' t) (Some x) t))
                        (snd (advance (spanLen p hi' t) (Some x) t)) caps)
      else None).
    { intros hi' Hh. apply IH; [simpl in Hfuel; lia|exact Hh]. }
    destruct hi as [[|h]|].
    + cbn [repLoop spanLen]. rewrite (proj2 (Nat.leb_le lo 0)) by (apply Hhi; reflexivity).
      reflexivity.
    + cbn [repLoop spanLen run m_rest m_prev m_caps option_map]. rewrite clearCaps_nil.
      destruct (p x).
      * rewrite length_cons_neq, andb_false_r.
        rewrite Hstep by (intros h' E; injection E as <-; specialize (Hhi _ eq_refl); simpl; lia).
        destruct lo as [|lo']; cbn [Nat.eqb pred Nat.leb advance]; reflexivity.
      * destruct lo; reflexivity.
    + cbn [repLoop spanLen run m_rest m_prev m_caps option_map]. rewrite clearCaps_nil.
      destruct (p x).
      * rewrite length_cons_neq, andb_false_r.
        rewrite Hstep by discriminate.
        destruct lo as [|lo']; cbn [Nat.eqb pred Nat.leb advance]; reflexivity.
      * destruct lo; reflexivity.
Qed.

Lemma spanLen_le (p : cset) (rest : jsstring) : forall hi,
  spanLen p hi rest <= length rest /\ (forall h, hi = Some h -> spanLen p hi rest <= h).
Proof.
  induction rest as [|x t IH]; intros hi.
  - destruct hi as [[|h]|]; simpl; split; try lia; intros; lia.
  - destruct hi as [[|h]|]; simpl.
    + split; [lia|intros; lia].
    + destruct (p x); [|split; [lia|intros; lia]].
      destruct (IH (Some h)) as [H1 H2]. specialize (H2 _ eq_refl).
      split; [lia|]. intros h' E; injection E as <-. lia.
    + destruct (p x); [|split; [lia|discriminate]].
      destruct (IH None) as [H1 _]. split; [lia|discriminate].
Qed.

Lemma spanLen_all (p : cset) (rest : jsstring) : forall hi,
  forallb p (firstn (spanLen p hi rest) rest) = true.
Proof.
  induction rest as [|x t IH]; intros hi.
  - destruct hi as [[|h]|]; reflexivity.
  - destruct hi as [[|h]|]; simpl; try reflexivity.
    + destruct (p x) eqn:E; [|reflexivity]. simpl. now rewrite E, IH.
    + destruct (p x) eqn:E; [|reflexivity]. simpl. now rewrite E, IH.
Qed.

Lemma advance_snd (n : nat) (rest : jsstring) : forall prev,
  snd (advance n prev rest) = skipn n rest.
Proof.
  revert rest. induction n as [|n IH]; intros rest prev; [reflexivity|].
  destruct rest as [|x t]; [reflexivity|]. simpl. apply IH.
Qed.

Lemma length_sub_skipn {A : Type} (n : nat) (l : list A) :
  n <= length l -> length l - length (skipn n l) = n.
Proof. intros H. rewrite length_skipn. lia. Qed.

Lemma run_rep (lo : nat) (hi : option nat) (r : regex) (st : mstate) (k : cont) :
  run (Rep lo hi r) st k
  = repLoop (run r) (groupsOf r) (lo + length (m_rest st) + 1) lo hi st k.
Proof. reflexivity. Qed.

Lemma run_bol_start (r : regex) (s : jsstring) caps (k : cont) :
  run (Seq Bol r) (MState None s caps) k = run r (MState None s caps) k.
Proof. reflexivity. Qed.

(** [matchHere] for [^c{lo,hi}] at the start of the input. *)
Lemma matchHere_bol_rep (p : cset) (lo h : nat) (s : jsstring) :
  lo <= h ->
  matchHere (Seq Bol (Rep lo (Some h) (Char p))) None s =
  if lo <=? spanLen p (Some h) s then Some (spanLen p (Some h) s, []) else None.
Proof.
  intros Hlo. unfold matchHere. rewrite run_bol_start, run_rep.
  cbn [m_rest groupsOf].
  rewrite repLoop_char by (lia || (intros h' E; injection E as <-; exact Hlo)).
  destruct (lo <=? spanLen p (Some h) s); [|reflexivity].
  cbn [m_rest m_caps]. rewrite advance_snd.
  rewrite length_sub_skipn by apply (proj1 (spanLen_le _ _ _)).
  reflexivity.
Qed.

Lemma exec_nDigits (n : nat) (s : jsstring) :
  1 <= n ->
  exec (nDigits n) s =
  if 1 <=? spanLen isDigit (Some n) s
  then Some (MResult 0 (firstn (spanLen isDigit (Some n) s) s) [])
  else None.
Proof.
  intros Hn. unfold exec, nDigits, times, digit.
  destruct s as [|c t]; cbn [searchFrom]; rewrite matchHere_bol_rep by exact Hn.
  - destruct (1 <=? _); reflexivity.
  - destruct (1 <=? _); [reflexivity|]. apply searchFrom_bol_later.
Qed.

(** ** Dates *)

Lemma digit_value (c : cu) : isDigit c = true -> (0 <= Z.of_N c - 48 <= 9)%Z.
Proof.
  unfold isDigit, between. intros H. apply andb_true_iff in H as [H1 H2].
  apply N.leb_le in H1, H2. lia.
Qed.

Lemma digitsVal_from (ds : jsstring) : forall a,
  (0 <= a)%Z -> forallb isDigit ds = true ->
  (a * 10 ^ Z.of_nat (length ds)
   <= fold_left (fun a c => 10 * a + (Z.of_N c - 48)) ds a
   < (a + 1) * 10 ^ Z.of_nat (length ds))%Z.
Proof.
  induction ds as [|c t IH]; intros a Ha H.
  - simpl. lia.
  - simpl in H. apply andb_true_iff in H as [Hc Ht].
    pose proof (digit_value c Hc) as Hv.
    cbn [fold_left length]. rewrite Nat2Z.inj_succ, Z.pow_succ_r by lia.
    specialize (IH (10 * a + (Z.of_N c - 48))%Z ltac:(lia) Ht).
    assert (0 < 10 ^ Z.of_nat (length t))%Z by (apply Z.pow_pos_nonneg; lia).
    nia.
Qed.

Lemma digitsVal_bound (ds : jsstring) :
  forallb isDigit ds = true ->
  (0 <= Num.digitsVal ds < 10 ^ Z.of_nat (length ds))%Z.
Proof.
  intros H. unfold Num.digitsVal.
  pose proof (digitsVal_from ds 0%Z ltac:(lia) H). lia.
Qed.

Lemma parseNumericPattern_nDigits (n : nat) (s rest : jsstring) (v : Z) :
  1 <= n ->
  parseNumericPattern (nDigits n) s = Some (v, rest) ->
  (0 <= v < 10 ^ Z.of_nat n)%Z.
Proof.
  intros Hn. unfold parseNumericPattern. rewrite exec_nDigits by exact Hn.
  destruct (1 <=? _); [|discriminate]. cbn [m_text].
  intros H; injection H as <- _.
  pose proof (digitsVal_bound _ (spanLen_all isDigit s (Some n))) as Hb.
  unfold parseInt.
  assert (Hl : length (firstn (spanLen isDigit (Some n) s) s) <= n).
  { rewrite length_firstn. pose proof (proj2 (spanLen_le isDigit s (Some n)) n eq_refl). lia. }
  assert ((10 ^ Z.of_nat (length (firstn (spanLen isDigit (Some n) s) s))
           <= 10 ^ Z.of_nat n)%Z) by (apply Z.pow_le_mono_r; lia).
  lia.
Qed.

Lemma keepFirst_yearOK (f : fields) (v : Z) (m d : option Z) :
  yearOK f -> (0 <= v <= 9999)%Z -> yearOK (Fields (keepFirst (fYear f) v) m d).
Proof.
  intros Hf Hv y. simpl. destruct (fYear f) as [y0|] eqn:E; simpl.
  - intros H; injection H as <-. now apply Hf.
  - intros H; injection H as <-. exact Hv.
Qed.

Lemma parseToken_yearOK (tok : jsstring) (f f' : fields) (s rest : jsstring) :
  parseToken tok f s = Next f' rest ->
  negb (headIs "y" tok) || (length tok <=? 4) = true ->
  yearOK f -> yearOK f'.
Proof.
  unfold parseToken. destruct tok as [|c tok'].
  { intros H; injection H as <- _. auto. }
  cbn [headIs]. destruct (chr "y" c) eqn:Ey.
  - cbn [negb orb length]. intros H Hlen Hf. apply Nat.leb_le in Hlen.
    destruct (length tok') as [|[|k]]; cbn [Nat.eqb] in H.
    + destruct (parseNumericPattern (nDigits 4) s) as [[v r]|] eqn:E; [|discriminate].
      injection H as <- _. apply keepFirst_yearOK; [assumption|].
      apply parseNumericPattern_nDigits in E; [|lia]. simpl in E. lia.
    + discriminate.
    + destruct (parseNumericPattern (nDigits (S (S (S k)))) s) as [[v r]|] eqn:E;
        [|discriminate].
      injection H as <- _. apply keepFirst_yearOK; [assumption|].
      apply parseNumericPattern_nDigits in E; [|lia].
      assert ((10 ^ Z.of_nat (S (S (S k))) <= 10 ^ 4)%Z) by (apply Z.pow_le_mono_r; lia).
      lia.
  - intros H _ Hf. revert H.
    repeat break_match; try discriminate; intros H; injection H as <- _; exact Hf.
Qed.

Lemma parseTokens_yearOK (toks : list jsstring) : forall f f' s rest,
  parseTokens toks f s = Next f' rest ->
  shortYears toks = true -> yearOK f -> yearOK f'.
Proof.
  induction toks as [|tok toks IH]; intros f f' s rest; simpl.
  - intros H; injection H as <- _. auto.
  - destruct (parseToken tok f s) as [| |f1 s1] eqn:E; try discriminate.
    intros H Hs Hf. apply andb_true_iff in Hs as [H1 H2].
    apply (IH _ _ _ _ H H2). apply (parseToken_yearOK _ _ _ _ _ E H1 Hf).
Qed.

Lemma daysIn_le (y m : Z) : (daysIn y m <= 31)%Z.
Proof.
  unfold daysIn, DAYS_IN_MONTH, DAYS_IN_MONTH_LEAP_YEAR.
  destruct (isLeapYearIndex y); generalize (Z.to_nat m) as k; intros k;
    do 13 (destruct k as [|k]; [simpl; lia|]); simpl; lia.
Qed.

(** A date read by a template that names year, month and day with a
    year token of at most four letters. *)
Lemma parse_valid_fields (s fmt : jsstring) (ref d : date) :
  namesAllFields fmt = true ->
  shortYears (tokenize fmt) = true ->
  parse s fmt ref = Valid d ->
  (1 <= dYear d <= 9999 /\ 0 <= dMonth d <= 11 /\ 1 <= dDay d <= 31)%Z.
Proof.
  unfold namesAllFields. intros H Hshort.
  apply andb_true_iff in H as [H Hd]. apply andb_true_iff in H as [Hy Hm].
  unfold parse.
  destruct (parseTokens (tokenize fmt) (Fields None None None) s) as [| |f rest] eqn:E;
    try discriminate.
  pose proof (parseTokens_yearOK _ _ _ _ _ E Hshort) as Hok.
  apply parseTokens_fields in E as (Ey & Em & Ed).
  rewrite Hy in Ey. rewrite Hm in Em. rewrite Hd in Ed.
  specialize (Ey eq_refl). specialize (Em eq_refl). specialize (Ed eq_refl).
  destruct (fYear f) as [y|] eqn:Fy; [|discriminate].
  destruct (fMonth f) as [m|]; [|discriminate].
  destruct (fDay f) as [n|]; [|discriminate].
  assert (Hy' : (0 <= y <= 9999)%Z).
  { apply (Hok ltac:(intros ? E0; discriminate E0) y Fy). }
  destruct (existsb _ rest); [discriminate|].
  unfold setYear. destruct (Z.ltb_spec 0 y); [|discriminate].
  unfold setMonth. destruct ((0 <=? m) && (m <=? 11))%Z eqn:Emm; [|discriminate].
  unfold setDay. cbn [dYear dMonth].
  destruct ((1 <=? n) && (n <=? daysIn y m))%Z eqn:Edd; [|discriminate].
  intros Hv; injection Hv as <-. cbn [dYear dMonth dDay].
  apply andb_true_iff in Emm as [M1 M2]. apply andb_true_iff in Edd as [D1 D2].
  apply Z.leb_le in M1, M2, D1, D2. pose proof (daysIn_le y m). lia.
Qed.

Lemma padOK_range (len : nat) (bound : nat) (n : Z) :
  forallb (fun k => padOK len (Z.of_nat k)) (seq 0 bound) = true ->
  (0 <= n < Z.of_nat bound)%Z -> padOK len n = true.
Proof.
  intros H Hn. rewrite forallb_forall in H.
  rewrite <- (Z2Nat.id n) by lia. apply H. apply in_seq. lia.
Qed.

Lemma pad4_ok (n : Z) : (0 <= n <= 9999)%Z -> padOK 4 n = true.
Proof.
  intros H. apply (padOK_range 4 (Z.to_nat 10000)); [vm_compute; reflexivity|].
  rewrite Z2Nat.id; lia.
Qed.

Lemma pad2_ok (n : Z) : (0 <= n <= 99)%Z -> padOK 2 n = true.
Proof.
  intros H. apply (padOK_range 2 100); [vm_compute; reflexivity|lia].
Qed.

Lemma formatISO_shape (d : date) :
  (1 <= dYear d <= 9999 /\ 0 <= dMonth d <= 11 /\ 1 <= dDay d <= 31)%Z ->
  isoShape (formatISO d) = true.
Proof.
  intros (Hy & Hm & Hd). unfold formatISO.
  destruct (Z.ltb_spec 0 (dYear d)); [|lia].
  pose proof (pad4_ok (dYear d) ltac:(lia)) as P4.
  pose proof (pad2_ok (dMonth d + 1) ltac:(lia)) as PM.
  pose proof (pad2_ok (dDay d) ltac:(lia)) as PD.
  unfold padOK in *.
  destruct (addLeadingZeros (dYear d) 4) as [|y1 [|y2 [|y3 [|y4 [|? ?]]]]]; try discriminate.
  destruct (addLeadingZeros (dMonth d + 1) 2) as [|m1 [|m2 [|? ?]]]; try discriminate.
  destruct (addLeadingZeros (dDay d) 2) as [|d1 [|d2 [|? ?]]]; try discriminate.
  cbn [length Nat.eqb andb forallb] in *.
  repeat match goal with H : _ && _ = true |- _ => apply andb_true_iff in H as [? ?] end.
  change (lit "-") with [45%N]. cbn [app isoShape forallb].
  repeat match goal with H : isDigit _ = true |- _ => rewrite H; clear H end.
  reflexivity.
Qed.

Lemma tryFormats_skip (now : date) (c : jsstring) (pre l : list jsstring) :
  forallb (fun f => negb (accepts now c f)) pre = true ->
  Normalize.tryFormats now c (pre ++ l) = Normalize.tryFormats now c l.
Proof.
  induction pre as [|f pre IH]; simpl; [reflexivity|].
  intros H. apply andb_true_iff in H as [H1 H2]. unfold accepts in H1.
  destruct (parse c f now); try discriminate; now apply IH.
Qed.

Lemma tryFormats_none (now : date) (c : jsstring) (fmts : list jsstring) :
  forallb (fun f => negb (accepts now c f)) fmts = true ->
  Normalize.tryFormats now c fmts = None.
Proof.
  intros H. rewrite <- (app_nil_r fmts). now rewrite tryFormats_skip.
Qed.

Lemma tryFormats_some (now : date) (c : jsstring) (fmts : list jsstring) (iso : jsstring) :
  Normalize.tryFormats now c fmts = Some iso ->
  exists fmt d, In fmt fmts /\ parse c fmt now = Valid d /\ iso = formatISO d.
Proof.
  induction fmts as [|f fmts IH]; simpl; [discriminate|].
  destruct (parse c f now) as [|d|] eqn:E.
  - intros H. destruct (IH H) as (fmt & d & Hin & Hp & Hi). exists fmt, d. auto.
  - intros H; injection H as <-. exists f, d. auto.
  - intros H. destruct (IH H) as (fmt & d & Hin & Hp & Hi). exists fmt, d. auto.
Qed.

Lemma DATE_FORMATS_short_years :
  forallb (fun f => shortYears (tokenize f)) Normalize.DATE_FORMATS = true.
Proof. vm_compute. reflexivity. Qed.

Lemma template_date_shape (now : date) (c fmt : jsstring) (d : date) :
  In fmt Normalize.DATE_FORMATS -> parse c fmt now = Valid d ->
  isoShape (formatISO d) = true.
Proof.
  intros Hin Hp. apply formatISO_shape.
  apply (parse_valid_fields c fmt now d); [| |exact Hp].
  - exact (proj1 (forallb_forall _ _) DATE_FORMATS_name_all_fields fmt Hin).
  - exact (proj1 (forallb_forall _ _) DATE_FORMATS_short_years fmt Hin).
Qed.

Lemma empty_not_accepted (now : date) :
  forallb (fun f => negb (accepts now [] f)) Normalize.DATE_FORMATS = true.
Proof. vm_compute. reflexivity. Qed.

Lemma normalizeDate_unfold nativeDate (now : date) (raw : jsstring) :
  raw <> [] ->
  Normalize.normalizeDate nativeDate now raw =
  match Normalize.tryFormats now (cleanedDate raw) Normalize.DATE_FORMATS with
  | Some iso => Some iso
  | None =>
    match nativeDate (cleanedDate raw) with
    | Some d => if (1990 <? dYear d)%Z then Some (formatISO d) else None
    | None => None
    end
  end.
Proof. destruct raw; [congruence|reflexivity]. Qed.

Lemma tryFormats_none_inv (now : date) (c : jsstring) (fmts : list jsstring) :
  Normalize.tryFormats now c fmts = None ->
  forallb (fun f => negb (accepts now c f)) fmts = true.
Proof.
  induction fmts as [|f fmts IH]; simpl; [reflexivity|]. unfold accepts at 1.
  destruct (parse c f now); [exact IH|discriminate|exact IH].
Qed.

(** A decimal numeral of [n] digits is below [10^n]. *)
Lemma of_uint_acc_bound (d : Decimal.uint) : forall acc,
  (N.pos (Pos.of_uint_acc d acc) < (N.pos acc + 1) * 10 ^ N.of_nat (Decimal.nb_digits d))%N.
Proof.
  induction d as [|d IH|d IH|d IH|d IH|d IH|d IH|d IH|d IH|d IH|d IH]; intros acc;
    cbn [Pos.of_uint_acc Decimal.nb_digits];
    [rewrite N.pow_0_r; lia
    |rewrite Nat2N.inj_succ, N.pow_succ_r';
     match goal with |- context [Pos.of_uint_acc d ?a] => specialize (IH a) end; nia ..].
Qed.

Lemma of_uint_bound (d : Decimal.uint) :
  (Pos.of_uint d < 10 ^ N.of_nat (Decimal.nb_digits d))%N.
Proof.
  induction d as [|d IH|d IH|d IH|d IH|d IH|d IH|d IH|d IH|d IH|d IH];
    cbn [Pos.of_uint Decimal.nb_digits];
    [rewrite N.pow_0_r; lia
    |rewrite Nat2N.inj_succ, N.pow_succ_r'; lia
    |rewrite Nat2N.inj_succ, N.pow_succ_r'; pose proof (of_uint_acc_bound d 1);
     pose proof (of_uint_acc_bound d 2); pose proof (of_uint_acc_bound d 3);
     pose proof (of_uint_acc_bound d 4); pose proof (of_uint_acc_bound d 5);
     pose proof (of_uint_acc_bound d 6); pose proof (of_uint_acc_bound d 7);
     pose proof (of_uint_acc_bound d 8); pose proof (of_uint_acc_bound d 9); lia ..].
Qed.

Lemma string_of_uint_length (d : Decimal.uint) :
  Decimal.nb_digits d <= length (lit (NilZero.string_of_uint d)).
Proof.
  assert (H : forall u, length (lit (NilEmpty.string_of_uint u)) = Decimal.nb_digits u).
  { induction u; simpl; unfold lit in *; simpl; congruence. }
  destruct d; try (rewrite <- H; apply Nat.le_refl). simpl. lia.
Qed.

Lemma decimal_long (n : Z) : (9999 < n)%Z -> 5 <= length (decimal n).
Proof.
  intros H. unfold decimal.
  apply Nat.le_trans with (2 := string_of_uint_length (N.to_uint (Z.to_N n))).
  pose proof (of_uint_bound (N.to_uint (Z.to_N n))) as B.
  change (Pos.of_uint (N.to_uint (Z.to_N n))) with (N.of_uint (N.to_uint (Z.to_N n))) in B.
  rewrite DecimalN.Unsigned.of_to in B.
  destruct (Nat.le_gt_cases 5 (Decimal.nb_digits (N.to_uint (Z.to_N n)))) as [L|L];
    [exact L|exfalso].
  assert (P : (10 ^ N.of_nat (Decimal.nb_digits (N.to_uint (Z.to_N n))) <= 10 ^ 4)%N)
    by (apply N.pow_le_mono_r; lia).
  change (10 ^ 4)%N with 10000%N in P. lia.
Qed.

Lemma addLeadingZeros_length (n : Z) (len : nat) :
  len <= length (addLeadingZeros n len) /\ length (decimal n) <= length (addLeadingZeros n len).
Proof. unfold addLeadingZeros. rewrite length_app, repeat_length. lia. Qed.

Lemma isoShape_length (s : jsstring) : isoShape s = true -> length s = 10.
Proof.
  destruct s as [|y1 [|y2 [|y3 [|y4 [|h1 [|m1 [|m2 [|h2 [|d1 [|d2 [|x t]]]]]]]]]]];
    try discriminate. reflexivity.
Qed.

(** A year above 9999 is written with all its digits. *)
Lemma formatISO_long_year (d : date) : (9999 < dYear d)%Z -> isoShape (formatISO d) = false.
Proof.
  intros H. destruct (isoShape (formatISO d)) eqn:E; [exfalso|reflexivity].
  apply isoShape_length in E. unfold formatISO in E.
  destruct (Z.ltb_spec 0 (dYear d)); [|lia].
  rewrite !length_app in E. change (length (lit "-")) with 1 in E.
  pose proof (decimal_long _ H).
  pose proof (addLeadingZeros_length (dYear d) 4).
  pose proof (addLeadingZeros_length (dMonth d + 1) 2).
  pose proof (addLeadingZeros_length (dDay d) 2). lia.
Qed.




(** The order of the templates decides between two readings:
    "01/02/2024" also fits MM/dd/yyyy, under which it is 2 January
    2024, and is returned as "2024-02-01", its reading under
    dd/MM/yyyy, which comes first. *)
Lemma normalizeDate_reads_day_first :
  In (lit "MM/dd/yyyy") Normalize.DATE_FORMATS /\
  parse (lit "01/02/2024") (lit "MM/dd/yyyy") sampleNow = Valid (Date 2024 0 2 0) /\
  formatISO (Date 2024 0 2 0) = lit "2024-01-02" /\
  Normalize.normalizeDate noNative sampleNow (lit "01/02/2024") = Some (lit "2024-02-01").
Proof.
  split; [right; left; reflexivity|].
  repeat split; vm_compute; reflexivity.
Qed.

(** ** Global replacement *)

Lemma searchFrom_noHit (r : regex) (s : jsstring) : forall prev idx,
  searchFrom r prev s idx = None <-> noHit r prev s = true.
Proof.
  induction s as [|c t IH]; intros prev idx; cbn [searchFrom noHit]; unfold hit.
  - destruct (matchHere r prev []) as [[n gs]|]; simpl; split; congruence.
  - destruct (matchHere r prev (c :: t)) as [[n gs]|]; simpl.
    + split; congruence.
    + apply IH.
Qed.

Lemma test_noHit (r : regex) (s : jsstring) : test r s = false <-> noHit r None s = true.
Proof.
  unfold test, exec. rewrite <- (searchFrom_noHit r s None 0).
  destruct (searchFrom r None s 0); split; congruence.
Qed.

(** A pattern that matches nowhere leaves the text as it is. *)
Lemma replaceGo_noHit (r : regex) (repl : jsstring) (s : jsstring) : forall prev,
  noHit r prev s = true -> replaceGo r repl prev s 0 = s.
Proof.
  induction s as [|c t IH]; intros prev; cbn [noHit replaceGo]; unfold hit.
  - destruct (matchHere r prev []) as [[n gs]|]; [discriminate|reflexivity].
  - destruct (matchHere r prev (c :: t)) as [[n gs]|]; [discriminate|].
    simpl. intros H. now rewrite IH.
Qed.

Lemma replaceAll_no_match (r : regex) (repl s : jsstring) :
  test r s = false -> replaceAll r repl s = s.
Proof. intros H. apply replaceGo_noHit. now apply test_noHit. Qed.

Lemma replaceGo_unit (r : regex) (b : cu) (s : jsstring) : unitMatches r ->
  forall prev, replaceGo r [b] prev s 0 = subst1 r b prev s.
Proof.
  intros Hu. induction s as [|c t IH]; intros prev; cbn [replaceGo subst1]; unfold hit.
  - destruct (matchHere r prev []) as [[n gs]|] eqn:E; [|reflexivity].
    destruct (Hu _ _ _ _ E) as [_ H]. now elim H.
  - destruct (matchHere r prev (c :: t)) as [[n gs]|] eqn:E.
    + destruct (Hu _ _ _ _ E) as [-> _]. simpl. now rewrite IH.
    + now rewrite IH.
Qed.

(** Runs of a class. *)
Lemma matchHere_run (p : cset) (prev : option cu) (s : jsstring) :
  matchHere (atLeast 2 (Char p)) prev s =
  if 2 <=? spanLen p None s then Some (spanLen p None s, []) else None.
Proof.
  unfold matchHere, atLeast. rewrite run_rep. cbn [m_rest groupsOf].
  rewrite repLoop_char by (lia || discriminate).
  destruct (2 <=? spanLen p None s); [|reflexivity].
  cbn [m_rest m_caps]. rewrite advance_snd.
  rewrite length_sub_skipn by apply (proj1 (spanLen_le _ _ _)).
  reflexivity.
Qed.

Lemma spanLen_cons (p : cset) (c : cu) (t : jsstring) :
  spanLen p None (c :: t) = if p c then S (spanLen p None t) else 0.
Proof. reflexivity. Qed.

Lemma replaceGo_run (p : cset) (b : cu) (s : jsstring) :
  (forall prev, replaceGo (atLeast 2 (Char p)) [b] prev s 0 = collapse p b false s) /\
  (forall prev, replaceGo (atLeast 2 (Char p)) [b] prev s (spanLen p None s)
                = collapse p b true s).
Proof.
  induction s as [|c t [IH0 IH1]].
  - split; intros prev; cbn [replaceGo spanLen collapse]; rewrite matchHere_run; reflexivity.
  - assert (H0 : forall prev,
        replaceGo (atLeast 2 (Char p)) [b] prev (c :: t) 0 = collapse p b false (c :: t)).
    { intros prev. cbn [replaceGo collapse]. rewrite matchHere_run, spanLen_cons.
      destruct (p c) eqn:Ec.
      - destruct (2 <=? S (spanLen p None t)) eqn:E2.
        + cbn [pred app Nat.eqb]. now rewrite IH1.
        + now rewrite IH0.
      - cbn [Nat.leb]. now rewrite IH0. }
    split; [exact H0|].
    intros prev. rewrite spanLen_cons. cbn [collapse]. destruct (p c) eqn:Ec.
    + cbn [replaceGo]. apply IH1.
    + rewrite H0. cbn [collapse]. now rewrite Ec.
Qed.

Lemma replaceAll_run (p : cset) (b : cu) (s : jsstring) :
  replaceAll (atLeast 2 (Char p)) [b] s = collapse p b false s.
Proof. apply (proj1 (replaceGo_run p b s)). Qed.

(** ** The OCR clean-up *)

Lemma matchHere_letterBeforeDigit (cl : cset) prev rest :
  matchHere (letterBeforeDigit cl) prev rest =
  match rest with
  | c :: d :: _ => if cl c && isDigit d then Some (1, []) else None
  | _ => None
  end.
Proof.
  unfold matchHere, letterBeforeDigit, dg.
  destruct rest as [|c [|d t]]; cbn [run m_rest m_prev m_caps]; try reflexivity.
  - destruct (cl c); reflexivity.
  - destruct (cl c); [|reflexivity]. destruct (isDigit d); [|reflexivity].
    cbn [andb m_rest]. change (length (c :: d :: t)) with (S (length (d :: t))).
    now rewrite sub_succ_self.
Qed.

Lemma matchHere_eye prev rest :
  matchHere Normalize.eyeBeforeDigit prev rest =
  match rest with
  | c :: d :: _ =>
    if xorb (isWordAt prev) (isWordChar c) && chr "I" c && isDigit d
    then Some (1, []) else None
  | _ => None
  end.
Proof.
  unfold matchHere, Normalize.eyeBeforeDigit, dg.
  destruct rest as [|c [|d t]]; cbn [run m_rest m_prev m_caps hd_error isWordAt].
  - destruct (xorb _ _); reflexivity.
  - destruct (xorb _ _); [|reflexivity]. destruct (chr "I" c); reflexivity.
  - destruct (xorb _ _); [|reflexivity]. destruct (chr "I" c); [|reflexivity].
    destruct (isDigit d); [|reflexivity].
    cbn [andb m_rest]. change (length (c :: d :: t)) with (S (length (d :: t))).
    now rewrite sub_succ_self.
Qed.

Lemma unit_letterBeforeDigit (cl : cset) : unitMatches (letterBeforeDigit cl).
Proof.
  intros prev rest n gs. rewrite matchHere_letterBeforeDigit.
  destruct rest as [|c [|d t]]; try discriminate.
  destruct (cl c && isDigit d); [|discriminate].
  intros H; injection H as <- _. split; [reflexivity|discriminate].
Qed.

Lemma unit_eye : unitMatches Normalize.eyeBeforeDigit.
Proof.
  intros prev rest n gs. rewrite matchHere_eye.
  destruct rest as [|c [|d t]]; try discriminate.
  destruct (_ && _ && _); [|discriminate].
  intros H; injection H as <- _. split; [reflexivity|discriminate].
Qed.

Lemma hit_eye prev rest :
  hit Normalize.eyeBeforeDigit prev rest =
  match rest with
  | c :: d :: _ => xorb (isWordAt prev) (isWordChar c) && chr "I" c && isDigit d
  | _ => false
  end.
Proof.
  unfold hit. rewrite matchHere_eye. destruct rest as [|c [|d t]]; try reflexivity.
  now destruct (_ && _ && _).
Qed.

Lemma hit_run (p : cset) prev s :
  hit (atLeast 2 (Char p)) prev s = (2 <=? spanLen p None s).
Proof. unfold hit. rewrite matchHere_run. now destruct (2 <=? _). Qed.

(** The five steps of [cleanOCRArtifacts] as scans of the text. *)
Lemma cleanOCRArtifacts_steps (text : jsstring) :
  Normalize.cleanOCRArtifacts text =
  collapse isSpace 32%N false
    (subst1 Normalize.eyeBeforeDigit 49%N None
      (subst1 Normalize.ohBeforeDigit 48%N None
        (subst1 Normalize.ellBeforeDigit 49%N None
          (collapse (chr "|") 32%N false text)))).
Proof.
  unfold Normalize.cleanOCRArtifacts, Normalize.spaces2, Normalize.pipes, sp.
  change (lit " ") with [32%N]. change (lit "1") with [49%N]. change (lit "0") with [48%N].
  rewrite !replaceAll_run. unfold replaceAll.
  rewrite (replaceGo_unit Normalize.ellBeforeDigit 49%N _
             (unit_letterBeforeDigit (chr "l"))).
  rewrite (replaceGo_unit Normalize.ohBeforeDigit 48%N _
             (unit_letterBeforeDigit (chr "O"))).
  rewrite (replaceGo_unit Normalize.eyeBeforeDigit 49%N _ unit_eye).
  reflexivity.
Qed.

(** Runs of a class after the class is collapsed. *)
Lemma noRun_weaken (p : cset) (s : jsstring) : noRun p true s = true -> noRun p false s = true.
Proof. destruct s as [|c t]; [reflexivity|]. simpl. destruct (p c); [discriminate|auto]. Qed.

Lemma spanLen_head (p : cset) (c : cu) (t : jsstring) :
  p c = true -> (2 <=? spanLen p None (c :: t)) = headIn p t.
Proof.
  intros Hc. rewrite spanLen_cons, Hc. destruct t as [|d t']; [reflexivity|].
  cbn [headIn]. rewrite spanLen_cons. now destruct (p d).
Qed.

Lemma noRun_collapse (p : cset) (b : cu) (s : jsstring) :
  (forall prevIn, (prevIn = true -> headIn p s = false) ->
                  noRun p prevIn (collapse p b false s) = true) /\
  noRun p (p b) (collapse p b true s) = true.
Proof.
  induction s as [|c t [IH0 IH1]]; [split; reflexivity|].
  assert (H0 : forall prevIn, (prevIn = true -> headIn p (c :: t) = false) ->
                 noRun p prevIn (collapse p b false (c :: t)) = true).
  { intros prevIn Hprev. cbn [collapse]. destruct (p c) eqn:Ec.
    - assert (prevIn = false) as ->.
      { destruct prevIn; [|reflexivity]. specialize (Hprev eq_refl). simpl in Hprev. congruence. }
      rewrite (spanLen_head p c t Ec). destruct (headIn p t) eqn:Eh.
      + cbn [noRun]. destruct (p b) eqn:Eb; exact IH1.
      + cbn [noRun]. rewrite Ec. apply IH0. auto.
    - cbn [noRun]. rewrite Ec. apply IH0. discriminate. }
  split; [exact H0|].
  cbn [collapse]. destruct (p c) eqn:Ec; [exact IH1|].
  cbn [noRun]. rewrite Ec. apply IH0. discriminate.
Qed.

Lemma noRun_spanLen (p : cset) (s : jsstring) : forall prevIn,
  noRun p prevIn s = true -> (2 <=? spanLen p None s) = false.
Proof.
  destruct s as [|c t]; intros prevIn; [reflexivity|].
  cbn [noRun]. destruct (p c) eqn:Ec.
  - rewrite (spanLen_head p c t Ec). intros H. apply andb_true_iff in H as [_ H].
    destruct t as [|d t']; [reflexivity|]. cbn [noRun headIn] in *.
    destruct (p d); [discriminate|reflexivity].
  - intros _. now rewrite spanLen_cons, Ec.
Qed.

Lemma noRun_noHit (p : cset) (s : jsstring) : forall prevIn prev,
  noRun p prevIn s = true -> noHit (atLeast 2 (Char p)) prev s = true.
Proof.
  induction s as [|c t IH]; intros prevIn prev H; cbn [noHit]; rewrite hit_run.
  - reflexivity.
  - rewrite (noRun_spanLen p _ prevIn H). cbn [negb andb].
    cbn [noRun] in H. destruct (p c).
    + apply andb_true_iff in H as [_ H]. exact (IH true _ H).
    + exact (IH false _ H).
Qed.

(** Runs of a class [q] through a scan that writes a unit outside
    [q]. *)
Lemma noRun_subst1 (q : cset) (r : regex) (b : cu) (s : jsstring) :
  q b = false ->
  forall prevIn prev, noRun q prevIn s = true -> noRun q prevIn (subst1 r b prev s) = true.
Proof.
  intros Hb. induction s as [|c t IH]; intros prevIn prev H; [reflexivity|].
  cbn [subst1 noRun] in *. destruct (hit r prev (c :: t)).
  - rewrite Hb. apply IH. destruct (q c); [|exact H].
    apply andb_true_iff in H as [_ H]. now apply noRun_weaken.
  - destruct (q c).
    + apply andb_true_iff in H as [H1 H2]. rewrite H1. now apply IH.
    + now apply IH.
Qed.

Lemma noRun_other_collapse (q p : cset) (b : cu) (s : jsstring) :
  q b = false -> (forall c, p c = true -> q c = false) ->
  (forall prevIn, noRun q prevIn s = true -> noRun q prevIn (collapse p b false s) = true) /\
  (forall prevIn, noRun q prevIn s = true -> noRun q false (collapse p b true s) = true).
Proof.
  intros Hb Hpq. induction s as [|c t [IH0 IH1]]; [split; reflexivity|].
  assert (H0 : forall prevIn, noRun q prevIn (c :: t) = true ->
                 noRun q prevIn (collapse p b false (c :: t)) = true).
  { intros prevIn H. cbn [collapse noRun] in *. destruct (p c) eqn:Ec.
    - rewrite (Hpq c Ec) in H. destruct (2 <=? _).
      + cbn [noRun]. rewrite Hb. exact (IH1 false H).
      + cbn [noRun]. rewrite (Hpq c Ec). exact (IH0 false H).
    - cbn [noRun]. destruct (q c).
      + apply andb_true_iff in H as [H1 H2]. rewrite H1. exact (IH0 true H2).
      + exact (IH0 false H). }
  split; [exact H0|].
  intros prevIn H. cbn [collapse]. destruct (p c) eqn:Ec.
  - cbn [noRun] in H. rewrite (Hpq c Ec) in H. exact (IH1 false H).
  - cbn [noRun] in *. destruct (q c).
    + apply andb_true_iff in H as [_ H2]. exact (IH0 true H2).
    + exact (IH0 false H).
Qed.

(** The pattern [\bI(?=\d)] after its own scan and after the white
    space is collapsed. *)
Lemma hit_eye_cons prev c rest :
  hit Normalize.eyeBeforeDigit prev (c :: rest) =
  xorb (isWordAt prev) (isWordChar c) && chr "I" c && startsWithDigit rest.
Proof.
  rewrite hit_eye. destruct rest as [|d t]; [|reflexivity].
  cbn [startsWithDigit]. now rewrite andb_false_r.
Qed.

Lemma eye_is_word (c : cu) : chr "I" c = true -> isWordChar c = true.
Proof. unfold chr, ch. intros H. apply N.eqb_eq in H. subst c. reflexivity. Qed.

Lemma space_not_eye (c : cu) : isSpace c = true -> chr "I" c = false.
Proof.
  intros H. destruct (chr "I" c) eqn:E; [|reflexivity].
  unfold chr, ch in E. apply N.eqb_eq in E. subst c. discriminate.
Qed.

Lemma space_not_digit (c : cu) : isSpace c = true -> isDigit c = false.
Proof.
  intros H. destruct (isDigit c) eqn:E; [|reflexivity].
  rewrite (digit_not_space c E) in H. discriminate.
Qed.

Lemma space_not_word (c : cu) : isSpace c = true -> isWordChar c = false.
Proof.
  unfold isWordChar, isAlpha, isUpper, isLower, isDigit, union, between, chr, ch, isSpace.
  change (N_of_ascii "_") with 95%N. intros H.
  repeat match goal with
         | |- context [(?a <=? ?b)%N] => destruct (N.leb_spec a b)
         | |- context [(?a =? ?b)%N] => destruct (N.eqb_spec a b)
         end; try reflexivity; exfalso;
  repeat match goal with
         | H : context [(?a <=? ?b)%N] |- _ => destruct (N.leb_spec a b); try lia
         | H : context [(?a =? ?b)%N] |- _ => destruct (N.eqb_spec a b); try lia
         end; discriminate.
Qed.

Lemma space_not_pipe (c : cu) : isSpace c = true -> chr "|" c = false.
Proof.
  intros H. destruct (chr "|" c) eqn:E; [|reflexivity].
  unfold chr, ch in E. apply N.eqb_eq in E. subst c. discriminate.
Qed.

Lemma noHit_eye_subst1 (s : jsstring) : forall pi po,
  isWordAt pi = isWordAt po ->
  noHit Normalize.eyeBeforeDigit po (subst1 Normalize.eyeBeforeDigit 49%N pi s) = true.
Proof.
  induction s as [|c t IH]; intros pi po Hw.
  - cbn [subst1 noHit]. now rewrite hit_eye.
  - cbn [subst1 noHit]. apply andb_true_iff. split.
    + apply negb_true_iff. rewrite (hit_eye_cons pi c t).
      destruct (xorb (isWordAt pi) (isWordChar c) && chr "I" c && startsWithDigit t) eqn:E.
      * rewrite hit_eye_cons. change (chr "I" 49%N) with false.
        now rewrite andb_false_r.
      * rewrite hit_eye_cons, <- Hw.
        destruct (chr "I" c) eqn:Ec; [|now rewrite andb_false_r].
        destruct t as [|d t']; [now rewrite andb_false_r|].
        cbn [subst1 startsWithDigit] in *. rewrite hit_eye_cons.
        cbn [isWordAt]. rewrite (eye_is_word c Ec) in *.
        destruct (chr "I" d) eqn:Ed.
        -- rewrite (eye_is_word d Ed). exact E.
        -- rewrite andb_false_r. exact E.
    + apply IH. cbn [isWordAt]. destruct (hit Normalize.eyeBeforeDigit pi (c :: t)) eqn:E.
      * rewrite hit_eye_cons in E. apply andb_true_iff in E as [E _].
        apply andb_true_iff in E as [_ E]. now rewrite (eye_is_word c E).
      * reflexivity.
Qed.

Lemma startsWithDigit_collapse (s : jsstring) :
  startsWithDigit (collapse isSpace 32%N false s) = startsWithDigit s.
Proof.
  destruct s as [|c t]; [reflexivity|]. cbn [collapse].
  destruct (isSpace c) eqn:Ec; [|reflexivity].
  cbn [startsWithDigit]. rewrite (space_not_digit c Ec).
  destruct (2 <=? _); [reflexivity|]. cbn [startsWithDigit]. apply (space_not_digit c Ec).
Qed.

Lemma noHit_eye_collapse (s : jsstring) :
  (forall pi po, isWordAt pi = isWordAt po ->
     noHit Normalize.eyeBeforeDigit pi s = true ->
     noHit Normalize.eyeBeforeDigit po (collapse isSpace 32%N false s) = true) /\
  (forall pi, isWordAt pi = false ->
     noHit Normalize.eyeBeforeDigit pi s = true ->
     noHit Normalize.eyeBeforeDigit (Some 32%N) (collapse isSpace 32%N true s) = true).
Proof.
  induction s as [|c t [IH0 IH1]].
  - split; intros; cbn [collapse noHit]; now rewrite hit_eye.
  - assert (H0 : forall pi po, isWordAt pi = isWordAt po ->
       noHit Normalize.eyeBeforeDigit pi (c :: t) = true ->
       noHit Normalize.eyeBeforeDigit po (collapse isSpace 32%N false (c :: t)) = true).
    { intros pi po Hw H. cbn [noHit] in H. apply andb_true_iff in H as [Hh Ht].
      apply negb_true_iff in Hh. rewrite hit_eye_cons in Hh.
      cbn [collapse]. destruct (isSpace c) eqn:Ec.
      - destruct (2 <=? _).
        + cbn [noHit]. rewrite hit_eye_cons.
          change (chr "I" 32%N) with false. rewrite andb_false_r. cbn [andb negb].
          apply (IH1 (Some c)); [apply (space_not_word c Ec)|exact Ht].
        + cbn [noHit]. rewrite hit_eye_cons, (space_not_eye c Ec), andb_false_r.
          cbn [andb negb]. apply (IH0 (Some c) (Some c) eq_refl Ht).
      - cbn [noHit]. rewrite hit_eye_cons, startsWithDigit_collapse, <- Hw, Hh.
        cbn [andb negb]. apply (IH0 (Some c) (Some c) eq_refl Ht). }
    split; [exact H0|].
    intros pi Hw H. cbn [noHit] in H. apply andb_true_iff in H as [Hh Ht].
    apply negb_true_iff in Hh. rewrite hit_eye_cons, Hw in Hh.
    cbn [collapse]. destruct (isSpace c) eqn:Ec.
    + apply (IH1 (Some c)); [apply (space_not_word c Ec)|exact Ht].
    + cbn [noHit]. rewrite hit_eye_cons, startsWithDigit_collapse.
      change (isWordAt (Some 32%N)) with false. rewrite Hh.
      cbn [andb negb]. apply (IH0 (Some c) (Some c) eq_refl Ht).
Qed.

(** What the clean-up leaves behind: no run of bars, no word-initial I
    before a digit, no run of white space. *)
Lemma cleaned_has_no_pipes (text : jsstring) :
  test Normalize.pipes (Normalize.cleanOCRArtifacts text) = false.
Proof.
  apply test_noHit, (noRun_noHit (chr "|") _ false).
  rewrite cleanOCRArtifacts_steps.
  apply (proj1 (noRun_other_collapse (chr "|") isSpace 32%N _ eq_refl space_not_pipe)).
  do 3 (apply noRun_subst1; [reflexivity|]).
  apply (proj1 (noRun_collapse (chr "|") 32%N text)). discriminate.
Qed.

Lemma cleaned_has_no_eye (text : jsstring) :
  test Normalize.eyeBeforeDigit (Normalize.cleanOCRArtifacts text) = false.
Proof.
  apply test_noHit. rewrite cleanOCRArtifacts_steps.
  apply (proj1 (noHit_eye_collapse _) None None eq_refl).
  apply noHit_eye_subst1. reflexivity.
Qed.

Lemma cleaned_has_no_spaces (text : jsstring) :
  test Normalize.spaces2 (Normalize.cleanOCRArtifacts text) = false.
Proof.
  apply test_noHit, (noRun_noHit isSpace _ false).
  rewrite cleanOCRArtifacts_steps.
  apply (proj1 (noRun_collapse isSpace 32%N _)). discriminate.
Qed.

(** A scan that writes a unit outside a class: the units of the class
    that it leaves, and the ones that it takes away. *)
Lemma count_subst1_other (a : cset) (r : regex) (b : cu) (s : jsstring) :
  a b = false ->
  (forall prev c t, hit r prev (c :: t) = true -> a c = false) ->
  forall prev, count a (subst1 r b prev s) = count a s.
Proof.
  intros Hb Hh. unfold count. induction s as [|c t IH]; intros prev; [reflexivity|].
  cbn [subst1 filter]. destruct (hit r prev (c :: t)) eqn:E.
  - rewrite Hb, (Hh _ _ _ E). apply IH.
  - destruct (a c); cbn [length]; now rewrite IH.
Qed.

Lemma count_subst1_same (a : cset) (r : regex) (b : cu) (s : jsstring) :
  a b = false ->
  (forall prev c t, hit r prev (c :: t) = true -> a c = true) ->
  forall prev, count a (subst1 r b prev s) + hits r prev s = count a s.
Proof.
  intros Hb Hh. unfold count. induction s as [|c t IH]; intros prev; [reflexivity|].
  cbn [subst1 filter hits]. destruct (hit r prev (c :: t)) eqn:E.
  - rewrite Hb, (Hh _ _ _ E). cbn [length]. rewrite <- (IH (Some c)). lia.
  - destruct (a c); cbn [length]; rewrite <- (IH (Some c)); lia.
Qed.

Lemma hits_zero_noHit (r : regex) (s : jsstring) :
  (forall prev, hit r prev [] = false) ->
  forall prev, hits r prev s = 0 -> noHit r prev s = true.
Proof.
  intros He. induction s as [|c t IH]; intros prev; cbn [hits noHit].
  - now rewrite He.
  - destruct (hit r prev (c :: t)); [discriminate|]. intros H. now apply IH.
Qed.

Lemma subst1_noHit (r : regex) (b : cu) (s : jsstring) : forall prev,
  noHit r prev s = true -> subst1 r b prev s = s.
Proof.
  induction s as [|c t IH]; intros prev; cbn [noHit subst1]; [reflexivity|].
  destruct (hit r prev (c :: t)); [discriminate|]. intros H. now rewrite IH.
Qed.

Lemma collapse_noRun (p : cset) (b : cu) (s : jsstring) :
  noRun p false s = true -> collapse p b false s = s.
Proof.
  intros H. rewrite <- replaceAll_run. apply replaceAll_no_match, test_noHit.
  exact (noRun_noHit p s false None H).
Qed.

Lemma hit_letterBeforeDigit (cl : cset) prev rest :
  hit (letterBeforeDigit cl) prev rest =
  match rest with
  | c :: d :: _ => cl c && isDigit d
  | _ => false
  end.
Proof.
  unfold hit. rewrite matchHere_letterBeforeDigit.
  destruct rest as [|c [|d t]]; try reflexivity. now destruct (cl c && isDigit d).
Qed.

Lemma hit_letter_is (cl : cset) prev c t :
  hit (letterBeforeDigit cl) prev (c :: t) = true -> cl c = true.
Proof.
  rewrite hit_letterBeforeDigit. destruct t as [|d t']; [discriminate|].
  intros H. now apply andb_true_iff in H as [H _].
Qed.

Lemma hit_eye_is prev c t :
  hit Normalize.eyeBeforeDigit prev (c :: t) = true -> chr "I" c = true.
Proof.
  rewrite hit_eye_cons. intros H. apply andb_true_iff in H as [H _].
  now apply andb_true_iff in H as [_ H].
Qed.

Lemma chr_excl (a b : ascii) (c : cu) : a <> b -> chr a c = true -> chr b c = false.
Proof. apply headIs_excl. Qed.

(** A cleaned text that a second run leaves alone holds no "l" and no
    "O" before a digit. *)
Lemma settled_when_idempotent (text : jsstring) :
  let cleaned := Normalize.cleanOCRArtifacts text in
  Normalize.cleanOCRArtifacts cleaned = cleaned ->
  test Normalize.ellBeforeDigit cleaned = false /\
  test Normalize.ohBeforeDigit cleaned = false.
Proof.
  intros cleaned E.
  pose proof (cleaned_has_no_pipes text) as Hp. fold cleaned in Hp.
  pose proof (cleaned_has_no_spaces text) as Hs. fold cleaned in Hs.
  rewrite cleanOCRArtifacts_steps in E.
  rewrite <- (replaceAll_run (chr "|") 32%N cleaned) in E.
  rewrite (replaceAll_no_match _ _ _ Hp) in E.
  assert (Hsp : noRun isSpace false cleaned = true).
  { unfold cleaned. rewrite cleanOCRArtifacts_steps.
    apply (proj1 (noRun_collapse isSpace 32%N _)). discriminate. }
  rewrite collapse_noRun in E by (do 3 (apply noRun_subst1; [reflexivity|]); exact Hsp).
  assert (Hl : noHit Normalize.ellBeforeDigit None cleaned = true).
  { apply (hits_zero_noHit _ _ (fun prev => hit_letterBeforeDigit (chr "l") prev [])).
    pose proof (count_subst1_same (chr "l") Normalize.ellBeforeDigit 49%N cleaned eq_refl
                  (hit_letter_is (chr "l")) None) as Hc.
    rewrite <- (count_subst1_other (chr "l") Normalize.ohBeforeDigit 48%N _ eq_refl
                  (fun prev c t H => chr_excl "O" "l" c ltac:(discriminate)
                                       (hit_letter_is (chr "O") prev c t H)) None) in Hc.
    rewrite <- (count_subst1_other (chr "l") Normalize.eyeBeforeDigit 49%N _ eq_refl
                  (fun prev c t H => chr_excl "I" "l" c ltac:(discriminate)
                                       (hit_eye_is prev c t H)) None) in Hc.
    rewrite E in Hc. change (hits Normalize.ellBeforeDigit None cleaned = 0). lia. }
  rewrite (subst1_noHit _ _ _ _ Hl) in E.
  assert (Ho : noHit Normalize.ohBeforeDigit None cleaned = true).
  { apply (hits_zero_noHit _ _ (fun prev => hit_letterBeforeDigit (chr "O") prev [])).
    pose proof (count_subst1_same (chr "O") Normalize.ohBeforeDigit 48%N cleaned eq_refl
                  (hit_letter_is (chr "O")) None) as Hc.
    rewrite <- (count_subst1_other (chr "O") Normalize.eyeBeforeDigit 49%N _ eq_refl
                  (fun prev c t H => chr_excl "I" "O" c ltac:(discriminate)
                                       (hit_eye_is prev c t H)) None) in Hc.
    rewrite E in Hc. change (hits Normalize.ohBeforeDigit None cleaned = 0). lia. }
  split; now apply test_noHit.
Qed.

Lemma cleanOCRArtifacts_settled (text : jsstring) :
  let cleaned := Normalize.cleanOCRArtifacts text in
  test Normalize.ellBeforeDigit cleaned = false ->
  test Normalize.ohBeforeDigit cleaned = false ->
  Normalize.cleanOCRArtifacts cleaned = cleaned.
Proof.
  intros cleaned Hl Ho. unfold Normalize.cleanOCRArtifacts at 1.
  rewrite (replaceAll_no_match Normalize.pipes _ cleaned (cleaned_has_no_pipes text)).
  rewrite (replaceAll_no_match Normalize.ellBeforeDigit _ cleaned Hl).
  rewrite (replaceAll_no_match Normalize.ohBeforeDigit _ cleaned Ho).
  rewrite (replaceAll_no_match Normalize.eyeBeforeDigit _ cleaned (cleaned_has_no_eye text)).
  apply (replaceAll_no_match Normalize.spaces2 _ cleaned (cleaned_has_no_spaces text)).
Qed.

(** The extractors read their text through the clean-up only. *)
Lemma extract_cleaned nativeDate now documentType pageTexts pageTexts' (text : jsstring) :
  Normalize.cleanOCRArtifacts (Normalize.cleanOCRArtifacts text)
  = Normalize.cleanOCRArtifacts text ->
  Processor.extract nativeDate now documentType pageTexts' (Normalize.cleanOCRArtifacts text)
  = Processor.extract nativeDate now documentType pageTexts text.
Proof.
  intros E. unfold Processor.extract. destruct documentType; [| |reflexivity].
  - unfold BankParser.extractBankStatement. now rewrite E.
  - unfold TaxParser.extractTaxStatement. now rewrite E.
Qed.

(** C2 (as the code has it): a second run of the clean-up changes
    nothing exactly when the cleaned text holds no "l" and no "O" right
    before a digit.  In that case the bank and the tax extractor return
    the same result on the text and on its cleaned form, and the whole
    pipeline returns the same result object on the cleaned form as on
    the pages of the text whenever the two steps that read the text
    before the clean-up agree on both: the classifier (type and
    confidence) and, for a scanned document, the count of readable
    words. *)
Theorem cleanOCRArtifacts_idempotent_when_settled :
  forall text,
    let cleaned := Normalize.cleanOCRArtifacts text in
    (Normalize.cleanOCRArtifacts cleaned = cleaned <->
     test Normalize.ellBeforeDigit cleaned = false /\
     test Normalize.ohBeforeDigit cleaned = false) /\
    (test Normalize.ellBeforeDigit cleaned = false ->
     test Normalize.ohBeforeDigit cleaned = false ->
     (forall nativeDate now pageTexts,
         BankParser.extractBankStatement nativeDate now pageTexts cleaned
         = BankParser.extractBankStatement nativeDate now pageTexts text) /\
     (forall nativeDate now pageTexts,
         TaxParser.extractTaxStatement nativeDate now pageTexts cleaned
         = TaxParser.extractTaxStatement nativeDate now pageTexts text) /\
     (forall nativeDate validateResult now documentId isScanned pageCount pageTexts
             originalName,
         Str.join Processor.pageBreak pageTexts = text ->
         Classifier.documentType (Classifier.classifyDocument cleaned originalName)
         = Classifier.documentType (Classifier.classifyDocument text originalName) ->
         Classifier.confidence (Classifier.classifyDocument cleaned originalName)
         = Classifier.confidence (Classifier.classifyDocument text originalName) ->
         (isScanned = true -> fewWords cleaned = fewWords text) ->
         Processor.processCore nativeDate validateResult now documentId isScanned pageCount
           [cleaned] originalName
         = Processor.processCore nativeDate validateResult now documentId isScanned pageCount
             pageTexts originalName)).
Proof.
  intros text cleaned.
  split.
  - split; [apply settled_when_idempotent|]. intros [Hl Ho].
    now apply cleanOCRArtifacts_settled.
  - intros Hl Ho. pose proof (cleanOCRArtifacts_settled text Hl Ho) as E. fold cleaned in E.
    split; [|split].
    + intros nd now pts. unfold BankParser.extractBankStatement. now rewrite E.
    + intros nd now pts. unfold TaxParser.extractTaxStatement. now rewrite E.
    + intros nd vr now id sc pc pts name Hjoin Htype Hconf Hwords.
      unfold Processor.processCore. cbv zeta.
      change (Str.join Processor.pageBreak [cleaned]) with cleaned.
      rewrite Hjoin, Htype, Hconf.
      unfold cleaned at 1 2 3.
      rewrite !(extract_cleaned nd now _ pts [Normalize.cleanOCRArtifacts text] text E).
      fold cleaned. fold (fewWords cleaned). fold (fewWords text).
      destruct sc; [|reflexivity]. now rewrite (Hwords eq_refl).
Qed.

Lemma cleanOCRArtifacts_idempotent_when_settled_witness :
  Normalize.cleanOCRArtifacts noisyText = lit "A/c 123405 Balance 150" /\
  Normalize.cleanOCRArtifacts (Normalize.cleanOCRArtifacts noisyText)
  = Normalize.cleanOCRArtifacts noisyText /\
  Processor.processCore noNative allValid sampleNow (lit "doc-1") true 1
    [Normalize.cleanOCRArtifacts noisyText] (lit "scan.pdf")
  = Processor.processCore noNative allValid sampleNow (lit "doc-1") true 1
      [noisyText] (lit "scan.pdf").
Proof.
  split; [vm_compute; reflexivity|]. split.
  - apply (proj2 (proj1 (cleanOCRArtifacts_idempotent_when_settled noisyText))).
    split; vm_compute; reflexivity.
  - apply (proj2 (proj2 (proj2 (cleanOCRArtifacts_idempotent_when_settled noisyText)
                           ltac:(vm_compute; reflexivity) ltac:(vm_compute; reflexivity))));
      [reflexivity|vm_compute; reflexivity|vm_compute; reflexivity
      |intros _; vm_compute; reflexivity].
Defined.

(** C2 (as stated) fails.  On "ll1" the first run gives "l11" and the
    second "111"; on "lO1" the first gives "l01" and the second "101".
    The other texts are cleaned to a text that a second run leaves
    alone, and still the pipeline tells the text from its cleaned
    form, for the classifier and the word count read the text before
    the clean-up.  "Form l6" (cleaned: "Form 16") is unknown, its
    cleaned form a tax statement.  "TDS deductor Form l6" and its
    cleaned form are tax statements, with confidence 0.58 and 0.59.
    With nineteen words "abc" and the word "ab||cd", a scan of the
    cleaned form alone is flagged LOW_OCR_QUALITY: "ab||cd" counts as a
    word of more than two units, "ab cd" as none; the classifier finds
    both unknown. *)
Lemma cleanOCRArtifacts_not_idempotent :
  (Normalize.cleanOCRArtifacts (lit "ll1") = lit "l11" /\
   Normalize.cleanOCRArtifacts (Normalize.cleanOCRArtifacts (lit "ll1")) = lit "111" /\
   Normalize.cleanOCRArtifacts (Normalize.cleanOCRArtifacts (lit "ll1"))
   <> Normalize.cleanOCRArtifacts (lit "ll1") /\
   Normalize.cleanOCRArtifacts (Normalize.cleanOCRArtifacts (lit "lO1"))
   <> Normalize.cleanOCRArtifacts (lit "lO1")) /\
  (Normalize.cleanOCRArtifacts formL6 = lit "Form 16" /\
   Normalize.cleanOCRArtifacts (lit "Form 16") = lit "Form 16" /\
   Processor.document_type (onePageResult false formL6) = Classifier.unknown /\
   Processor.document_type (onePageResult false (Normalize.cleanOCRArtifacts formL6))
   = Classifier.tax_statement /\
   onePageResult false (Normalize.cleanOCRArtifacts formL6) <> onePageResult false formL6) /\
  (Normalize.cleanOCRArtifacts (Normalize.cleanOCRArtifacts tdsFormL6)
   = Normalize.cleanOCRArtifacts tdsFormL6 /\
   Processor.document_type (onePageResult false tdsFormL6) = Classifier.tax_statement /\
   Processor.document_type (onePageResult false (Normalize.cleanOCRArtifacts tdsFormL6))
   = Classifier.tax_statement /\
   Processor.confidence_ (onePageResult false tdsFormL6) = Normalize.dec 58 (-2) /\
   Processor.confidence_ (onePageResult false (Normalize.cleanOCRArtifacts tdsFormL6))
   = Normalize.dec 59 (-2) /\
   onePageResult false (Normalize.cleanOCRArtifacts tdsFormL6)
   <> onePageResult false tdsFormL6) /\
  (Normalize.cleanOCRArtifacts (Normalize.cleanOCRArtifacts pipedWords)
   = Normalize.cleanOCRArtifacts pipedWords /\
   Classifier.classifyDocument (Normalize.cleanOCRArtifacts pipedWords) (lit "scan.pdf")
   = Classifier.classifyDocument pipedWords (lit "scan.pdf") /\
   hasCode LOW_OCR_QUALITY (Processor.warnings_ (onePageResult true pipedWords)) = false /\
   hasCode LOW_OCR_QUALITY
     (Processor.warnings_ (onePageResult true (Normalize.cleanOCRArtifacts pipedWords)))
   = true /\
   onePageResult true (Normalize.cleanOCRArtifacts pipedWords)
   <> onePageResult true pipedWords).
Proof.
  split; [|split; [|split]].
  - split; [vm_compute; reflexivity|]. split; [vm_compute; reflexivity|].
    split; intros H; vm_compute in H; discriminate.
  - do 4 (split; [vm_compute; reflexivity|]).
    intros H. apply (f_equal Processor.document_type) in H. vm_compute in H. discriminate.
  - do 5 (split; [vm_compute; reflexivity|]).
    intros H. apply (f_equal Processor.confidence_) in H. vm_compute in H. discriminate.
  - do 4 (split; [vm_compute; reflexivity|]).
    intros H.
    apply (f_equal (fun r => hasCode LOW_OCR_QUALITY (Processor.warnings_ r))) in H.
    vm_compute in H. discriminate.
Qed.

(** * The functions beyond the examples *)

(** ** The matcher returns words of its pattern *)

Lemma getCap_filter_key (f : nat -> bool) (i : nat) (v : jsstring) caps :
  getCap i (filter (fun p => f (fst p)) caps) = Some v -> getCap i caps = Some v.
Proof.
  induction caps as [|[j u] caps IH]; simpl; [easy|].
  destruct (f j) eqn:Fj; simpl.
  - destruct (Nat.eqb i j); auto.
  - destruct (Nat.eqb_spec i j) as [->|]; auto.
    intros H. exfalso. clear IH.
    induction caps as [|[j' u'] caps IH]; simpl in H; [easy|].
    destruct (f j') eqn:Fj'; simpl in H; auto.
    destruct (Nat.eqb_spec j j') as [->|]; [congruence|auto].
Qed.

Lemma getCap_clearCaps gs i v caps :
  getCap i (clearCaps gs caps) = Some v -> getCap i caps = Some v.
Proof. apply (getCap_filter_key (fun j => negb (existsb (Nat.eqb j) gs))). Qed.

Lemma getCap_setCap i j w v caps :
  getCap j (setCap i w caps) = Some v ->
  (j = i /\ v = w) \/ getCap j caps = Some v.
Proof.
  unfold setCap; simpl. destruct (Nat.eqb_spec j i) as [->|N].
  - intros H; injection H as <-; auto.
  - intros H; right. now apply (getCap_filter_key (fun k => negb (Nat.eqb k i))) in H.
Qed.

Lemma app_length_suffix {A : Type} (w r : list A) :
  length (w ++ r) - length r = length w.
Proof. rewrite length_app; lia. Qed.

Lemma repLoop_sound (a : regex) :
  (forall s k z, run a s k = Some z -> exists s1, k s1 = Some z /\ Steps a s s1) ->
  forall fuel lo hi s (k : cont) z,
    lo + length (m_rest s) < fuel ->
    (forall h, hi = Some h -> lo <= h) ->
    repLoop (run a) (groupsOf a) fuel lo hi s k = Some z ->
    exists s1, k s1 = Some z /\ Steps (Rep lo hi a) s s1.
Proof.
  intros IHa.
  assert (Stop : forall lo hi s (k : cont) z, lo = 0 -> k s = Some z ->
            exists s1, k s1 = Some z /\ Steps (Rep lo hi a) s s1).
  { intros lo hi s k z -> H. exists s; split; [exact H|].
    exists []; split; [reflexivity|]. split.
    - exists []; simpl; repeat split; auto; intros; lia.
    - intros i v Hc; auto. }
  induction fuel as [|fuel IH]; intros lo hi s k z Hf Hwf H; [lia|].
  assert (Iter : forall y,
            Steps a (MState (m_prev s) (m_rest s) (clearCaps (groupsOf a) (m_caps s))) y ->
            (forall h, hi = Some h -> 0 < h) ->
            (if Nat.eqb lo 0 && Nat.eqb (length (m_rest y)) (length (m_rest s))
             then None
             else repLoop (run a) (groupsOf a) fuel (pred lo) (option_map pred hi) y k) = Some z ->
            exists s1, k s1 = Some z /\ Steps (Rep lo hi a) s s1).
  { intros y (w & Hw & Lw & Cw) Hh Hy. simpl in Hw.
    assert (Hlen : length (m_rest y) <= length (m_rest s)).
    { rewrite Hw, length_app; lia. }
    destruct (Nat.eqb lo 0 && Nat.eqb (length (m_rest y)) (length (m_rest s))) eqn:E;
      [discriminate|].
    apply IH in Hy.
    - destruct Hy as (s1 & Hk & (w' & Hw' & (ws & -> & Fws & Hlo & Hhi) & Cw')).
      exists s1; split; [exact Hk|].
      exists (w ++ concat ws); split; [rewrite Hw, Hw', app_assoc; reflexivity|].
      split.
      + exists (w :: ws); simpl. repeat split; auto; [lia|].
        intros h ->. specialize (Hh h eq_refl). specialize (Hhi (pred h) eq_refl). lia.
      + intros i v Hc. destruct (Cw' i v Hc) as [Hc'|G]; [|right; exact G].
        destruct (Cw i v Hc') as [Hc''|G]; [|right; exact G].
        left. simpl in Hc''. now apply getCap_clearCaps in Hc''.
    - apply andb_false_iff in E. destruct E as [E|E].
      + apply Nat.eqb_neq in E. lia.
      + apply Nat.eqb_neq in E. lia.
    - intros h Eh. destruct hi as [h0|]; [|discriminate]. injection Eh as <-.
      specialize (Hwf h0 eq_refl). specialize (Hh h0 eq_refl). lia. }
  assert (Body : forall (Hh : forall h, hi = Some h -> 0 < h),
     (let d : cont := fun y =>
        if Nat.eqb lo 0 && Nat.eqb (length (m_rest y)) (length (m_rest s))
        then None
        else repLoop (run a) (groupsOf a) fuel (pred lo) (option_map pred hi) y k in
      let xr := MState (m_prev s) (m_rest s) (clearCaps (groupsOf a) (m_caps s)) in
      if Nat.eqb lo 0
      then match run a xr d with Some z => Some z | None => k s end
      else run a xr d) = Some z ->
     exists s1, k s1 = Some z /\ Steps (Rep lo hi a) s s1).
  { intros Hh B. cbv zeta in B.
    destruct (Nat.eqb_spec lo 0) as [L|L].
    - match type of B with match ?e with _ => _ end = _ => destruct e as [z'|] eqn:E end.
      + injection B as ->. apply IHa in E. destruct E as (y & Hy & St).
        now apply (Iter y).
      + now apply Stop.
    - apply IHa in B. destruct B as (y & Hy & St). now apply (Iter y). }
  simpl in H.
  destruct hi as [[|h]|].
  - (* hi = Some 0 *)
    specialize (Hwf 0 eq_refl). apply Stop; [lia|exact H].
  - apply Body; [|exact H]. intros h' E; injection E as <-; lia.
  - apply Body; [|exact H]. intros h' E; discriminate.
Qed.

Lemma run_sound (r : regex) :
  wf r = true ->
  forall s k z, run r s k = Some z -> exists s1, k s1 = Some z /\ Steps r s s1.
Proof.
  induction r as [|c|a IHa b IHb|a IHa b IHb|lo hi a IHa|i a IHa|a IHa| | |];
    simpl; intros W s k z H.
  - exists s; split; [exact H|]. exists []; repeat split; auto. intros i v; auto.
  - destruct s as [prev [|x t] caps]; simpl in H; [discriminate|].
    destruct (c x) eqn:Cx; [|discriminate].
    eexists; split; [exact H|]. exists [x]; simpl; repeat split; eauto. intros i v; auto.
  - apply andb_true_iff in W as [Wa Wb].
    apply (IHa Wa) in H. destruct H as (s1 & H & (w1 & E1 & L1 & C1)).
    apply (IHb Wb) in H. destruct H as (s2 & H & (w2 & E2 & L2 & C2)).
    exists s2; split; [exact H|]. exists (w1 ++ w2). split; [rewrite E1, E2, app_assoc; reflexivity|].
    split; [exists w1, w2; auto|].
    intros i v Hc. destruct (C2 i v Hc) as [Hc'|G]; [|right; simpl; auto].
    destruct (C1 i v Hc') as [Hc''|G]; [left; auto|right; simpl; auto].
  - apply andb_true_iff in W as [Wa Wb].
    destruct (run a s k) as [z'|] eqn:E.
    + injection H as ->. apply (IHa Wa) in E. destruct E as (s1 & H & (w1 & E1 & L1 & C1)).
      exists s1; split; [exact H|]. exists w1; repeat split; simpl; auto.
      intros i v Hc. destruct (C1 i v Hc); simpl; auto.
    + apply (IHb Wb) in H. destruct H as (s1 & H & (w1 & E1 & L1 & C1)).
      exists s1; split; [exact H|]. exists w1; repeat split; simpl; auto.
      intros i v Hc. destruct (C1 i v Hc); simpl; auto.
  - apply andb_true_iff in W as [Wh Wa].
    apply repLoop_sound in H; auto; [lia|].
    intros h ->. now apply Nat.leb_le in Wh.
  - apply (IHa W) in H. destruct H as (s1 & H & (w1 & E1 & L1 & C1)).
    eexists; split; [exact H|]. exists w1; simpl. split; [exact E1|]. split; [exact L1|].
    intros j v Hc. simpl in Hc. apply getCap_setCap in Hc.
    destruct Hc as [[-> ->]|Hc].
    + right; left; split; [reflexivity|].
      rewrite E1, app_length_suffix, firstn_app, Nat.sub_diag, firstn_all; simpl.
      now rewrite app_nil_r.
    + destruct (C1 j v Hc); simpl; auto.
  - destruct (run a s Some) as [s'|] eqn:E; [|discriminate].
    apply (IHa W) in E. destruct E as (s1 & E & (w1 & E1 & L1 & C1)). injection E as ->.
    eexists; split; [exact H|]. exists []; simpl; repeat split; auto.
  - destruct (xorb _ _); [|discriminate].
    exists s; split; [exact H|]. exists []; repeat split; auto. intros i v; auto.
  - destruct (m_prev s); [discriminate|].
    exists s; split; [exact H|]. exists []; repeat split; auto. intros i v; auto.
  - destruct (m_rest s) eqn:E; [|discriminate].
    exists s; split; [exact H|]. exists []; repeat split; auto. intros i v; auto.
Qed.

Lemma nth_map_seq {A : Type} (f : nat -> option A) (n : nat) : forall a i v,
  nth i (List.map f (seq a n)) None = Some v -> f (a + i) = Some v.
Proof.
  induction n as [|n IH]; intros a i v; simpl.
  - destruct i; discriminate.
  - destruct i as [|i].
    + now rewrite Nat.add_0_r.
    + intros H. apply IH in H. now rewrite Nat.add_succ_r.
Qed.

Lemma matchHere_sound (r : regex) prev rest n gs :
  wf r = true ->
  matchHere r prev rest = Some (n, gs) ->
  n <= length rest /\ Lang r (firstn n rest) /\
  forall i v, nth i gs None = Some v -> GroupLang r (S i) v.
Proof.
  intros W. unfold matchHere.
  destruct (run r (MState prev rest []) Some) as [s'|] eqn:E; [|discriminate].
  intros H; injection H as <- <-.
  apply (run_sound r W) in E. destruct E as (s1 & E & (w & Ew & Lw & Cw)).
  injection E as ->. simpl in Ew.
  rewrite Ew, app_length_suffix, firstn_app, Nat.sub_diag, firstn_all; simpl.
  rewrite app_nil_r. split; [rewrite length_app; lia|]. split; [exact Lw|].
  intros i v H. unfold groupList in H. apply nth_map_seq in H.
  destruct (Cw _ _ H) as [C|G]; [discriminate|exact G].
Qed.

Lemma searchFrom_sound (r : regex) (W : wf r = true) (rest : jsstring) :
  forall prev idx m,
    searchFrom r prev rest idx = Some m ->
    exists pre post, rest = pre ++ m_text m ++ post /\ m_index m = idx + length pre /\
      Lang r (m_text m) /\
      forall i v, capture (S i) m = Some v -> GroupLang r (S i) v.
Proof.
  induction rest as [|c t IH]; intros prev idx m; simpl.
  - destruct (matchHere r prev []) as [[n gs]|] eqn:E; [|discriminate].
    intros H; injection H as <-. apply (matchHere_sound r _ _ _ _ W) in E.
    destruct E as (Hn & L & C). exists [], []. simpl.
    repeat split; auto. now destruct n.
  - destruct (matchHere r prev (c :: t)) as [[n gs]|] eqn:E.
    + intros H; injection H as <-. apply (matchHere_sound r _ _ _ _ W) in E.
      destruct E as (Hn & L & C). exists [], (skipn n (c :: t)). simpl m_text.
      split; [simpl app; now rewrite firstn_skipn|]. split; [simpl; lia|]. split; auto.
    + intros H. apply IH in H. destruct H as (pre & post & E1 & E2 & L & C).
      exists (c :: pre), post. split; [simpl; now rewrite <- E1|].
      split; [simpl; lia|]. auto.
Qed.

Lemma exec_sound (r : regex) (s : jsstring) (m : mresult) :
  wf r = true -> exec r s = Some m -> matchOf r s m.
Proof.
  intros W H. apply (searchFrom_sound r W) in H.
  destruct H as (pre & post & E & Ei & L & C). simpl in Ei.
  unfold matchOf. rewrite Ei. repeat split; auto.
  - exists post. rewrite E at 2. rewrite firstn_app, Nat.sub_diag, firstn_all. simpl.
    now rewrite app_nil_r.
  - rewrite E, length_app. lia.
Qed.

Lemma scan_sound (r : regex) (W : wf r = true) (rest : jsstring) :
  forall prev idx skip,
    Forall (fun m => Lang r (m_text m) /\
                     (forall i v, capture (S i) m = Some v -> GroupLang r (S i) v))
           (scan r prev rest idx skip).
Proof.
  induction rest as [|c t IH]; intros prev idx skip; simpl.
  - destruct skip; [|constructor].
    destruct (matchHere r prev []) as [[n gs]|] eqn:E; [|constructor].
    constructor; [|constructor]. simpl.
    apply (matchHere_sound r _ _ _ _ W) in E. destruct E as (Hn & L & C). auto.
  - destruct skip; [|apply IH].
    destruct (matchHere r prev (c :: t)) as [[n gs]|] eqn:E; [|apply IH].
    constructor; [|apply IH]. simpl m_text.
    apply (matchHere_sound r _ _ _ _ W) in E. destruct E as (Hn & L & C). auto.
Qed.

Lemma matchAll_sound (r : regex) (s : jsstring) :
  wf r = true ->
  Forall (fun m => Lang r (m_text m) /\
                   (forall i v, capture (S i) m = Some v -> GroupLang r (S i) v))
         (matchAll r s).
Proof. intros W. now apply scan_sound. Qed.

Lemma Lang_strOf (l w : jsstring) : Lang (strOf l) w -> w = l.
Proof.
  revert w; induction l as [|c l IH]; intros w; simpl; [easy|].
  destruct l as [|c' l'].
  - simpl. intros (x & -> & Hx). apply N.eqb_eq in Hx. now subst.
  - intros (u & v & -> & (x & -> & Hx) & Hv). apply N.eqb_eq in Hx. subst.
    simpl. f_equal. now apply IH.
Qed.

Lemma Lang_rep_char (lo : nat) (hi : option nat) (c : cset) (w : jsstring) :
  Lang (Rep lo hi (Char c)) w ->
  forallb c w = true /\ lo <= length w /\ (forall h, hi = Some h -> length w <= h).
Proof.
  simpl. intros (ws & -> & F & Hlo & Hhi).
  assert (E : forallb c (concat ws) = true /\ length (concat ws) = length ws).
  { clear Hlo Hhi. induction F as [|x ws (y & -> & Hy) F IH]; simpl; [auto|].
    destruct IH as [IH1 IH2]. rewrite Hy, IH1, IH2. auto. }
  destruct E as [E1 E2]. rewrite E2. auto.
Qed.

Lemma Lang_char (c : cset) (w : jsstring) :
  Lang (Char c) w -> exists x, w = [x] /\ c x = true.
Proof. exact (fun H => H). Qed.

Lemma Lang_seq (a b : regex) (w : jsstring) :
  Lang (Seq a b) w -> exists u v, w = u ++ v /\ Lang a u /\ Lang b v.
Proof. exact (fun H => H). Qed.

(** ** Amount tokens *)

Lemma takeDigits_app (ds rest : jsstring) :
  forallb isDigit ds = true -> startsWithDigit rest = false ->
  Num.takeDigits (ds ++ rest) = (ds, rest).
Proof.
  intros Hd Hr. induction ds as [|c ds IH]; simpl.
  - now apply takeDigits_none.
  - simpl in Hd. apply andb_true_iff in Hd as [Hc Hd]. now rewrite Hc, (IH Hd).
Qed.

Lemma digit_code (c : cu) : isDigit c = true -> (48 <= c <= 57)%N.
Proof.
  unfold isDigit, between. intros H. apply andb_true_iff in H as [H1 H2].
  apply N.leb_le in H1, H2. lia.
Qed.

(** [parseFloat] on digits, a point and two digits. *)
Lemma parseFloat_fixed (ds : jsstring) (d1 d2 : cu) :
  forallb isDigit ds = true -> isDigit d1 = true -> isDigit d2 = true ->
  Num.parseFloat (ds ++ [46%N; d1; d2])
  = Num.ofDecimal (Num.digitsVal (ds ++ [d1; d2])) (-2).
Proof.
  intros Hds H1 H2.
  set (s := ds ++ [46%N; d1; d2]).
  assert (Hhead : exists c t, s = c :: t /\ isSpace c = false /\ chr "-" c = false /\
                              chr "+" c = false /\ (73 =? c)%N = false).
  { unfold s. destruct ds as [|c ds']; simpl.
    - exists 46%N, [d1; d2]. repeat split; reflexivity.
    - simpl in Hds. apply andb_true_iff in Hds as [Hc _].
      exists c, (ds' ++ [46%N; d1; d2]). split; [reflexivity|].
      split; [now apply digit_not_space|].
      split; [apply (digit_not_char "-" _ Hc); vm_compute; left; reflexivity|].
      split; [apply (digit_not_char "+" _ Hc); vm_compute; left; reflexivity|].
      apply digit_code in Hc. change ((73 =? c)%N = false). apply N.eqb_neq. lia. }
  destruct Hhead as (c & t & Es & Hsp & Hm & Hp & Hi).
  unfold Num.parseFloat, Str.trimStart. rewrite Es. cbn [Str.dropWhile]. rewrite Hsp.
  unfold Num.takeSign. rewrite Hm, Hp.
  change (lit "Infinity") with (73%N :: lit "nfinity"). cbn [Str.startsWith].
  rewrite Hi. cbn [andb]. rewrite <- Es. unfold s.
  rewrite takeDigits_app by (auto; reflexivity).
  change (chr "." 46%N) with true. cbv iota.
  replace (Num.takeDigits [d1; d2]) with ([d1; d2], @nil cu)
    by (simpl; now rewrite H1, H2).
  destruct (ds ++ [d1; d2]) as [|x l] eqn:E.
  - apply app_eq_nil in E as [_ E]. discriminate.
  - reflexivity.
Qed.

Lemma filter_all {A : Type} (f : A -> bool) (l : list A) :
  forallb f l = true -> filter f l = l.
Proof.
  induction l as [|x l IH]; simpl; [easy|]. intros H.
  apply andb_true_iff in H as [Hx Hl]. now rewrite Hx, IH.
Qed.

Lemma filter_none {A : Type} (f g : A -> bool) (l : list A) :
  forallb g l = true -> (forall x, g x = true -> f x = false) -> filter f l = [].
Proof.
  intros H Hfg. induction l as [|x l IH]; simpl; [easy|].
  simpl in H. apply andb_true_iff in H as [Hx Hl]. now rewrite (Hfg x Hx), IH.
Qed.

Lemma filter_same {A : Type} (f g h : A -> bool) (l : list A) :
  forallb h l = true -> (forall x, h x = true -> f x = g x) -> filter f l = filter g l.
Proof.
  intros H Hfg. induction l as [|x l IH]; simpl; [easy|].
  simpl in H. apply andb_true_iff in H as [Hx Hl]. now rewrite (Hfg x Hx), IH.
Qed.

Lemma digit_notSymbol (c : cu) : isDigit c = true -> notSymbol c = true.
Proof.
  intros H. pose proof (digit_not_space c H) as Hs. apply digit_code in H.
  unfold notSymbol, union, code, chr, ch, rupee, euro, pound, yen, won. rewrite Hs.
  repeat match goal with
         | |- context [(?a =? ?b)%N] => destruct (N.eqb_spec a b); [simpl in *; lia|]
         end.
  reflexivity.
Qed.

Lemma digit_notParen (c : cu) : isDigit c = true -> notParen c = true.
Proof.
  intros H. unfold notParen, union.
  rewrite (digit_not_char "(" _ H) by (vm_compute; left; reflexivity).
  now rewrite (digit_not_char ")" _ H) by (vm_compute; left; reflexivity).
Qed.

Lemma forallb_filter_self {A : Type} (f : A -> bool) (l : list A) :
  forallb f (filter f l) = true.
Proof.
  induction l as [|x l IH]; simpl; [easy|]. destruct (f x) eqn:E; simpl; [now rewrite E|easy].
Qed.

(** What [normalizeAmount] returns on an amount token: its digits as
    hundredths. *)
Lemma normalizeAmount_token (w : jsstring) :
  tokenShape w -> Normalize.normalizeAmount w = Some (centsOf w).
Proof.
  intros (pre & ds & d1 & d2 & -> & Hpre & Hds & H1 & H2).
  set (w := pre ++ ds ++ [46%N; d1; d2]).
  assert (Hne : w <> []).
  { unfold w. intros E. apply app_eq_nil in E as [_ E]. apply app_eq_nil in E as [_ E].
    discriminate. }
  set (body := filter isDigit ds ++ [46%N; d1; d2]).
  assert (Hs : stripped w = body).
  { rewrite stripped_filter. unfold w, body. rewrite !filter_app.
    rewrite (@filter_none N notSymbol _ pre Hpre).
    2:{ intros x Hx. unfold notSymbol. unfold union in *.
        apply orb_true_iff in Hx as [Hx|Hx];
          [apply orb_true_iff in Hx as [Hx|Hx]|]; rewrite Hx;
          rewrite ?orb_true_r; reflexivity. }
    rewrite (@filter_same N notSymbol isDigit _ ds Hds).
    2:{ intros x Hx. unfold union in Hx. apply orb_true_iff in Hx as [Hx|Hx].
        - now rewrite Hx, digit_notSymbol.
        - unfold chr in Hx. apply N.eqb_eq in Hx. subst x. reflexivity. }
    simpl. change (notSymbol 46%N) with true. cbv iota.
    now rewrite (digit_notSymbol _ H1), (digit_notSymbol _ H2). }
  assert (Hb : amountBody w = body).
  { unfold amountBody. rewrite Hs, replaceFirst_leadingMinus.
    unfold Normalize.parens. rewrite replaceAll_char_delete.
    change (fun x => negb ((chr "(" :|: chr ")") x)) with notParen.
    rewrite filter_all.
    2:{ unfold body. rewrite forallb_app. apply andb_true_iff. split.
        - rewrite (forallb_forall). intros x Hx. apply filter_In in Hx as [_ Hx].
          now apply digit_notParen.
        - simpl. now rewrite (digit_notParen _ H1), (digit_notParen _ H2). }
    unfold body. destruct (filter isDigit ds) as [|c t] eqn:E; [reflexivity|].
    assert (Hc : isDigit c = true).
    { pose proof (forallb_filter_self isDigit ds) as F. rewrite E in F. simpl in F.
      now apply andb_true_iff in F as [F _]. }
    simpl. now rewrite (digit_not_char "-" _ Hc) by (vm_compute; left; reflexivity). }
  assert (Hn : negativeMarked w = false).
  { unfold negativeMarked. rewrite Hs. unfold body.
    destruct (filter isDigit ds) as [|c t] eqn:E; [reflexivity|].
    assert (Hc : isDigit c = true).
    { pose proof (forallb_filter_self isDigit ds) as F. rewrite E in F. simpl in F.
      now apply andb_true_iff in F as [F _]. }
    apply digit_code in Hc.
    change (Str.startsWith (lit "(") ((c :: t) ++ [46%N; d1; d2])) with ((40 =? c)%N && true).
    change (Str.startsWith (lit "-") ((c :: t) ++ [46%N; d1; d2])) with ((45 =? c)%N && true).
    replace (40 =? c)%N with false by (symmetry; apply N.eqb_neq; lia).
    replace (45 =? c)%N with false by (symmetry; apply N.eqb_neq; lia).
    reflexivity. }
  assert (Hd : filter isDigit w = filter isDigit ds ++ [d1; d2]).
  { unfold w. rewrite !filter_app.
    rewrite (@filter_none N isDigit _ pre Hpre).
    2:{ intros x Hx. destruct (isDigit x) eqn:Dx; [|reflexivity]. exfalso.
        pose proof (digit_not_space _ Dx) as Sx. apply digit_code in Dx.
        unfold union, code, chr, ch, rupee in Hx. rewrite Sx in Hx.
        rewrite orb_false_r in Hx. apply orb_true_iff in Hx as [Hx|Hx];
          apply N.eqb_eq in Hx; simpl in Hx; lia. }
    simpl. now rewrite H1, H2. }
  rewrite normalizeAmount_unfold by exact Hne.
  rewrite Hb, Hn. unfold body.
  rewrite parseFloat_fixed by (auto using forallb_filter_self).
  rewrite ofDecimal_notnan.
  - unfold centsOf, Normalize.dec. now rewrite Hd.
  - apply digitsVal_bound. rewrite forallb_app, forallb_filter_self. simpl.
    now rewrite H1, H2.
Qed.

Lemma scan_forall (r : regex) (P : jsstring -> list (option jsstring) -> Prop) :
  (forall prev rest n gs, matchHere r prev rest = Some (n, gs) -> P (firstn n rest) gs) ->
  forall rest prev idx skip,
    Forall (fun m => P (m_text m) (m_groups m)) (scan r prev rest idx skip).
Proof.
  intros HP. induction rest as [|c t IH]; intros prev idx skip; simpl.
  - destruct skip; [|constructor].
    destruct (matchHere r prev []) as [[n gs]|] eqn:E; [|constructor].
    constructor; [|constructor]. simpl. now apply HP in E.
  - destruct skip; [|apply IH].
    destruct (matchHere r prev (c :: t)) as [[n gs]|] eqn:E; [|apply IH].
    constructor; [|apply IH]. now apply HP in E.
Qed.

(** The first capture of a pattern that is one group is the matched
    text. *)
Lemma matchHere_group_text (a : regex) prev rest n gs :
  wf a = true ->
  matchHere (Group 1 a) prev rest = Some (n, gs) ->
  nth 0 gs None = Some (firstn n rest).
Proof.
  intros W. unfold matchHere. cbn [run].
  match goal with
  | |- match run a ?s ?k with _ => _ end = _ -> _ =>
    destruct (run a s k) as [s'|] eqn:E; [|discriminate]
  end.
  apply (run_sound a W) in E. destruct E as (s1 & E & (w & Ew & _ & _)).
  injection E as <-. cbn [m_rest m_caps m_prev] in *.
  intros H; injection H as <- <-.
  unfold groupList, nGroups. cbn [groupsOf maxGroup].
  destruct (maxGroup (groupsOf a)); reflexivity.
Qed.

Lemma Lang_amountsRe (w : jsstring) : Lang TaxParser.amountsRe w -> tokenShape w.
Proof.
  unfold TaxParser.amountsRe, BankParser.rupeeOrDollar, sp0, opt, star, plus, times, dg, sp.
  intros (u1 & v1 & -> & L1 & (u2 & v2 & -> & L2 & (u3 & v3 & -> & L3 &
            (u4 & u5 & -> & L4 & L5)))).
  apply Lang_rep_char in L1 as (F1 & _ & _), L2 as (F2 & _ & _), L3 as (F3 & _ & _),
    L5 as (F5 & Lo5 & Hi5).
  apply Lang_strOf in L4. subst u4. specialize (Hi5 2 eq_refl).
  destruct u5 as [|d1 [|d2 [|d3 u5]]]; simpl in Lo5, Hi5; try lia.
  simpl in F5. apply andb_true_iff in F5 as [D1 D2]. apply andb_true_iff in D2 as [D2 _].
  exists (u1 ++ u2), u3, d1, d2. split; [now rewrite <- app_assoc|].
  split; [|auto].
  rewrite forallb_app. apply andb_true_iff. split.
  - rewrite forallb_forall in *. intros x Hx. unfold union at 1. now rewrite (F1 x Hx).
  - rewrite forallb_forall in *. intros x Hx. unfold union at 1. rewrite (F2 x Hx).
    apply orb_true_r.
Qed.

Lemma Lang_plainAmount (w : jsstring) : Lang BankParser.plainAmount w -> tokenShape w.
Proof.
  unfold BankParser.plainAmount, plus, times, dg.
  intros (u3 & v3 & -> & L3 & (u4 & u5 & -> & L4 & L5)).
  apply Lang_rep_char in L3 as (F3 & _ & _), L5 as (F5 & Lo5 & Hi5).
  apply Lang_strOf in L4. subst u4. specialize (Hi5 2 eq_refl).
  destruct u5 as [|d1 [|d2 [|d3 u5]]]; simpl in Lo5, Hi5; try lia.
  simpl in F5. apply andb_true_iff in F5 as [D1 D2]. apply andb_true_iff in D2 as [D2 _].
  exists [], u3, d1, d2. auto.
Qed.

Lemma centsOf_sign (tok : jsstring) :
  Num.isNaN (centsOf tok) = false /\ isNegative (centsOf tok) = false.
Proof.
  assert (N : Num.isNaN (centsOf tok) = false).
  { apply ofDecimal_notnan, digitsVal_bound, forallb_filter_self. }
  split; [exact N|].
  now destruct (signIs_false_compare _ (ofDecimal_sign _ _) N) as (H & _).
Qed.

Lemma matchAll_forall (r : regex) (P : jsstring -> list (option jsstring) -> Prop)
    (s : jsstring) :
  (forall prev rest n gs, matchHere r prev rest = Some (n, gs) -> P (firstn n rest) gs) ->
  forall m, In m (matchAll r s) -> P (m_text m) (m_groups m).
Proof.
  intros HP m Hm. pose proof (scan_forall r P HP s None 0 0) as F.
  rewrite Forall_forall in F. now apply F.
Qed.

Lemma rowAmounts_cents (line : jsstring) :
  BankParser.rowAmounts line
  = List.map (fun m => (Some (centsOf (m_text m)), m_index m))
      (matchAll BankParser.amtPattern line).
Proof.
  unfold BankParser.rowAmounts. apply map_ext_in. intros m Hm.
  apply (matchAll_forall BankParser.amtPattern
           (fun text gs => nth 0 gs None = Some text /\ tokenShape text)) in Hm.
  - destruct Hm as [Hc Ht]. unfold capture. cbn [pred]. rewrite Hc.
    now rewrite (normalizeAmount_token _ Ht).
  - intros prev rest n gs H. split.
    + now apply matchHere_group_text in H.
    + apply matchHere_sound in H; [|reflexivity]. destruct H as (_ & L & _).
      now apply Lang_amountsRe.
Qed.

Lemma heuristicAmounts_cents (line : jsstring) :
  BankParser.heuristicAmounts line
  = List.map (fun m => Some (centsOf (m_text m))) (matchAll BankParser.plainAmount line).
Proof.
  unfold BankParser.heuristicAmounts. apply map_ext_in. intros m Hm.
  apply (matchAll_forall BankParser.plainAmount (fun text _ => tokenShape text)) in Hm.
  - now rewrite (normalizeAmount_token _ Hm).
  - intros prev rest n gs H.
    apply matchHere_sound in H; [|reflexivity]. destruct H as (_ & L & _).
    now apply Lang_plainAmount.
Qed.

Lemma taxAmounts_cents (line : jsstring) :
  List.map (fun m => Normalize.normalizeAmount (m_text m)) (matchAll TaxParser.amountsRe line)
  = List.map (fun m => Some (centsOf (m_text m))) (matchAll TaxParser.amountsRe line).
Proof.
  apply map_ext_in. intros m Hm.
  apply (matchAll_forall TaxParser.amountsRe (fun text _ => tokenShape text)) in Hm.
  - now rewrite (normalizeAmount_token _ Hm).
  - intros prev rest n gs H.
    apply matchHere_sound in H; [|reflexivity]. destruct H as (_ & L & _).
    now apply Lang_amountsRe.
Qed.

(** X1 (bankParser.js, [parseTransactionRow] and
    [parseTransactionHeuristic]): every amount read from a line is the
    digits of its token taken as hundredths, a number that is neither
    NaN nor below zero: the patterns take no sign and no parenthesis
    into the token, so the amount of a row never comes out negative or
    null. *)
Theorem row_amounts_are_unsigned_tokens :
  forall line,
    BankParser.rowAmounts line
    = List.map (fun m => (Some (centsOf (m_text m)), m_index m))
        (matchAll BankParser.amtPattern line) /\
    BankParser.heuristicAmounts line
    = List.map (fun m => Some (centsOf (m_text m))) (matchAll BankParser.plainAmount line) /\
    (forall tok, Num.isNaN (centsOf tok) = false /\ isNegative (centsOf tok) = false).
Proof.
  intros line. split; [apply rowAmounts_cents|].
  split; [apply heuristicAmounts_cents|]. intros tok.
  assert (N : Num.isNaN (centsOf tok) = false).
  { apply ofDecimal_notnan, digitsVal_bound, forallb_filter_self. }
  split; [exact N|].
  now destruct (signIs_false_compare _ (ofDecimal_sign _ _) N) as (H & _).
Qed.

(** ** Lines *)

Lemma findLineFrom_spec (p : regex) (lines : list jsstring) : forall i,
  (findLineFrom lines p i = (-1)%Z <-> forall l, In l lines -> test p l = false) /\
  (forall k, findLineFrom lines p i = Z.of_nat (i + k) <->
     k < length lines /\ test p (nth k lines []) = true /\
     forall j, j < k -> test p (nth j lines []) = false).
Proof.
  induction lines as [|l lines IH]; intros i; simpl.
  - split; [easy|]. intros k. split; [lia|]. intros (H & _). lia.
  - destruct (test p l) eqn:E.
    + split.
      * split; [lia|]. intros H. specialize (H l (or_introl eq_refl)). congruence.
      * intros k. split.
        -- intros H. assert (k = 0) by lia. subst k. repeat split; auto; lia.
        -- intros (_ & Hk & Hj). destruct k as [|k]; [f_equal; lia|].
           specialize (Hj 0 (Nat.lt_0_succ k)). simpl in Hj. congruence.
    + destruct (IH (S i)) as [IH1 IH2]. split.
      * rewrite IH1. split.
        -- intros H x [<-|Hx]; auto.
        -- intros H x Hx. apply H. now right.
      * intros k. destruct k as [|k].
        -- split.
           ++ intros H. exfalso. clear IH1.
              assert (Hge : forall ls n, (findLineFrom ls p n = -1 \/
                                          Z.of_nat n <= findLineFrom ls p n)%Z).
              { induction ls as [|x ls IHls]; intros n; simpl; [auto|].
                destruct (test p x); [right; lia|].
                destruct (IHls (S n)); [auto|right; lia]. }
              destruct (Hge lines (S i)); lia.
           ++ intros (_ & Hk & _). simpl in Hk. congruence.
        -- replace (i + S k) with (S i + k) by lia. rewrite IH2. split.
           ++ intros (H1 & H2 & H3). repeat split; [lia|exact H2|].
              intros [|j] Hj; [exact E|]. apply H3. lia.
           ++ intros (H1 & H2 & H3). repeat split; [lia|exact H2|].
              intros j Hj. apply (H3 (S j)). lia.
Qed.


Lemma matchHere_lineBreak prev rest :
  matchHere Normalize.lineBreak prev rest =
  match rest with
  | c :: t =>
    if (c =? 10)%N then Some (1, [])
    else if (c =? 13)%N && headIn (code 10) t then Some (2, [])
    else None
  | [] => None
  end.
Proof.
  unfold matchHere, Normalize.lineBreak, opt.
  destruct rest as [|c t]; [reflexivity|].
  cbn [run m_rest m_prev m_caps Nat.add length repLoop groupsOf clearCaps filter
       Nat.eqb andb pred option_map].
  replace (length t =? S (length t)) with false by (symmetry; apply Nat.eqb_neq; lia).
  rewrite Nat.add_1_r. cbn [repLoop m_rest m_prev m_caps]. unfold code.
  destruct (N.eqb_spec c 13) as [->|N13].
  - change (13 =? 10)%N with false. cbn [andb].
    destruct t as [|d t]; [reflexivity|]. cbn [headIn].
    destruct (d =? 10)%N; [|reflexivity].
    cbn [m_rest length]. do 2 f_equal. lia.
  - cbn [andb]. destruct (c =? 10)%N; [|reflexivity].
    cbn [m_rest length]. do 2 f_equal. lia.
Qed.

Lemma dropWhile_head (p : cset) (s : jsstring) : headIn p (Str.dropWhile p s) = false.
Proof.
  induction s as [|c t IH]; simpl; [reflexivity|].
  destruct (p c) eqn:E; [exact IH|]. simpl. exact E.
Qed.

Lemma dropWhile_fixed (p : cset) (s : jsstring) : headIn p s = false -> Str.dropWhile p s = s.
Proof. destruct s as [|c t]; simpl; [reflexivity|]. now intros ->. Qed.

Lemma dropWhile_app_keep (p : cset) (a b : jsstring) (c : cu) :
  p c = false -> Str.dropWhile p (a ++ c :: b) = Str.dropWhile p a ++ c :: b.
Proof.
  intros Hc. induction a as [|x a IH]; simpl; [now rewrite Hc|].
  destruct (p x); [exact IH|reflexivity].
Qed.

Lemma dropWhile_length (p : cset) (s : jsstring) : length (Str.dropWhile p s) <= length s.
Proof.
  induction s as [|c t IH]; simpl; [lia|]. destruct (p c); simpl; lia.
Qed.

Lemma trimEnd_head (s : jsstring) :
  headIn isSpace s = false -> headIn isSpace (Str.trimEnd s) = false.
Proof.
  unfold Str.trimEnd. destruct s as [|c u]; [reflexivity|]. simpl. intros Hc.
  rewrite (dropWhile_app_keep isSpace (rev u) [] c Hc), rev_app_distr. simpl. exact Hc.
Qed.

Lemma trim_ends (s : jsstring) :
  headIn isSpace (Str.trim s) = false /\ headIn isSpace (rev (Str.trim s)) = false.
Proof.
  unfold Str.trim. split.
  - apply trimEnd_head. apply dropWhile_head.
  - unfold Str.trimEnd. rewrite rev_involutive. apply dropWhile_head.
Qed.

Lemma trim_fixed (s : jsstring) :
  headIn isSpace s = false -> headIn isSpace (rev s) = false -> Str.trim s = s.
Proof.
  intros H1 H2. unfold Str.trim, Str.trimStart, Str.trimEnd.
  rewrite (dropWhile_fixed _ _ H1), (dropWhile_fixed _ _ H2). apply rev_involutive.
Qed.

Lemma trim_idempotent (s : jsstring) : Str.trim (Str.trim s) = Str.trim s.
Proof. destruct (trim_ends s). now apply trim_fixed. Qed.

Lemma trimmed_ends (s : jsstring) :
  Str.trim s = s -> headIn isSpace s = false /\ headIn isSpace (rev s) = false.
Proof. intros E. rewrite <- E. apply trim_ends. Qed.

Lemma In_dropWhile (p : cset) (x : cu) (s : jsstring) : In x (Str.dropWhile p s) -> In x s.
Proof.
  induction s as [|c t IH]; simpl; [easy|]. destruct (p c); [auto|]. now simpl.
Qed.

Lemma In_trim (x : cu) (s : jsstring) : In x (Str.trim s) -> In x s.
Proof.
  unfold Str.trim, Str.trimEnd, Str.trimStart. intros H.
  apply In_rev in H. apply In_dropWhile in H. apply In_rev in H.
  now apply In_dropWhile in H.
Qed.

(** The pieces that [split] cuts at the line breaks hold no line feed. *)
Lemma splitGo_lineBreak_noLF (rest : jsstring) : forall prev skip cur,
  ~ In 10%N cur ->
  Forall (fun piece => ~ In 10%N piece) (splitGo Normalize.lineBreak prev rest skip cur).
Proof.
  induction rest as [|c t IH]; intros prev skip cur Hcur; simpl.
  - destruct skip; constructor; auto; now rewrite <- In_rev.
  - destruct skip as [|n]; [|now apply IH].
    rewrite matchHere_lineBreak.
    destruct (N.eqb_spec c 10) as [->|Hc].
    + constructor; [now rewrite <- In_rev|]. now apply IH.
    + destruct ((c =? 13)%N && headIn (code 10) t).
      * constructor; [now rewrite <- In_rev|]. now apply IH.
      * apply IH. simpl. intros [E|E]; [congruence|auto].
Qed.

Lemma In_getLines (text l : jsstring) :
  In l (Normalize.getLines text) ->
  exists piece, In piece (split Normalize.lineBreak text) /\ l = Str.trim piece /\ l <> [].
Proof.
  unfold Normalize.getLines. rewrite filter_In, in_map_iff.
  intros ((piece & <- & Hp) & Hne). exists piece. repeat split; auto.
  now destruct (Str.trim piece).
Qed.

(** X3 (normalize.js, [getLines]): every line returned is non-empty,
    has no white space at either end (trimming it again changes
    nothing) and holds no line feed. *)
Theorem getLines_lines_are_trimmed :
  forall text l,
    In l (Normalize.getLines text) ->
    l <> [] /\ Str.trim l = l /\ ~ In 10%N l.
Proof.
  intros text l H. apply In_getLines in H. destruct H as (piece & Hp & -> & Hne).
  split; [exact Hne|]. split; [apply trim_idempotent|].
  intros Hin. apply In_trim in Hin.
  pose proof (splitGo_lineBreak_noLF text None 0 [] (fun F => F)) as F.
  rewrite Forall_forall in F. exact (F piece Hp Hin).
Qed.

Lemma getLines_lines_are_trimmed_witness :
  Normalize.getLines (lit "  Date " ++ [13%N; 10%N; 10%N] ++ lit " Balance  ")
  = [lit "Date"; lit "Balance"] /\
  lit "Balance" <> [] /\ Str.trim (lit "Balance") = lit "Balance" /\
  ~ In 10%N (lit "Balance").
Proof.
  split; [vm_compute; reflexivity|].
  apply (getLines_lines_are_trimmed
           (lit "  Date " ++ [13%N; 10%N; 10%N] ++ lit " Balance  ") (lit "Balance")).
  vm_compute. right. left. reflexivity.
Defined.

Lemma headIn_rev_cons (p : cset) (c : cu) (l : jsstring) :
  headIn p (rev (c :: l)) = false -> headIn p (rev l) = false.
Proof.
  simpl. destruct (rev l) as [|x r]; [reflexivity|]. simpl. auto.
Qed.

Lemma splitGo_line (l : jsstring) : forall prev cur rest,
  ~ In 10%N l -> headIn (code 13) (rev l) = false ->
  splitGo Normalize.lineBreak prev (l ++ 10%N :: rest) 0 cur
  = (rev cur ++ l) :: splitGo Normalize.lineBreak (Some 10%N) rest 0 [].
Proof.
  induction l as [|c l IH]; intros prev cur rest Hl Hlast.
  - cbn [app splitGo]. rewrite matchHere_lineBreak.
    change (10 =? 10)%N with true. cbv iota. now rewrite app_nil_r.
  - change ((c :: l) ++ 10%N :: rest) with (c :: (l ++ 10%N :: rest)).
    cbn [splitGo]. rewrite matchHere_lineBreak.
    destruct (N.eqb_spec c 10) as [->|Hc]; [exfalso; apply Hl; now left|].
    assert (E : (c =? 13)%N && headIn (code 10) (l ++ 10%N :: rest) = false).
    { destruct l as [|y l'].
      - simpl in Hlast. unfold code in Hlast. now rewrite Hlast.
      - simpl. unfold code. destruct (N.eqb_spec y 10) as [->|];
          [exfalso; apply Hl; right; now left|apply andb_false_r]. }
    rewrite E. rewrite IH.
    + simpl. now rewrite <- app_assoc.
    + intros H. apply Hl. now right.
    + now apply headIn_rev_cons in Hlast.
Qed.

Lemma splitGo_last (l : jsstring) : forall prev cur,
  ~ In 10%N l ->
  splitGo Normalize.lineBreak prev l 0 cur = [rev cur ++ l].
Proof.
  induction l as [|c l IH]; intros prev cur Hl.
  - simpl. now rewrite app_nil_r.
  - cbn [splitGo]. rewrite matchHere_lineBreak.
    destruct (N.eqb_spec c 10) as [->|Hc]; [exfalso; apply Hl; now left|].
    assert (E : (c =? 13)%N && headIn (code 10) l = false).
    { destruct l as [|y l']; [apply andb_false_r|].
      simpl. unfold code. destruct (N.eqb_spec y 10) as [->|];
        [exfalso; apply Hl; right; now left|apply andb_false_r]. }
    rewrite E, IH by (intros H; apply Hl; now right).
    simpl. now rewrite <- app_assoc.
Qed.

Lemma code13_space (c : cu) : code 13 c = true -> isSpace c = true.
Proof. unfold code. intros H. apply N.eqb_eq in H. now subst. Qed.

Lemma headIn_weaken (p q : cset) (s : jsstring) :
  (forall c, p c = true -> q c = true) -> headIn q s = false -> headIn p s = false.
Proof.
  intros Hpq. destruct s as [|c t]; [reflexivity|]. simpl. intros Hq.
  destruct (p c) eqn:E; [|reflexivity]. apply Hpq in E. congruence.
Qed.

Lemma split_join_lines (ls : list jsstring) : forall l prev,
  (forall x, In x (l :: ls) -> Str.trim x = x /\ ~ In 10%N x) ->
  splitGo Normalize.lineBreak prev (Str.join [10%N] (l :: ls)) 0 [] = l :: ls.
Proof.
  induction ls as [|l2 ls IH]; intros l prev H.
  - simpl. apply splitGo_last. now apply (H l (or_introl eq_refl)).
  - change (Str.join [10%N] (l :: l2 :: ls)) with (l ++ 10%N :: Str.join [10%N] (l2 :: ls)).
    destruct (H l (or_introl eq_refl)) as [Ht Hn].
    rewrite splitGo_line; auto.
    + simpl app. f_equal. apply IH. intros x Hx. apply H. now right.
    + apply (headIn_weaken (code 13) isSpace); [exact code13_space|].
      now apply trimmed_ends.
Qed.

(** X4 (normalize.js, [getLines]): lines that are non-empty, trimmed
    and free of line feeds come back unchanged when they are joined by
    line feeds and split again. *)
Theorem getLines_of_joined_lines :
  forall ls,
    (forall l, In l ls -> l <> [] /\ Str.trim l = l /\ ~ In 10%N l) ->
    Normalize.getLines (Str.join [10%N] ls) = ls.
Proof.
  intros ls H. unfold Normalize.getLines, split.
  destruct ls as [|l ls]; [reflexivity|].
  rewrite split_join_lines by (intros x Hx; destruct (H x Hx) as (_ & A & B); auto).
  assert (Hm : List.map Str.trim (l :: ls) = l :: ls).
  { rewrite <- (map_id (l :: ls)) at 2. apply map_ext_in.
    intros x Hx. now destruct (H x Hx) as (_ & A & _). }
  apply (f_equal (filter Normalize.nonEmpty)) in Hm. etransitivity; [exact Hm|].
  apply filter_all. rewrite forallb_forall. intros x Hx.
  destruct (H x Hx) as (A & _). now destruct x.
Qed.

Lemma getLines_of_joined_lines_witness :
  Normalize.getLines (Str.join [10%N] [lit "Date  Debit"; lit "01/01/2024 5.00"])
  = [lit "Date  Debit"; lit "01/01/2024 5.00"].
Proof.
  apply (getLines_of_joined_lines [lit "Date  Debit"; lit "01/01/2024 5.00"]).
  intros l [<-|[<-|[]]]; (split; [discriminate|]); (split; [reflexivity|]);
    vm_compute; intuition discriminate.
Defined.

(** ** The OCR clean-up: what the cleaned text looks like *)

Lemma subst1_length (r : regex) (b : cu) (s : jsstring) : forall prev,
  length (subst1 r b prev s) = length s.
Proof. induction s as [|c t IH]; intros prev; simpl; [reflexivity|]. now rewrite IH. Qed.

Lemma collapse_length (p : cset) (b : cu) (s : jsstring) : forall inRun,
  length (collapse p b inRun s) <= length s.
Proof.
  induction s as [|c t IH]; intros inRun; [simpl; lia|].
  cbn [collapse]. destruct (p c).
  - destruct inRun.
    + specialize (IH true). simpl. lia.
    + destruct (2 <=? spanLen p None (c :: t)).
      * specialize (IH true). simpl. lia.
      * specialize (IH false). simpl. lia.
  - specialize (IH false). simpl. lia.
Qed.

(** X5 (normalize.js, [cleanOCRArtifacts]): the cleaned text is never
    longer than the text; it holds no run of two or more bars, no two
    neighbouring white-space units, and no I at a word start before a
    digit. *)
Theorem cleanOCRArtifacts_result :
  forall text,
    let cleaned := Normalize.cleanOCRArtifacts text in
    length cleaned <= length text /\
    test Normalize.pipes cleaned = false /\
    test Normalize.spaces2 cleaned = false /\
    test Normalize.eyeBeforeDigit cleaned = false.
Proof.
  intros text cleaned. split.
  - unfold cleaned. rewrite cleanOCRArtifacts_steps.
    eapply Nat.le_trans; [apply collapse_length|].
    rewrite !subst1_length. apply collapse_length.
  - split; [apply cleaned_has_no_pipes|].
    split; [apply cleaned_has_no_spaces|apply cleaned_has_no_eye].
Qed.

Lemma besideSpace_mono (s : jsstring) (b : bool) :
  besideSpace b s = true -> besideSpace true s = true.
Proof.
  destruct s as [|c t]; [reflexivity|]. simpl. intros H.
  apply andb_true_iff in H as [_ H]. rewrite H. now rewrite orb_true_r.
Qed.

Lemma collapse_head_other (p q : cset) (b : cu) (s : jsstring) :
  (forall c, q c = true -> p c = false) ->
  headIn q s = true -> headIn q (collapse p b false s) = true.
Proof.
  intros Hpq. destruct s as [|c t]; [discriminate|]. simpl. intros Hc.
  rewrite (Hpq c Hc). simpl. exact Hc.
Qed.

Lemma pipe_not_space (c : cu) : isSpace c = true -> chr "|" c = false.
Proof. exact (space_not_pipe c). Qed.

Lemma pipe_not_LF (c : cu) : chr "|" c = true -> (c =? 10)%N = false /\ isSpace c = false.
Proof.
  unfold chr. intros H. apply N.eqb_eq in H. subst c. split; reflexivity.
Qed.

Lemma besideSpace_pipes (s : jsstring) :
  (forall b, besideSpace b s = true ->
             besideSpace b (collapse (chr "|") 32%N false s) = true) /\
  (forall b, besideSpace b s = true ->
             besideSpace true (collapse (chr "|") 32%N true s) = true).
Proof.
  induction s as [|c t [IH1 IH2]]; [split; reflexivity|].
  split; intros b H; cbn [collapse besideSpace] in *;
    apply andb_true_iff in H as [Hc Ht].
  - destruct (chr "|" c) eqn:Pc.
    + destruct (pipe_not_LF c Pc) as [Lc Sc]. rewrite Sc in Ht.
      destruct (2 <=? spanLen (chr "|") None (c :: t)).
      * cbn [besideSpace]. change (isSpace 32%N) with true.
        rewrite (IH2 _ Ht). reflexivity.
      * cbn [besideSpace]. rewrite Lc, Sc. cbn [negb orb andb]. now apply IH1.
    + cbn [besideSpace]. rewrite (IH1 _ Ht), andb_true_r.
      destruct (negb (c =? 10)%N); [reflexivity|]. destruct b; [reflexivity|].
      cbn [orb] in *. apply collapse_head_other; [exact pipe_not_space|exact Hc].
  - destruct (chr "|" c) eqn:Pc.
    + now apply (IH2 (isSpace c)).
    + cbn [besideSpace]. rewrite (IH1 _ Ht). now rewrite orb_true_r.
Qed.

Lemma besideSpace_subst1 (r : regex) (b : cu) (s : jsstring) :
  isSpace b = false ->
  (forall prev c t, hit r prev (c :: t) = true -> isSpace c = false) ->
  forall prev bs, besideSpace bs (subst1 r b prev s) = besideSpace bs s.
Proof.
  intros Hb Hr. induction s as [|c t IH]; intros prev bs; [reflexivity|].
  cbn [subst1 besideSpace].
  assert (Hh : headIn isSpace (subst1 r b (Some c) t) = headIn isSpace t).
  { destruct t as [|d t']; [reflexivity|]. cbn [subst1 headIn].
    destruct (hit r (Some c) (d :: t')) eqn:E; [|reflexivity].
    now rewrite Hb, (Hr _ _ _ E). }
  rewrite Hh, IH.
  destruct (hit r prev (c :: t)) eqn:E; [|reflexivity].
  rewrite Hb, (Hr _ _ _ E).
  assert (Hb10 : (b =? 10)%N = false).
  { destruct (N.eqb_spec b 10) as [->|]; [discriminate|reflexivity]. }
  assert (Hc10 : (c =? 10)%N = false).
  { pose proof (Hr _ _ _ E) as Sc. destruct (N.eqb_spec c 10) as [->|]; [discriminate|reflexivity]. }
  now rewrite Hb10, Hc10.
Qed.

Lemma LF_space (c : cu) : isSpace c = false -> c <> 10%N.
Proof. intros H ->. discriminate. Qed.

Lemma noLF_collapse_spaces (s : jsstring) :
  (forall b, besideSpace b s = true -> (b = true -> headIn isSpace s = false) ->
             ~ In 10%N (collapse isSpace 32%N false s)) /\
  (forall b, besideSpace b s = true -> ~ In 10%N (collapse isSpace 32%N true s)).
Proof.
  induction s as [|c t [IH1 IH2]]; [split; intros; simpl; tauto|].
  split; intros b H; cbn [collapse besideSpace] in *;
    apply andb_true_iff in H as [Hc Ht].
  - intros Hb. cbn [headIn] in Hb. destruct (isSpace c) eqn:Sc.
    + rewrite (spanLen_head isSpace c t Sc).
      assert (Eb : b = false) by (destruct b; [now specialize (Hb eq_refl)|reflexivity]).
      subst b. destruct (headIn isSpace t) eqn:Ht'.
      * intros [E|E]; [discriminate|]. exact (IH2 _ Ht E).
      * rewrite !orb_false_r in Hc. apply negb_true_iff in Hc.
        intros [E|E]; [subst c; discriminate|].
        exact (IH1 _ Ht (fun _ => eq_refl) E).
    + intros [E|E]; [now apply (LF_space c Sc)|].
      exact (IH1 _ Ht (fun F => ltac:(discriminate F)) E).
  - destruct (isSpace c) eqn:Sc.
    + exact (IH2 _ Ht).
    + intros [E|E]; [now apply (LF_space c Sc)|].
      exact (IH1 _ Ht (fun F => ltac:(discriminate F)) E).
Qed.

Lemma letter_not_space (a : ascii) (c : cu) :
  isSpace (ch a) = false -> chr a c = true -> isSpace c = false.
Proof. unfold chr. intros Ha H. apply N.eqb_eq in H. now subst c. Qed.

(** X6 (normalize.js, [cleanOCRArtifacts] followed by [getLines]): the
    last step of the clean-up replaces every run of two or more
    white-space units by one blank, and a line feed is white space; so
    when every line feed of a text has white space next to it (as in a
    text with CR LF line ends, or with blank lines only), the cleaned
    text holds no line feed and [getLines] returns at most one line. *)
Theorem line_feeds_beside_white_space_are_lost :
  forall text,
    besideSpace false text = true ->
    let cleaned := Normalize.cleanOCRArtifacts text in
    ~ In 10%N cleaned /\
    Normalize.getLines cleaned = filter Normalize.nonEmpty [Str.trim cleaned] /\
    length (Normalize.getLines cleaned) <= 1.
Proof.
  intros text H cleaned.
  assert (Hno : ~ In 10%N cleaned).
  { unfold cleaned. rewrite cleanOCRArtifacts_steps.
    apply (proj1 (noLF_collapse_spaces _) false); [|discriminate].
    rewrite !besideSpace_subst1; try reflexivity.
    - now apply (proj1 (besideSpace_pipes text)).
    - intros prev c t E. apply hit_letter_is in E.
      now apply (letter_not_space "l" c eq_refl).
    - intros prev c t E. apply hit_letter_is in E.
      now apply (letter_not_space "O" c eq_refl).
    - intros prev c t E. apply hit_eye_is in E.
      now apply (letter_not_space "I" c eq_refl). }
  assert (Hl : Normalize.getLines cleaned = filter Normalize.nonEmpty [Str.trim cleaned]).
  { unfold Normalize.getLines, split. now rewrite splitGo_last. }
  split; [exact Hno|]. split; [exact Hl|].
  rewrite Hl. simpl. destruct (Normalize.nonEmpty _); simpl; lia.
Qed.

Lemma line_feeds_beside_white_space_are_lost_witness :
  Normalize.getLines (Normalize.cleanOCRArtifacts
    (lit "Date Debit" ++ [13%N; 10%N] ++ lit "01/01/2024 5.00" ++ [13%N; 10%N]))
  = [lit "Date Debit 01/01/2024 5.00"].
Proof.
  destruct (line_feeds_beside_white_space_are_lost
              (lit "Date Debit" ++ [13%N; 10%N] ++ lit "01/01/2024 5.00" ++ [13%N; 10%N])
              eq_refl) as (_ & E & _).
  rewrite E. vm_compute. reflexivity.
Defined.

(** ** Confidence values *)

Lemma sameNumber_eq (x y : Num.number) : sameNumber x y = true -> x = y.
Proof.
  destruct x as [a|a| |a m e], y as [b|b| |b m' e']; simpl; try discriminate; auto.
  - intros H. apply eqb_prop in H. now subst.
  - intros H. apply eqb_prop in H. now subst.
  - intros H. apply andb_true_iff in H as [H He]. apply andb_true_iff in H as [Ha Hm].
    apply eqb_prop in Ha. apply Pos.eqb_eq in Hm. apply Z.eqb_eq in He. now subst.
Qed.

Lemma isHundredfold_spec (lo hi : Z) (r : Num.number) :
  isHundredfold lo hi r = true -> exists k, (lo <= k <= hi)%Z /\ r = Num.ofZ k.
Proof.
  unfold isHundredfold. intros H.
  apply andb_true_iff in H as [H He]. apply andb_true_iff in H as [H1 H2].
  apply Z.leb_le in H1, H2. apply sameNumber_eq in He.
  exists (toZ r). auto.
Qed.

Lemma forallb_seq (f : nat -> bool) (a n : nat) :
  forallb f (seq a n) = true -> forall k, a <= k < a + n -> f k = true.
Proof.
  intros H k Hk. rewrite forallb_forall in H. apply H. apply in_seq. lia.
Qed.

Lemma forallb_zseq (f : Z -> bool) (a n : nat) :
  forallb f (zseq a n) = true ->
  forall k, (Z.of_nat a <= k < Z.of_nat (a + n))%Z -> f k = true.
Proof.
  intros H k Hk. rewrite forallb_forall in H. apply H.
  unfold zseq. apply in_map_iff. exists (Z.to_nat k). split; [lia|].
  apply in_seq. lia.
Qed.

Lemma verdictRound_table :
  forallb (fun w => forallb (fun l => isHundredfold 47 99 (verdictRound w l)) (seq 0 (S w)))
          (seq 8 80) = true.
Proof. vm_compute. reflexivity. Qed.

Lemma verdictRound_range (w l : nat) :
  8 <= w <= 87 -> l <= w ->
  exists k, (47 <= k <= 99)%Z /\ verdictRound w l = Num.ofZ k.
Proof.
  intros Hw Hl. apply isHundredfold_spec.
  pose proof (forallb_seq _ _ _ verdictRound_table w ltac:(lia)) as H.
  cbv beta in H. apply (forallb_seq _ _ _ H l). lia.
Qed.

Lemma calcRound_table :
  forallb (fun f => forallb (fun r => isHundredfold 0 100 (calcRound f 11 r 3)) (seq 0 4))
          (seq 0 12) = true /\
  forallb (fun f => forallb (fun r => isHundredfold 0 100 (calcRound f 8 r 3)) (seq 0 4))
          (seq 0 9) = true.
Proof. split; vm_compute; reflexivity. Qed.

Lemma calcRound_range (f total r : nat) :
  total = 11 \/ total = 8 -> f <= total -> r <= 3 ->
  exists j, (0 <= j <= 100)%Z /\ calcRound f total r 3 = Num.ofZ j.
Proof.
  intros Ht Hf Hr. apply isHundredfold_spec. destruct calcRound_table as [T11 T8].
  destruct Ht as [-> | ->].
  - pose proof (forallb_seq _ _ _ T11 f ltac:(lia)) as H. cbv beta in H.
    apply (forallb_seq _ _ _ H r). lia.
  - pose proof (forallb_seq _ _ _ T8 f ltac:(lia)) as H. cbv beta in H.
    apply (forallb_seq _ _ _ H r). lia.
Qed.

Lemma floor_table :
  forallb (fun j =>
      sameNumber (Num.max (hundredth j) (Normalize.dec 5 (-1))) (hundredth (Z.max j 50)) &&
      sameNumber (Num.max (hundredth j) (Normalize.dec 1 (-1))) (hundredth (Z.max j 10)))
    (zseq 0 101) = true.
Proof. vm_compute. reflexivity. Qed.

Lemma floor_max (j : Z) :
  (0 <= j <= 100)%Z ->
  Num.max (hundredth j) (Normalize.dec 5 (-1)) = hundredth (Z.max j 50) /\
  Num.max (hundredth j) (Normalize.dec 1 (-1)) = hundredth (Z.max j 10).
Proof.
  intros Hj. pose proof (forallb_zseq _ _ _ floor_table j ltac:(lia)) as H.
  cbv beta in H. apply andb_true_iff in H as [H1 H2].
  split; now apply sameNumber_eq.
Qed.

Lemma hundredth_table :
  forallb (fun j =>
      Num.leb (Num.ofZ 0) (hundredth j) && Num.leb (hundredth j) (Num.ofZ 1) &&
      (if (10 <=? j)%Z then Num.leb (Normalize.dec 1 (-1)) (hundredth j) else true) &&
      (if (47 <=? j)%Z then Num.leb (Normalize.dec 47 (-2)) (hundredth j) else true) &&
      (if (50 <=? j)%Z then Num.leb (Normalize.dec 5 (-1)) (hundredth j) else true) &&
      (if (j <=? 99)%Z then Num.leb (hundredth j) (Normalize.dec 99 (-2)) else true))
    (zseq 0 101) = true.
Proof. vm_compute. reflexivity. Qed.

Lemma hundredth_order (j : Z) :
  (0 <= j <= 100)%Z ->
  Num.leb (Num.ofZ 0) (hundredth j) = true /\ Num.leb (hundredth j) (Num.ofZ 1) = true /\
  ((10 <= j)%Z -> Num.leb (Normalize.dec 1 (-1)) (hundredth j) = true) /\
  ((47 <= j)%Z -> Num.leb (Normalize.dec 47 (-2)) (hundredth j) = true) /\
  ((50 <= j)%Z -> Num.leb (Normalize.dec 5 (-1)) (hundredth j) = true) /\
  ((j <= 99)%Z -> Num.leb (hundredth j) (Normalize.dec 99 (-2)) = true).
Proof.
  intros Hj. pose proof (forallb_zseq _ _ _ hundredth_table j ltac:(lia)) as H.
  cbv beta in H. repeat (apply andb_true_iff in H as [H ?]).
  repeat split; auto; intros Hb;
    match goal with
    | X : (if (?a <=? ?b)%Z then _ else true) = true |- _ =>
      let E := fresh in
      destruct (Z.leb_spec a b) as [E|E]; [exact X|lia]
    end.
Qed.

(** ** The verdict of the classifier *)

Lemma contribution_le (text : jsstring) (k : Classifier.keyword) :
  Classifier.contribution text k <= maxContribution k.
Proof.
  rewrite contribution_by_groups. unfold maxContribution.
  destruct (test _ text); simpl; lia.
Qed.

Lemma scoreText_le (text : jsstring) (keywords : list Classifier.keyword) :
  Classifier.scoreText text keywords <= maxScore keywords.
Proof.
  unfold Classifier.scoreText, maxScore.
  assert (H : forall acc, fold_left (fun score k => score + Classifier.contribution text k)
                            keywords acc
                          <= acc + list_sum (List.map maxContribution keywords)).
  { induction keywords as [|k ks IH]; intros acc; simpl; [lia|].
    specialize (IH (acc + Classifier.contribution text k)).
    pose proof (contribution_le text k). lia. }
  apply (H 0).
Qed.

Lemma scores_bounded (text : jsstring) :
  Classifier.scoreText text Classifier.BANK_KEYWORDS <= 62 /\
  Classifier.scoreText text Classifier.TAX_KEYWORDS <= 77.
Proof.
  split.
  - eapply Nat.le_trans; [apply scoreText_le|]. vm_compute. lia.
  - eapply Nat.le_trans; [apply scoreText_le|]. vm_compute. lia.
Qed.

(** The verdict in terms of the two totals. *)
Lemma classifyDocument_cases (text filename : jsstring) :
  let v := Classifier.classifyDocument text filename in
  (v = Classifier.Verdict Classifier.unknown (Num.ofZ 0) None) \/
  exists b t k,
    8 <= Nat.max b t /\ b <= 72 /\ t <= 87 /\ (47 <= k <= 99)%Z /\
    v = Classifier.Verdict
          (if t <=? b then Classifier.bank_statement else Classifier.tax_statement)
          (hundredth k) (Some (b, t)).
Proof.
  unfold Classifier.classifyDocument.
  destruct (scores_bounded text) as [Hb Ht].
  set (bank := Classifier.scoreText text Classifier.BANK_KEYWORDS
               + (if test Classifier.bankName (Str.toLowerCase filename) then 10 else 0)).
  set (tax := Classifier.scoreText text Classifier.TAX_KEYWORDS
              + (if test Classifier.taxName (Str.toLowerCase filename) then 10 else 0)).
  assert (Hbank : bank <= 72)
    by (unfold bank; destruct (test Classifier.bankName _); lia).
  assert (Htax : tax <= 87)
    by (unfold tax; destruct (test Classifier.taxName _); lia).
  cbv zeta. destruct (Nat.ltb_spec (Nat.max bank tax) 8) as [Hlt|Hge]; [left; reflexivity|].
  right. exists bank, tax.
  destruct (Nat.leb_spec tax bank) as [Hle|Hgt].
  - change (Num.round _) with (verdictRound bank tax).
    destruct (verdictRound_range bank tax ltac:(lia) Hle) as (k & Hk & ->).
    exists k. repeat split; auto; lia.
  - change (Num.round _) with (verdictRound tax bank).
    destruct (verdictRound_range tax bank ltac:(lia) ltac:(lia)) as (k & Hk & ->).
    exists k. repeat split; auto; lia.
Qed.

(** X7 (classifier.js, [classifyDocument]): an unknown verdict carries
    confidence 0 and no scores; any other verdict carries a confidence
    between 0.47 and 0.99 and the two totals, of which the larger is at
    least 8, the bank total is at most 72 and the tax total at most 87;
    the verdict is bank exactly when the tax total does not exceed the
    bank total, so a tie goes to the bank statement. *)
Theorem classifyDocument_verdict :
  forall text filename,
    let v := Classifier.classifyDocument text filename in
    match Classifier.documentType v with
    | Classifier.unknown =>
      Classifier.confidence v = Num.ofZ 0 /\ Classifier.scores v = None
    | _ =>
      Num.leb (Normalize.dec 47 (-2)) (Classifier.confidence v) = true /\
      Num.leb (Classifier.confidence v) (Normalize.dec 99 (-2)) = true /\
      exists b t,
        Classifier.scores v = Some (b, t) /\ 8 <= Nat.max b t /\ b <= 72 /\ t <= 87 /\
        (Classifier.documentType v = Classifier.bank_statement <-> t <= b)
    end.
Proof.
  intros text filename v.
  destruct (classifyDocument_cases text filename) as [E|(b & t & k & Hm & Hb & Ht & Hk & E)];
    fold v in E; rewrite E; [simpl; auto|].
  destruct (hundredth_order k ltac:(lia)) as (_ & _ & _ & H47 & _ & H99).
  destruct (Nat.leb_spec t b) as [Hle|Hgt]; cbn [Classifier.documentType
    Classifier.confidence Classifier.scores].
  - split; [apply H47; lia|]. split; [apply H99; lia|].
    exists b, t. repeat split; auto.
  - split; [apply H47; lia|]. split; [apply H99; lia|].
    exists b, t. repeat split; auto; [discriminate|lia].
Qed.

(** ** The results of the two extractors *)

Lemma calcConfidence_counts (fields : list (string * Normalize.value)) (required : list string) :
  fields <> [] ->
  Normalize.calcConfidence fields required =
  Num.div
    (calcRound
       (length (filter (fun k => Normalize.isFilled (Normalize.lookup k fields))
                       (List.map fst fields)))
       (length fields)
       (length (filter (fun k => Normalize.isFilled (Normalize.lookup k fields)) required))
       (length required))
    (Num.ofZ 100).
Proof.
  intros H. unfold Normalize.calcConfidence, calcRound.
  destruct fields as [|p fields]; [congruence|].
  cbn [List.map]. now rewrite <- (length_map fst (p :: fields)).
Qed.

Lemma filter_length_le {A : Type} (f : A -> bool) (l : list A) :
  length (filter f l) <= length l.
Proof. induction l as [|x l IH]; simpl; [lia|]. destruct (f x); simpl; lia. Qed.

Lemma header_confidence (fields : list (string * Normalize.value)) (required : list string) :
  length fields = 11 \/ length fields = 8 -> length required = 3 ->
  exists j, (0 <= j <= 100)%Z /\ Normalize.calcConfidence fields required = hundredth j.
Proof.
  intros Hf Hr.
  rewrite calcConfidence_counts by (intros ->; simpl in Hf; lia).
  rewrite Hr.
  destruct (calcRound_range
              (length (filter (fun k => Normalize.isFilled (Normalize.lookup k fields))
                              (List.map fst fields)))
              (length fields)
              (length (filter (fun k => Normalize.isFilled (Normalize.lookup k fields))
                              required)) Hf) as (j & Hj & E).
  - eapply Nat.le_trans; [apply filter_length_le|]. now rewrite length_map.
  - rewrite <- Hr. apply filter_length_le.
  - exists j. split; [exact Hj|]. now rewrite E.
Qed.

Lemma floor_confidence (fields : list (string * Normalize.value)) (required : list string)
    (n : nat) :
  length fields = 11 \/ length fields = 8 -> length required = 3 ->
  let conf := Num.max (Normalize.calcConfidence fields required)
                      (if 0 <? n then Normalize.dec 5 (-1) else Normalize.dec 1 (-1)) in
  exists j, ((if (0 <? n)%nat then 50 else 10) <= j <= 100)%Z /\ conf = hundredth j.
Proof.
  intros Hf Hr conf. destruct (header_confidence fields required Hf Hr) as (j & Hj & E).
  unfold conf. rewrite E. destruct (floor_max j Hj) as [F5 F1].
  destruct (0 <? n).
  - exists (Z.max j 50). split; [lia|exact F5].
  - exists (Z.max j 10). split; [lia|exact F1].
Qed.

Lemma bank_warning_codes nativeDate now pageTexts fullText :
  let r := BankParser.extractBankStatement nativeDate now pageTexts fullText in
  List.map code_ (BankParser.ex_warnings r)
  = (if isSome (BankParser.findHeader BankParser.headerPatterns
                  (Normalize.getLines (Normalize.cleanOCRArtifacts fullText)))
     then [] else [NO_TABLE_HEADER; HEURISTIC_PARSING])
    ++ (match BankParser.out_transactions (BankParser.ex_output r) with
        | [] => [NO_TRANSACTIONS]
        | _ :: _ => []
        end).
Proof.
  cbv zeta. unfold BankParser.extractBankStatement.
  set (lines := Normalize.getLines (Normalize.cleanOCRArtifacts fullText)).
  unfold BankParser.extractTransactions, BankParser.parseTransactionHeuristic.
  destruct (BankParser.findHeader BankParser.headerPatterns lines) as [h|];
    cbn [isSome BankParser.ex_warnings BankParser.ex_output BankParser.out_transactions].
  - now destruct (BankParser.rowLoop _ _ _ _ _).
  - now destruct (BankParser.heuristicLoop _ _ _).
Qed.

Lemma bank_confidence_form nativeDate now pageTexts fullText :
  let r := BankParser.extractBankStatement nativeDate now pageTexts fullText in
  exists j,
    ((match BankParser.out_transactions (BankParser.ex_output r) with
      | [] => 10 | _ :: _ => 50 end) <= j <= 100)%Z /\
    BankParser.ex_confidence r = hundredth j.
Proof.
  cbv zeta. unfold BankParser.extractBankStatement.
  destruct (BankParser.extractTransactions _ _ _ _) as [txns tw].
  cbn [BankParser.ex_output BankParser.out_transactions BankParser.ex_confidence].
  match goal with
  | |- context [Normalize.calcConfidence ?f ?q] =>
    destruct (floor_confidence f q (length txns) (or_introl eq_refl) eq_refl)
      as (j & Hj & E)
  end.
  cbv zeta in E. exists j. split; [|exact E]. now destruct txns.
Qed.

(** X8 (bankParser.js, [extractBankStatement] and [extractTransactions]):
    the warnings are NO_TABLE_HEADER and HEURISTIC_PARSING when no
    header line is found, followed by NO_TRANSACTIONS when no row was
    extracted, and nothing else; the confidence is at most 1 and at
    least 0.1, and at least 0.5 when a row was extracted. *)
Theorem bank_statement_warnings_and_confidence :
  forall nativeDate now pageTexts fullText,
    let r := BankParser.extractBankStatement nativeDate now pageTexts fullText in
    let txns := BankParser.out_transactions (BankParser.ex_output r) in
    let lines := Normalize.getLines (Normalize.cleanOCRArtifacts fullText) in
    List.map code_ (BankParser.ex_warnings r)
    = (if isSome (BankParser.findHeader BankParser.headerPatterns lines)
       then [] else [NO_TABLE_HEADER; HEURISTIC_PARSING])
      ++ (match txns with [] => [NO_TRANSACTIONS] | _ :: _ => [] end) /\
    Num.leb (match txns with [] => Normalize.dec 1 (-1) | _ :: _ => Normalize.dec 5 (-1) end)
            (BankParser.ex_confidence r) = true /\
    Num.leb (BankParser.ex_confidence r) (Num.ofZ 1) = true.
Proof.
  intros nativeDate now pageTexts fullText r txns lines.
  split; [apply bank_warning_codes|].
  destruct (bank_confidence_form nativeDate now pageTexts fullText) as (j & Hj & E).
  fold r in E, Hj. fold txns in Hj. rewrite E.
  destruct (hundredth_order j ltac:(destruct txns; lia)) as (_ & H1 & H10 & _ & H50 & _).
  split; [|exact H1]. destruct txns; [apply H10|apply H50]; lia.
Qed.

Lemma skipTo_none {A : Type} (f : A -> bool) (l : list A) :
  forallb (fun x => negb (f x)) l = true -> skipTo f l = [].
Proof.
  induction l as [|x l IH]; simpl; [reflexivity|]. intros H.
  apply andb_true_iff in H as [Hx Hl]. apply negb_true_iff in Hx. now rewrite Hx, IH.
Qed.

Lemma splitLoop_spec (ps : list regex) (lines : list jsstring) :
  forall (blocks : list (list jsstring)) (cur : list jsstring) (inBlock : bool),
    Forall (startsBlock ps) blocks ->
    (if inBlock then startsBlock ps cur else cur = []) ->
    let '(bs, c) := TaxParser.splitLoop ps lines blocks cur inBlock in
    Forall (startsBlock ps) bs /\
    (c = [] \/ startsBlock ps c) /\
    concat bs ++ c = concat blocks ++ cur ++ (if inBlock then lines else skipTo (isStart ps) lines).
Proof.
  induction lines as [|line lines IH]; intros blocks cur inBlock Hb Hc; cbn [TaxParser.splitLoop].
  - split; [exact Hb|]. split.
    + destruct inBlock; auto.
    + destruct inBlock; simpl; now rewrite ?app_nil_r.
  - fold (isStart ps line). destruct (isStart ps line) eqn:Es.
    + specialize (IH (if 0 <? length cur then blocks ++ [cur] else blocks) [line] true).
      destruct (TaxParser.splitLoop ps lines _ [line] true) as [bs c].
      destruct IH as (I1 & I2 & I3).
      * destruct inBlock.
        -- destruct Hc as (l & rest & -> & Hl & Hr). simpl.
           apply Forall_app. split; [exact Hb|]. constructor; [|constructor].
           exists l, rest. auto.
        -- subst cur. exact Hb.
      * exists line, []. auto.
      * split; [exact I1|]. split; [exact I2|]. rewrite I3.
        destruct inBlock.
        -- destruct Hc as (l & rest & -> & Hl & Hr). simpl.
           rewrite concat_app. simpl. rewrite app_nil_r, <- !app_assoc. reflexivity.
        -- subst cur. cbn [skipTo]. rewrite Es. reflexivity.
    + destruct inBlock.
      * specialize (IH blocks (cur ++ [line]) true Hb).
        destruct (TaxParser.splitLoop ps lines blocks (cur ++ [line]) true) as [bs c].
        destruct IH as (I1 & I2 & I3).
        -- destruct Hc as (l & rest & -> & Hl & Hr). exists l, (rest ++ [line]).
           split; [reflexivity|]. split; [exact Hl|].
           rewrite forallb_app, Hr. simpl. now rewrite Es.
        -- split; [exact I1|]. split; [exact I2|]. rewrite I3, <- !app_assoc. reflexivity.
      * specialize (IH blocks cur false Hb Hc).
        destruct (TaxParser.splitLoop ps lines blocks cur false) as [bs c].
        destruct IH as (I1 & I2 & I3). split; [exact I1|]. split; [exact I2|].
        rewrite I3. cbn [skipTo]. now rewrite Es.
Qed.

Lemma splitByDeductors_nonempty (lines : list jsstring) (ps : list regex) :
  TaxParser.splitByDeductors lines ps <> [].
Proof.
  unfold TaxParser.splitByDeductors.
  destruct (TaxParser.splitLoop ps lines [] [] false) as [bs c].
  destruct (if 0 <? length c then bs ++ [c] else bs); simpl; [destruct lines|]; discriminate.
Qed.

(** X9 (taxParser.js, [splitByDeductors]): the list of blocks is never
    empty; with no start line in the text the one block is the whole
    text; otherwise every block begins with a start line and holds no
    other, and the blocks in order make up the lines from the first
    start line on (what stands before it belongs to no block). *)
Theorem splitByDeductors_blocks :
  forall lines startPatterns,
    let blocks := TaxParser.splitByDeductors lines startPatterns in
    blocks <> [] /\
    (forallb (fun l => negb (isStart startPatterns l)) lines = true -> blocks = [lines]) /\
    (existsb (isStart startPatterns) lines = true ->
     Forall (startsBlock startPatterns) blocks /\
     concat blocks = skipTo (isStart startPatterns) lines).
Proof.
  intros lines ps. cbv zeta. unfold TaxParser.splitByDeductors.
  pose proof (splitLoop_spec ps lines [] [] false (Forall_nil _) eq_refl) as H.
  destruct (TaxParser.splitLoop ps lines [] [] false) as [bs c].
  destruct H as (I1 & I2 & I3). simpl in I3.
  set (blocks := if 0 <? length c then bs ++ [c] else bs).
  assert (Hgood : Forall (startsBlock ps) blocks).
  { unfold blocks. destruct c as [|x c]; [exact I1|]. simpl.
    apply Forall_app. split; [exact I1|]. constructor; [|constructor].
    destruct I2 as [I2|I2]; [discriminate|exact I2]. }
  assert (Hcat : concat blocks = skipTo (isStart ps) lines).
  { unfold blocks. destruct c as [|x c]; simpl.
    - now rewrite app_nil_r in I3.
    - rewrite concat_app. simpl. now rewrite app_nil_r. }
  split; [|split].
  - destruct blocks; simpl; [destruct lines|]; discriminate.
  - intros Hn. rewrite (skipTo_none _ _ Hn) in Hcat.
    destruct blocks as [|b blocks]; [reflexivity|]. exfalso.
    inversion Hgood as [|? ? (l & rest & Eb & _) _]. subst b. discriminate Hcat.
  - intros He. clearbody blocks. destruct blocks as [|b bl]; [|split; assumption].
    exfalso. simpl in Hcat. clear - He Hcat.
    induction lines as [|x lines IH]; [discriminate|]. simpl in *.
    destruct (isStart ps x); [discriminate|]. auto.
Qed.

Lemma splitByDeductors_blocks_witness :
  (Forall (startsBlock TaxParser.deductorStartPatterns)
     (TaxParser.splitByDeductors
        [lit "PAN: ABCDE1234F"; lit "Name of Deductor: A"; lit "192 5.00";
         lit "Name of Deductor: B"] TaxParser.deductorStartPatterns) /\
   concat (TaxParser.splitByDeductors
        [lit "PAN: ABCDE1234F"; lit "Name of Deductor: A"; lit "192 5.00";
         lit "Name of Deductor: B"] TaxParser.deductorStartPatterns)
   = skipTo (isStart TaxParser.deductorStartPatterns)
       [lit "PAN: ABCDE1234F"; lit "Name of Deductor: A"; lit "192 5.00";
        lit "Name of Deductor: B"]) /\
  TaxParser.splitByDeductors [lit "192 5.00"] TaxParser.deductorStartPatterns
  = [[lit "192 5.00"]].
Proof.
  split.
  - exact (proj2 (proj2 (splitByDeductors_blocks
      [lit "PAN: ABCDE1234F"; lit "Name of Deductor: A"; lit "192 5.00";
       lit "Name of Deductor: B"] TaxParser.deductorStartPatterns)) eq_refl).
  - exact (proj1 (proj2 (splitByDeductors_blocks [lit "192 5.00"]
                           TaxParser.deductorStartPatterns)) eq_refl).
Defined.

Lemma tax_result_form nativeDate now pageTexts fullText :
  let r := TaxParser.extractTaxStatement nativeDate now pageTexts fullText in
  TaxParser.out_deductors (TaxParser.ex_output r)
  = List.map (fun block => TaxParser.parseDeductorBlock nativeDate now block
                             (Str.join [10%N] block))
      (TaxParser.splitByDeductors
         (Normalize.getLines (Normalize.cleanOCRArtifacts fullText))
         TaxParser.deductorStartPatterns) /\
  TaxParser.ex_warnings r = [] /\
  exists j, (50 <= j <= 100)%Z /\ TaxParser.ex_confidence r = hundredth j.
Proof.
  cbv zeta. unfold TaxParser.extractTaxStatement, TaxParser.extractDeductors.
  set (lines := Normalize.getLines (Normalize.cleanOCRArtifacts fullText)).
  set (header := TaxParser.extractTaxHeader _ lines).
  set (blocks := TaxParser.splitByDeductors lines TaxParser.deductorStartPatterns).
  cbn [TaxParser.ex_output TaxParser.out_deductors TaxParser.ex_warnings
       TaxParser.ex_confidence].
  set (deductors := List.map _ blocks).
  assert (Hpos : 0 < length deductors).
  { unfold deductors. rewrite length_map.
    pose proof (splitByDeductors_nonempty lines TaxParser.deductorStartPatterns) as Hne.
    fold blocks in Hne. destruct blocks; [congruence|simpl; lia]. }
  split; [reflexivity|]. split.
  - destruct (length deductors); [lia|reflexivity].
  - destruct (floor_confidence (TaxParser.headerFields header)
                ["pan"; "assessment_year"; "taxpayer_name"]%string (length deductors)
                (or_intror eq_refl) eq_refl) as (j & Hj & E).
    cbv zeta in E. exists j. split; [|exact E].
    apply Nat.ltb_lt in Hpos. now rewrite Hpos in Hj.
Qed.

(** X10 (taxParser.js, [extractTaxStatement] and [extractDeductors]):
    the extractor returns one deductor per block and at least one
    deductor for every text (for the empty text as well), so it never
    warns (NO_DEDUCTORS cannot arise) and its confidence lies between
    0.5 and 1. *)
Theorem tax_statement_always_has_a_deductor :
  forall nativeDate now pageTexts fullText,
    let r := TaxParser.extractTaxStatement nativeDate now pageTexts fullText in
    let deductors := TaxParser.out_deductors (TaxParser.ex_output r) in
    let lines := Normalize.getLines (Normalize.cleanOCRArtifacts fullText) in
    length deductors
    = length (TaxParser.splitByDeductors lines TaxParser.deductorStartPatterns) /\
    deductors <> [] /\
    TaxParser.ex_warnings r = [] /\
    Num.leb (Normalize.dec 5 (-1)) (TaxParser.ex_confidence r) = true /\
    Num.leb (TaxParser.ex_confidence r) (Num.ofZ 1) = true.
Proof.
  intros nativeDate now pageTexts fullText r deductors lines.
  destruct (tax_result_form nativeDate now pageTexts fullText) as (Ed & Ew & j & Hj & Ec).
  fold r in Ed, Ew, Ec. fold deductors lines in Ed.
  pose proof (splitByDeductors_nonempty lines TaxParser.deductorStartPatterns) as Hne.
  destruct (hundredth_order j ltac:(lia)) as (_ & H1 & _ & _ & H50 & _).
  split; [rewrite Ed; apply length_map|].
  split.
  - rewrite Ed. destruct (TaxParser.splitByDeductors lines _); [congruence|discriminate].
  - rewrite Ec. split; [exact Ew|]. split; [apply H50; lia|exact H1].
Qed.

(** ** The assembled result *)

Lemma blend_table :
  (let cs := List.map hundredth (zseq 47 53) in
   let es := List.map (fun j => (j, hundredth j)) (zseq 10 91) in
   forallb (fun c => forallb (fun je =>
       between01 (Normalize.dec 17 (-2)) (blend c (snd je)) &&
       (if (50 <=? fst je)%Z then Num.leb (Normalize.dec 49 (-2)) (blend c (snd je))
        else true)) es) cs) = true.
Proof. vm_compute. reflexivity. Qed.

Lemma In_zseq (a n : nat) (k : Z) :
  (Z.of_nat a <= k < Z.of_nat (a + n))%Z -> In k (zseq a n).
Proof.
  intros Hk. unfold zseq. apply in_map_iff. exists (Z.to_nat k). split; [lia|].
  apply in_seq. lia.
Qed.

Lemma blend_range (k j : Z) :
  (47 <= k <= 99)%Z -> (10 <= j <= 100)%Z ->
  Num.leb (Normalize.dec 17 (-2)) (blend (hundredth k) (hundredth j)) = true /\
  Num.leb (blend (hundredth k) (hundredth j)) (Num.ofZ 1) = true /\
  ((50 <= j)%Z ->
   Num.leb (Normalize.dec 49 (-2)) (blend (hundredth k) (hundredth j)) = true).
Proof.
  intros Hk Hj. pose proof blend_table as H. cbv zeta in H.
  rewrite forallb_forall in H.
  specialize (H (hundredth k) (in_map hundredth _ _ (In_zseq 47 53 k ltac:(lia)))).
  rewrite forallb_forall in H.
  specialize (H (j, hundredth j)
                (in_map (fun j => (j, hundredth j)) _ _ (In_zseq 10 91 j ltac:(lia)))).
  cbn [fst snd] in H. unfold between01 in H.
  apply andb_true_iff in H as [H H49]. apply andb_true_iff in H as [H17 H1].
  split; [exact H17|]. split; [exact H1|].
  intros H50. destruct (Z.leb_spec 50 j); [exact H49|lia].
Qed.

Lemma processCore_parts nativeDate validateResult now documentId isScanned pageCount
    pageTexts originalName :
  let fullText := Str.join Processor.pageBreak pageTexts in
  let v := Classifier.classifyDocument fullText originalName in
  let e := Processor.extract nativeDate now (Classifier.documentType v) pageTexts fullText in
  let r := Processor.processCore nativeDate validateResult now documentId isScanned
             pageCount pageTexts originalName in
  Processor.document_type r = Classifier.documentType v /\
  Processor.payload_ r = Processor.er_payload e /\
  Processor.confidence_ r = blend (Classifier.confidence v) (Processor.er_confidence e) /\
  exists errs,
    (fst (validateResult
            (Processor.FinalResult (Processor.schema_version r) (Processor.document_id r)
               (Processor.document_type r) (Processor.processing_ r)
               (Processor.confidence_ r)
               (firstn (length (Processor.warnings_ r) - length errs) (Processor.warnings_ r))
               (Processor.payload_ r))
            (Classifier.documentType v)) = true -> errs = []) /\
    Processor.warnings_ r =
    ((if isScanned
      then Warning SCANNED_PDF (lit "Document appears to be scanned. OCR applied.") ::
           (if length (filter (fun w => 2 <? length w) (split sp1 fullText)) <? 20
            then [Warning LOW_OCR_QUALITY
                    (lit "OCR produced very little readable text. The scan quality may be too poor to extract data reliably.")]
            else [])
      else [])
     ++ (match Classifier.documentType v with
         | Classifier.unknown =>
           [Warning UNKNOWN_DOCUMENT_TYPE
              (lit "Could not confidently classify document type. Attempting generic extraction.")]
         | _ => []
         end)
     ++ (match Processor.er_warnings e with Some ws => ws | None => [] end))
    ++ List.map (fun x => Warning SCHEMA_VALIDATION x) errs.
Proof.
  cbv zeta. unfold Processor.processCore.
  set (fullText := Str.join Processor.pageBreak pageTexts).
  set (v := Classifier.classifyDocument fullText originalName).
  set (e := Processor.extract nativeDate now (Classifier.documentType v) pageTexts fullText).
  match goal with
  | |- context [validateResult ?x ?t] => set (pre := x); destruct (validateResult pre t)
      as [valid errs] eqn:Ev
  end.
  assert (Hw : Processor.warnings_ pre =
    (if isScanned
      then Warning SCANNED_PDF (lit "Document appears to be scanned. OCR applied.") ::
           (if length (filter (fun w => 2 <? length w) (split sp1 fullText)) <? 20
            then [Warning LOW_OCR_QUALITY
                    (lit "OCR produced very little readable text. The scan quality may be too poor to extract data reliably.")]
            else [])
      else [])
     ++ (match Classifier.documentType v with
         | Classifier.unknown =>
           [Warning UNKNOWN_DOCUMENT_TYPE
              (lit "Could not confidently classify document type. Attempting generic extraction.")]
         | _ => []
         end)
     ++ (match Processor.er_warnings e with Some ws => ws | None => [] end)).
  { unfold pre. cbn [Processor.warnings_]. destruct isScanned; cbn [andb].
    - destruct (_ <? 20); destruct (Classifier.documentType v); simpl;
        rewrite <- ?app_assoc; reflexivity.
    - destruct (Classifier.documentType v); simpl; rewrite ?app_nil_r; reflexivity. }
  destruct valid.
  - repeat split; try reflexivity. exists []. split; [reflexivity|].
    cbn [List.map]. rewrite app_nil_r. exact Hw.
  - cbn [Processor.document_type Processor.payload_ Processor.confidence_
         Processor.warnings_ Processor.schema_version Processor.document_id
         Processor.processing_].
    repeat split; try reflexivity. exists errs. split; [|now rewrite Hw].
    rewrite length_app, length_map, Nat.add_sub, firstn_app, Nat.sub_diag, firstn_all.
    cbn [firstn]. rewrite app_nil_r.
    assert (Hpre : Processor.FinalResult (Processor.schema_version pre)
                     (Processor.document_id pre) (Processor.document_type pre)
                     (Processor.processing_ pre) (Processor.confidence_ pre)
                     (Processor.warnings_ pre) (Processor.payload_ pre) = pre)
      by reflexivity.
    rewrite Hpre, Ev. discriminate.
Qed.

Lemma blend_unknown : blend (Num.ofZ 0) (Normalize.dec 1 (-1)) = Normalize.dec 8 (-2).
Proof. vm_compute. reflexivity. Qed.

(** X11 (processor.js, [processJob], steps 4 to 6): the result of an
    unknown document has confidence 0.08 and no extracted part; that of
    a bank statement has the bank output and a confidence between 0.17
    and 1; that of a tax statement has the tax output and a confidence
    between 0.49 and 1.  So the confidence always meets the bounds 0
    and 1 of the result schema. *)
Theorem result_confidence_by_type :
  forall nativeDate validateResult now documentId isScanned pageCount pageTexts originalName,
    let r := Processor.processCore nativeDate validateResult now documentId isScanned
               pageCount pageTexts originalName in
    match Processor.document_type r with
    | Classifier.unknown =>
      Processor.payload_ r = Processor.NoPayload /\
      Processor.confidence_ r = Normalize.dec 8 (-2)
    | Classifier.bank_statement =>
      (exists o, Processor.payload_ r = Processor.BankPayload o) /\
      Num.leb (Normalize.dec 17 (-2)) (Processor.confidence_ r) = true /\
      Num.leb (Processor.confidence_ r) (Num.ofZ 1) = true
    | Classifier.tax_statement =>
      (exists o, Processor.payload_ r = Processor.TaxPayload o) /\
      Num.leb (Normalize.dec 49 (-2)) (Processor.confidence_ r) = true /\
      Num.leb (Processor.confidence_ r) (Num.ofZ 1) = true
    end.
Proof.
  intros nd vr now id sc pc pts name r.
  destruct (processCore_parts nd vr now id sc pc pts name) as (Et & Ep & Ec & _).
  fold r in Et, Ep, Ec. rewrite Et, Ep, Ec. clear Et Ep Ec r.
  set (fullText := Str.join Processor.pageBreak pts).
  destruct (classifyDocument_cases fullText name)
    as [E|(b & t & k & Hm & Hb & Ht & Hk & E)]; rewrite E;
    cbn [Classifier.documentType Classifier.confidence].
  - cbn [Processor.extract Processor.er_payload Processor.er_confidence].
    split; [reflexivity|apply blend_unknown].
  - destruct (t <=? b); cbn [Processor.extract Processor.er_payload Processor.er_confidence].
    + split; [eexists; reflexivity|].
      destruct (bank_confidence_form nd now pts fullText) as (j & Hj & Ej).
      cbv zeta in Ej. rewrite Ej.
      assert (Hj' : (10 <= j <= 100)%Z)
        by (destruct (BankParser.out_transactions _); lia).
      destruct (blend_range k j Hk Hj') as (L & U & _). auto.
    + split; [eexists; reflexivity|].
      destruct (tax_result_form nd now pts fullText) as (_ & _ & j & Hj & Ej).
      cbv zeta in Ej. rewrite Ej.
      destruct (blend_range k j Hk ltac:(lia)) as (_ & U & L). split; [apply L; lia|exact U].
Qed.

Lemma hasCode_codes (c : wcode) (ws : list warning) :
  hasCode c ws = existsb (fun x => wcode_eqb x c) (List.map code_ ws).
Proof.
  unfold hasCode. induction ws as [|w ws IH]; [reflexivity|]. simpl. now rewrite IH.
Qed.

Lemma filter_notSchema_errors (errs : list jsstring) :
  filter notSchema (List.map code_ (List.map (fun x => Warning SCHEMA_VALIDATION x) errs)) = [].
Proof. induction errs as [|x errs IH]; [reflexivity|exact IH]. Qed.

(** X12 (processor.js, [processJob], steps 3 to 7): apart from the
    SCHEMA_VALIDATION entries that the validator adds at the end, the
    warnings of a result are, in this order: SCANNED_PDF for a scanned
    document, then LOW_OCR_QUALITY when it has fewer than 20 words of
    more than two units; then UNKNOWN_DOCUMENT_TYPE alone for an unknown
    document, nothing for a tax statement, and for a bank statement
    NO_TABLE_HEADER and HEURISTIC_PARSING when no header line is found
    and NO_TRANSACTIONS when no row was extracted.  With a validator
    that accepts every result there is no SCHEMA_VALIDATION entry. *)
Theorem result_warning_codes :
  forall nativeDate validateResult now documentId isScanned pageCount pageTexts originalName,
    let r := Processor.processCore nativeDate validateResult now documentId isScanned
               pageCount pageTexts originalName in
    let fullText := Str.join Processor.pageBreak pageTexts in
    let lines := Normalize.getLines (Normalize.cleanOCRArtifacts fullText) in
    filter notSchema (List.map code_ (Processor.warnings_ r))
    = (if isScanned
       then SCANNED_PDF ::
            (if length (filter (fun w => 2 <? length w) (split sp1 fullText)) <? 20
             then [LOW_OCR_QUALITY] else [])
       else [])
      ++ match Processor.payload_ r with
         | Processor.NoPayload => [UNKNOWN_DOCUMENT_TYPE]
         | Processor.TaxPayload _ => []
         | Processor.BankPayload o =>
           (if isSome (BankParser.findHeader BankParser.headerPatterns lines)
            then [] else [NO_TABLE_HEADER; HEURISTIC_PARSING])
           ++ (match BankParser.out_transactions o with
               | [] => [NO_TRANSACTIONS]
               | _ :: _ => []
               end)
         end /\
    ((forall x t, fst (validateResult x t) = true) ->
     hasCode SCHEMA_VALIDATION (Processor.warnings_ r) = false).
Proof.
  intros nd vr now id sc pc pts name r fullText lines.
  destruct (processCore_parts nd vr now id sc pc pts name)
    as (_ & Ep & _ & errs & Hv & Ew).
  fold r fullText in Ep, Ew, Hv.
  set (v := Classifier.classifyDocument fullText name) in *.
  assert (Hbody :
    List.map code_
      ((match Classifier.documentType v with
        | Classifier.unknown =>
          [Warning UNKNOWN_DOCUMENT_TYPE
             (lit "Could not confidently classify document type. Attempting generic extraction.")]
        | _ => []
        end)
       ++ (match Processor.er_warnings
                   (Processor.extract nd now (Classifier.documentType v) pts fullText)
           with Some ws => ws | None => [] end))
    = match Processor.payload_ r with
      | Processor.NoPayload => [UNKNOWN_DOCUMENT_TYPE]
      | Processor.TaxPayload _ => []
      | Processor.BankPayload o =>
        (if isSome (BankParser.findHeader BankParser.headerPatterns lines)
         then [] else [NO_TABLE_HEADER; HEURISTIC_PARSING])
        ++ (match BankParser.out_transactions o with
            | [] => [NO_TRANSACTIONS]
            | _ :: _ => []
            end)
      end).
  { rewrite Ep. destruct (Classifier.documentType v);
      cbn [Processor.extract Processor.er_warnings Processor.er_payload app].
    - apply bank_warning_codes.
    - destruct (tax_result_form nd now pts fullText) as (_ & E & _). cbv zeta in E.
      now rewrite E.
    - reflexivity. }
  split.
  - rewrite Ew, !map_app, filter_app, filter_notSchema_errors, app_nil_r.
    rewrite <- map_app, Hbody.
    rewrite filter_app.
    assert (F1 : forall l1 l2 : list wcode,
               forallb notSchema l1 = true -> forallb notSchema l2 = true ->
               filter notSchema l1 ++ filter notSchema l2 = l1 ++ l2).
    { intros l1 l2 H1 H2. now rewrite !filter_all. }
    rewrite F1.
    + f_equal. destruct sc; [|reflexivity]. now destruct (_ <? 20).
    + destruct sc; [|reflexivity]. now destruct (_ <? 20).
    + destruct (Processor.payload_ r) as [o| |]; try reflexivity.
      destruct (isSome _); destruct (BankParser.out_transactions o); reflexivity.
  - intros Hall. rewrite (Hv (Hall _ _)) in Ew. rewrite Ew. cbn [List.map].
    rewrite app_nil_r, !hasCode_app.
    assert (Hx : hasCode SCHEMA_VALIDATION
                   (match Processor.er_warnings
                            (Processor.extract nd now (Classifier.documentType v) pts fullText)
                    with Some ws => ws | None => [] end) = false).
    { destruct (Classifier.documentType v);
        cbn [Processor.extract Processor.er_warnings].
      - pose proof (bank_warning_codes nd now pts fullText) as Hc. cbv zeta in Hc.
        rewrite hasCode_codes, Hc. destruct (isSome _); destruct (BankParser.out_transactions _); reflexivity.
      - destruct (tax_result_form nd now pts fullText) as (_ & E & _). cbv zeta in E.
        now rewrite E.
      - reflexivity. }
    rewrite Hx. destruct sc; [destruct (_ <? 20)|]; destruct (Classifier.documentType v);
      reflexivity.
Qed.

Lemma result_warning_codes_witness :
  hasCode SCHEMA_VALIDATION
    (Processor.warnings_
       (Processor.processCore noNative allValid sampleNow (lit "doc-1") true 1
          [salaryStatement] (lit "bank.pdf"))) = false.
Proof.
  exact (proj2 (result_warning_codes noNative allValid sampleNow (lit "doc-1") true 1
                  [salaryStatement] (lit "bank.pdf"))
               (fun _ _ => eq_refl)).
Defined.

(** ** Rows in header mode *)

Lemma parseTransactionRow_fields nativeDate now line colMap idx t :
  BankParser.parseTransactionRow nativeDate now line colMap idx = Some t ->
  BankParser.raw_ t = Some line /\
  (exists d, BankParser.date_ t = Some d /\ d <> []) /\
  BankParser.description t <> Some [].
Proof.
  unfold BankParser.parseTransactionRow.
  destruct (exec BankParser.rowDate line) as [dm|]; [|discriminate].
  destruct (Normalize.normalizeDate nativeDate now _) as [[|c d]|]; try discriminate.
  destruct (BankParser.assignAmounts line _) as [[db cr] bal].
  intros H; injection H as <-. cbn [BankParser.raw_ BankParser.date_ BankParser.description].
  split; [reflexivity|]. split; [exists (c :: d); split; [reflexivity|discriminate]|].
  unfold strOrNull. destruct (replaceAll sp1 _ _); discriminate.
Qed.

Lemma rowLoop_In nativeDate now (rows : list jsstring) : forall colMap i t,
  In t (BankParser.rowLoop nativeDate now rows colMap i) ->
  exists pre line post j,
    rows = pre ++ line :: post /\
    forallb (fun l => negb (test BankParser.summaryRe l)) (pre ++ [line]) = true /\
    test BankParser.separatorRe line = false /\
    BankParser.parseTransactionRow nativeDate now line colMap j = Some t.
Proof.
  induction rows as [|l rows IH]; intros colMap i t; [simpl; tauto|].
  rewrite rowLoop_cons.
  destruct (test BankParser.summaryRe l) eqn:Es; [simpl; tauto|].
  assert (Hrec : In t (BankParser.rowLoop nativeDate now rows colMap (S i)) ->
    exists pre line post j,
      l :: rows = pre ++ line :: post /\
      forallb (fun l => negb (test BankParser.summaryRe l)) (pre ++ [line]) = true /\
      test BankParser.separatorRe line = false /\
      BankParser.parseTransactionRow nativeDate now line colMap j = Some t).
  { intros H. destruct (IH _ _ _ H) as (pre & line & post & j & -> & Hf & Hs & Hp).
    exists (l :: pre), line, post, j. repeat split; auto.
    simpl. now rewrite Es. }
  destruct (test BankParser.separatorRe l) eqn:Esep; [exact Hrec|].
  destruct (negb (test BankParser.slashDate l) && negb (test BankParser.wordDate l));
    [exact Hrec|].
  destruct (BankParser.parseTransactionRow nativeDate now l colMap i) as [t'|] eqn:Ep;
    [|exact Hrec].
  intros [<-|H]; [|exact (Hrec H)].
  exists [], l, rows, i. repeat split; auto. simpl. now rewrite Es.
Qed.

(** X13 (bankParser.js, [extractTransactions] and [parseTransactionRow]):
    when a header line is found, every transaction comes from a line
    after it that stands before the first summary line (a line with
    "total", "closing balance" or "opening balance"): the line is kept
    as [_raw], its date is never null, and its description is null
    rather than empty; header mode adds no warning. *)
Theorem header_mode_rows :
  forall nativeDate now lines fullText h,
    BankParser.findHeader BankParser.headerPatterns lines = Some h ->
    let r := BankParser.extractTransactions nativeDate now lines fullText in
    snd r = [] /\
    forall t, In t (fst r) ->
      exists pre line post d,
        skipn (S h) lines = pre ++ line :: post /\
        forallb (fun l => negb (test BankParser.summaryRe l)) (pre ++ [line]) = true /\
        BankParser.raw_ t = Some line /\
        BankParser.date_ t = Some d /\ d <> [] /\
        BankParser.description t <> Some [].
Proof.
  intros nativeDate now lines fullText h Hh r. subst r.
  unfold BankParser.extractTransactions. rewrite Hh. cbn [fst snd].
  split; [reflexivity|]. intros t Ht.
  apply rowLoop_In in Ht. destruct Ht as (pre & line & post & j & E & Hf & _ & Hp).
  apply parseTransactionRow_fields in Hp. destruct Hp as (Hr & (d & Hd & Hne) & Hdesc).
  exists pre, line, post, d. repeat split; auto.
Qed.

Lemma header_mode_rows_witness :
  fst (BankParser.extractTransactions noNative sampleNow
         [lit "Date Description Debit Credit Balance"; salaryRow;
          lit "Total 55000.00"; lit "02/01/2024 ATM 10.00 5.00"] []) = [salaryTxn] /\
  snd (BankParser.extractTransactions noNative sampleNow
         [lit "Date Description Debit Credit Balance"; salaryRow;
          lit "Total 55000.00"; lit "02/01/2024 ATM 10.00 5.00"] []) = [] /\
  exists pre line post d,
    [salaryRow; lit "Total 55000.00"; lit "02/01/2024 ATM 10.00 5.00"]
    = pre ++ line :: post /\
    forallb (fun l => negb (test BankParser.summaryRe l)) (pre ++ [line]) = true /\
    BankParser.raw_ salaryTxn = Some line /\
    BankParser.date_ salaryTxn = Some d /\ d <> [] /\
    BankParser.description salaryTxn <> Some [].
Proof.
  destruct (header_mode_rows noNative sampleNow
    [lit "Date Description Debit Credit Balance"; salaryRow;
     lit "Total 55000.00"; lit "02/01/2024 ATM 10.00 5.00"] [] 0 eq_refl) as [H1 H2].
  split; [vm_compute; reflexivity|].
  split; [exact H1|]. apply (H2 salaryTxn). vm_compute. left. reflexivity.
Defined.

(** ** Rows of a deductor block *)

Lemma searchFrom_forall (r : regex) (P : jsstring -> list (option jsstring) -> Prop) :
  (forall prev rest n gs, matchHere r prev rest = Some (n, gs) -> P (firstn n rest) gs) ->
  forall rest prev idx m,
    searchFrom r prev rest idx = Some m -> P (m_text m) (m_groups m).
Proof.
  intros HP. induction rest as [|c t IH]; intros prev idx m; simpl.
  - destruct (matchHere r prev []) as [[n gs]|] eqn:E; [|discriminate].
    intros H; injection H as <-. now apply HP in E.
  - destruct (matchHere r prev (c :: t)) as [[n gs]|] eqn:E.
    + intros H; injection H as <-. now apply HP in E.
    + apply IH.
Qed.

(** A pattern of the form [\b(...)\b]: the capture is the matched text,
    a word of the group. *)
Lemma matchHere_bounded_group (a : regex) prev rest n gs :
  wf a = true ->
  matchHere (Bound >> Group 1 a >> Bound)%re prev rest = Some (n, gs) ->
  nth 0 gs None = Some (firstn n rest) /\ Lang a (firstn n rest).
Proof.
  intros W. unfold matchHere. cbn [run m_prev m_rest].
  destruct (xorb _ _); [|discriminate].
  match goal with
  | |- match run a ?s ?k with _ => _ end = _ -> _ =>
    destruct (run a s k) as [z|] eqn:E; [|discriminate]
  end.
  apply (run_sound a W) in E. destruct E as (s1 & E & (w & Ew & Lw & _)).
  cbn [m_prev m_rest m_caps] in E, Ew.
  destruct (xorb _ _) in E; [|discriminate]. injection E as <-.
  cbn [m_rest m_caps]. intros H; injection H as <- <-.
  rewrite Ew, app_length_suffix, firstn_app, Nat.sub_diag, firstn_all. simpl firstn.
  rewrite app_nil_r. split; [|exact Lw].
  unfold groupList, nGroups. cbn [groupsOf maxGroup app].
  rewrite app_nil_r. destruct (maxGroup (groupsOf a)); reflexivity.
Qed.

Lemma exec_bounded_group (a : regex) (s : jsstring) (m : mresult) :
  wf a = true ->
  exec (Bound >> Group 1 a >> Bound)%re s = Some m ->
  capture 1 m = Some (m_text m) /\ Lang a (m_text m).
Proof.
  intros W H. unfold exec in H.
  apply (searchFrom_forall _ (fun text gs => nth 0 gs None = Some text /\ Lang a text)) in H.
  - exact H.
  - intros prev rest n gs. now apply matchHere_bounded_group.
Qed.

Lemma section_capture (line : jsstring) (m : mresult) :
  exec TaxParser.sectionRe line = Some m ->
  exists v, capture 1 m = Some v /\ sectionShape v.
Proof.
  intros H. apply exec_bounded_group in H; [|reflexivity].
  destruct H as [Hc L]. exists (m_text m). split; [exact Hc|].
  revert L. generalize (m_text m). intros v.
  unfold str, times, opt, dg.
  intros (u1 & v1 & -> & L1 & (u2 & u3 & -> & L2 & L3)).
  apply Lang_strOf in L1. subst u1.
  apply Lang_rep_char in L2 as (F2 & Lo2 & Hi2), L3 as (F3 & _ & Hi3).
  specialize (Hi2 2 eq_refl). specialize (Hi3 1 eq_refl).
  destruct u2 as [|d1 [|d2 [|d3 u2]]]; simpl in Lo2, Hi2; try lia.
  simpl in F2. apply andb_true_iff in F2 as [D1 D2]. apply andb_true_iff in D2 as [D2 _].
  exists d1, d2, u3. split; [reflexivity|]. split; [exact D1|]. split; [exact D2|].
  destruct u3 as [|u [|u' u3]]; simpl in Hi3; try lia; [now left|].
  right. exists u. split; [reflexivity|]. simpl in F3. now apply andb_true_iff in F3 as [F3 _].
Qed.

Lemma status_capture (line : jsstring) (m : mresult) :
  exec TaxParser.statusRe line = Some m ->
  exists v, capture 1 m = Some v /\ In v [lit "F"; lit "U"; lit "P"; lit "O"].
Proof.
  intros H. apply exec_bounded_group in H; [|reflexivity].
  destruct H as [Hc L]. exists (m_text m). split; [exact Hc|].
  revert L. generalize (m_text m). intros v. unfold str.
  intros [L|[L|[L|L]]]; apply Lang_strOf in L; subst v; simpl; auto.
Qed.

Lemma extractStatusOfBooking_words (line : jsstring) :
  match TaxParser.extractStatusOfBooking line with
  | Some w => In w statusWords
  | None => True
  end.
Proof.
  unfold TaxParser.extractStatusOfBooking.
  destruct (exec TaxParser.statusRe line) as [m|] eqn:E; [|exact I].
  destruct (status_capture line m E) as (v & Hc & Hv).
  cbn [BankParser.bindCap]. rewrite Hc. cbn [option_map].
  destruct Hv as [<-|[<-|[<-|[<-|[]]]]]; vm_compute; auto.
Qed.

Lemma tdsLoop_In nativeDate now (hasHeader : bool) (rows : list jsstring) : forall t,
  In t (TaxParser.tdsLoop nativeDate now hasHeader rows) ->
  exists pre line post,
    rows = pre ++ line :: post /\
    forallb (fun l => negb (endsRows l)) (pre ++ [line]) = true /\
    test TaxParser.separatorRe line = false /\
    TaxParser.tdsRow nativeDate now hasHeader line = Some t.
Proof.
  induction rows as [|l rows IH]; intros t; [simpl; tauto|].
  cbn [TaxParser.tdsLoop].
  assert (Hrec : endsRows l = false ->
    In t (TaxParser.tdsLoop nativeDate now hasHeader rows) ->
    exists pre line post,
      l :: rows = pre ++ line :: post /\
      forallb (fun l => negb (endsRows l)) (pre ++ [line]) = true /\
      test TaxParser.separatorRe line = false /\
      TaxParser.tdsRow nativeDate now hasHeader line = Some t).
  { intros He H. destruct (IH _ H) as (pre & line & post & -> & Hf & Hs & Hp).
    exists (l :: pre), line, post. repeat split; auto.
    simpl. now rewrite He. }
  unfold endsRows in *.
  destruct (test TaxParser.separatorRe l) eqn:Esep; [exact (Hrec eq_refl)|].
  destruct (test TaxParser.totalRe l) eqn:Et; [simpl; tauto|].
  destruct (TaxParser.tdsRow nativeDate now hasHeader l) as [t'|] eqn:Ep;
    [|exact (Hrec eq_refl)].
  intros [<-|H]; [|exact (Hrec eq_refl H)].
  exists [], l, rows. repeat split; auto. simpl. now rewrite Esep, Et.
Qed.

Lemma flatten_cents (l : list mresult) (k : nat) :
  BankParser.flatten (nth_error (List.map (fun m => Some (centsOf (m_text m))) l) k)
  = option_map centsOf (nth_error (List.map m_text l) k).
Proof.
  revert k. induction l as [|m l IH]; intros [|k]; simpl; auto.
Qed.

Lemma tdsRow_fields nativeDate now hasHeader line t :
  TaxParser.tdsRow nativeDate now hasHeader line = Some t ->
  match TaxParser.section_ t with
  | Some v => sectionShape v
  | None =>
    hasHeader = false /\
    exists d, TaxParser.transaction_date t = Some d /\ d <> []
  end /\
  match TaxParser.status_of_booking t with
  | Some w => In w statusWords
  | None => True
  end /\
  (let toks := List.map m_text (matchAll TaxParser.amountsRe line) in
   TaxParser.amount_paid_credited t = option_map centsOf (nth_error toks 0) /\
   TaxParser.tax_deducted t = option_map centsOf (nth_error toks 1) /\
   TaxParser.tds_deposited t = option_map centsOf (nth_error toks 2)).
Proof.
  unfold TaxParser.tdsRow. rewrite taxAmounts_cents.
  set (txn := TaxParser.Transaction _ _ _ _ _ _ _ _).
  assert (Hrest :
    match TaxParser.status_of_booking txn with
    | Some w => In w statusWords
    | None => True
    end /\
    (let toks := List.map m_text (matchAll TaxParser.amountsRe line) in
     TaxParser.amount_paid_credited txn = option_map centsOf (nth_error toks 0) /\
     TaxParser.tax_deducted txn = option_map centsOf (nth_error toks 1) /\
     TaxParser.tds_deposited txn = option_map centsOf (nth_error toks 2))).
  { unfold txn. cbn [TaxParser.status_of_booking TaxParser.amount_paid_credited
                     TaxParser.tax_deducted TaxParser.tds_deposited].
    split; [apply extractStatusOfBooking_words|].
    cbv zeta. rewrite !flatten_cents. auto. }
  assert (Hsec : forall m, exec TaxParser.sectionRe line = Some m ->
                           exists v, TaxParser.section_ txn = Some v /\ sectionShape v).
  { intros m E. destruct (section_capture line m E) as (v & Hc & Hv).
    exists v. split; [|exact Hv]. unfold txn. cbn [TaxParser.section_].
    rewrite E. exact Hc. }
  assert (Hnone : exec TaxParser.sectionRe line = None -> TaxParser.section_ txn = None).
  { intros E. unfold txn. cbn [TaxParser.section_]. now rewrite E. }
  destruct (exec TaxParser.sectionRe line) as [m|] eqn:E.
  - destruct (Hsec m eq_refl) as (v & Hv & Sv).
    destruct (_ || _); [|discriminate]. intros H; injection H as <-.
    rewrite Hv. split; [exact Sv|exact Hrest].
  - destruct hasHeader; [discriminate|].
    destruct (TaxParser.isTruthyStr (TaxParser.section_ txn)
              || TaxParser.isTruthyStr (TaxParser.transaction_date txn)) eqn:Et;
      [|discriminate].
    intros H; injection H as <-. rewrite (Hnone eq_refl) in *.
    split; [|exact Hrest]. split; [reflexivity|].
    cbn [TaxParser.isTruthyStr orb] in Et.
    destruct (TaxParser.transaction_date txn) as [[|c d]|]; try discriminate.
    exists (c :: d). split; [reflexivity|discriminate].
Qed.

Lemma extractTDSTransactions_loop nativeDate now lines blockText :
  TaxParser.extractTDSTransactions nativeDate now lines blockText
  = TaxParser.tdsLoop nativeDate now (blockHasHeader lines) (blockRows lines).
Proof.
  unfold TaxParser.extractTDSTransactions, blockHasHeader, blockRows.
  now destruct (findIndex _ lines).
Qed.



(** X15 (taxParser.js, [extractTDSTransactions] and
    [extractStatusOfBooking]): in every row a section code is 1, two
    digits and at most one capital letter; the booking status is null
    or one of Final, Unmatched, Provisional and Overbooked (the
    fall-back to the matched letter never applies); the three amounts
    are the first three amount tokens of the line of the row, each read
    as its digits in hundredths, null where the line has no such
    token. *)
Theorem tds_row_values :
  forall nativeDate now lines blockText t,
    In t (TaxParser.extractTDSTransactions nativeDate now lines blockText) ->
    match TaxParser.section_ t with Some v => sectionShape v | None => True end /\
    match TaxParser.status_of_booking t with Some w => In w statusWords | None => True end /\
    exists line,
      In line lines /\
      let toks := List.map m_text (matchAll TaxParser.amountsRe line) in
      TaxParser.amount_paid_credited t = option_map centsOf (nth_error toks 0) /\
      TaxParser.tax_deducted t = option_map centsOf (nth_error toks 1) /\
      TaxParser.tds_deposited t = option_map centsOf (nth_error toks 2).
Proof.
  intros nativeDate now lines blockText t Ht.
  rewrite extractTDSTransactions_loop in Ht. apply tdsLoop_In in Ht.
  destruct Ht as (pre & line & post & E & _ & _ & Hr).
  apply tdsRow_fields in Hr. destruct Hr as (Hsec & Hst & Ham).
  split; [now destruct (TaxParser.section_ t)|]. split; [exact Hst|].
  exists line. split; [|exact Ham].
  assert (Hin : In line (blockRows lines)) by (rewrite E; apply in_elt).
  unfold blockRows in Hin. destruct (findIndex _ lines) as [h|]; [|exact Hin].
  rewrite <- (firstn_skipn (S h) lines). apply in_or_app. now right.
Qed.

Lemma tds_row_values_witness :
  In blockRow (TaxParser.extractTDSTransactions noNative sampleNow blockLines []) /\
  match TaxParser.section_ blockRow with Some v => sectionShape v | None => True end /\
  match TaxParser.status_of_booking blockRow with
  | Some w => In w statusWords | None => True end /\
  exists line,
    In line blockLines /\
    let toks := List.map m_text (matchAll TaxParser.amountsRe line) in
    TaxParser.amount_paid_credited blockRow = option_map centsOf (nth_error toks 0) /\
    TaxParser.tax_deducted blockRow = option_map centsOf (nth_error toks 1) /\
    TaxParser.tds_deposited blockRow = option_map centsOf (nth_error toks 2).
Proof.
  split; [vm_compute; left; reflexivity|].
  apply (tds_row_values noNative sampleNow blockLines [] blockRow).
  vm_compute. left. reflexivity.
Defined.

(** ** Identifiers of the headers *)

Lemma GroupLang_bodies (r : regex) (i : nat) (v : jsstring) :
  GroupLang r i v -> exists a, In a (groupBodies r i) /\ Lang a v.
Proof.
  induction r as [|c|a IHa b IHb|a IHa b IHb|lo hi a IHa|j a IHa|a IHa| | |]; simpl;
    try contradiction; auto.
  - intros [H|H]; [destruct (IHa H) as (x & Hx & L)|destruct (IHb H) as (x & Hx & L)];
      exists x; (split; [apply in_or_app; auto|exact L]).
  - intros [H|H]; [destruct (IHa H) as (x & Hx & L)|destruct (IHb H) as (x & Hx & L)];
      exists x; (split; [apply in_or_app; auto|exact L]).
  - intros [[-> L]|H].
    + exists a. rewrite Nat.eqb_refl. split; [now left|exact L].
    + destruct (IHa H) as (x & Hx & L). exists x. split; [apply in_or_app; auto|exact L].
Qed.

Lemma capture_lang (r body : regex) (text : jsstring) (m : mresult) (v : jsstring) :
  wf r = true -> groupBodies r 1 = [body] ->
  exec r text = Some m -> capture 1 m = Some v -> Lang body v.
Proof.
  intros W B E C. apply (exec_sound r text m W) in E. destruct E as (_ & _ & _ & G).
  apply G in C. apply GroupLang_bodies in C. destruct C as (a & Ha & L).
  rewrite B in Ha. destruct Ha as [<-|[]]. exact L.
Qed.

Lemma firstMatch_In (ps : list regex) (text : jsstring) (m : mresult) :
  firstMatch ps text = Some m -> exists p, In p ps /\ exec p text = Some m.
Proof.
  induction ps as [|p ps IH]; simpl; [discriminate|].
  destruct (exec p text) as [m'|] eqn:E.
  - intros H; injection H as <-. exists p; auto.
  - intros H. destruct (IH H) as (q & Hq & Eq). exists q; auto.
Qed.

Lemma bindCap_lang (r body : regex) (text v : jsstring) :
  wf r = true -> groupBodies r 1 = [body] ->
  BankParser.bindCap 1 (exec r text) = Some v -> Lang body v.
Proof.
  intros W B. destruct (exec r text) as [m|] eqn:E; [|discriminate].
  apply (capture_lang r body text m v W B E).
Qed.

Lemma bindCap_firstMatch_lang (ps : list regex) (body : regex) (text v : jsstring) :
  forallb wf ps = true ->
  (forall p, In p ps -> groupBodies p 1 = [body]) ->
  BankParser.bindCap 1 (firstMatch ps text) = Some v -> Lang body v.
Proof.
  intros W B. destruct (firstMatch ps text) as [m|] eqn:E; [|discriminate].
  apply firstMatch_In in E. destruct E as (p & Hp & E).
  rewrite forallb_forall in W.
  apply (capture_lang p body text m v (W p Hp) (B p Hp) E).
Qed.

Lemma upper_alpha (c : cu) : isAlpha c = true -> isUpper (Str.upperUnit c) = true.
Proof.
  unfold Str.upperUnit, isAlpha, union. intros H.
  destruct (isLower c) eqn:L.
  - unfold isLower, isUpper, between in *. apply andb_true_iff in L as [L1 L2].
    apply N.leb_le in L1, L2. apply andb_true_iff. split; apply N.leb_le; lia.
  - now rewrite orb_false_r in H.
Qed.

Lemma upper_digit (c : cu) : isDigit c = true -> Str.upperUnit c = c.
Proof.
  intros H. unfold Str.upperUnit. apply digit_code in H.
  unfold isLower, between.
  destruct (N.leb_spec 97 c); [lia|reflexivity].
Qed.

Lemma upper_all_alpha (w : jsstring) :
  forallb isAlpha w = true -> forallb isUpper (Str.toUpperCase w) = true.
Proof.
  induction w as [|c w IH]; simpl; [reflexivity|]. intros H.
  apply andb_true_iff in H as [Hc Hw]. now rewrite (upper_alpha c Hc), IH.
Qed.

Lemma upper_all_digit (w : jsstring) :
  forallb isDigit w = true -> Str.toUpperCase w = w.
Proof.
  induction w as [|c w IH]; simpl; [reflexivity|]. intros H.
  apply andb_true_iff in H as [Hc Hw]. now rewrite (upper_digit c Hc), IH.
Qed.

Lemma Lang_exactly (n : nat) (c : cset) (w : jsstring) :
  Lang (times n n (Char c)) w -> length w = n /\ forallb c w = true.
Proof.
  intros H. apply Lang_rep_char in H as (F & Lo & Hi). specialize (Hi n eq_refl).
  split; [lia|exact F].
Qed.

(** The text of an identifier of [letters] letters, [digits] digits and
    a letter, in upper case. *)
Lemma id_upper (letters digits : nat) (v : jsstring) :
  Lang (times letters letters (Char isAlpha) >> times digits digits dg >> Char isAlpha)%re v ->
  idShape letters digits (Str.toUpperCase v).
Proof.
  intros (a & r & -> & La & (b & c & -> & Lb & (x & -> & Hx))).
  apply Lang_exactly in La as [Na Fa]. apply Lang_exactly in Lb as [Nb Fb].
  exists (Str.toUpperCase a), b, (Str.upperUnit x).
  unfold Str.toUpperCase. rewrite !map_app. fold (Str.toUpperCase a) (Str.toUpperCase b).
  rewrite (upper_all_digit b Fb). split; [reflexivity|].
  split; [unfold Str.toUpperCase; now rewrite length_map|].
  split; [now apply upper_all_alpha|].
  repeat split; auto. now apply upper_alpha.
Qed.

Lemma upper_alnum (w : jsstring) :
  forallb (isAlpha :|: isDigit) w = true ->
  forallb (isUpper :|: isDigit) (Str.toUpperCase w) = true.
Proof.
  induction w as [|c w IH]; simpl; [reflexivity|]. intros H.
  apply andb_true_iff in H as [Hc Hw]. rewrite (IH Hw), andb_true_r.
  unfold union in *. apply orb_true_iff in Hc as [Hc|Hc].
  - now rewrite (upper_alpha c Hc).
  - rewrite (upper_digit c Hc), Hc. apply orb_true_r.
Qed.

Lemma ifsc_upper (v : jsstring) :
  Lang (times 4 4 (Char isAlpha) >> str "0" >> times 6 6 (Char (isAlpha :|: isDigit)))%re v ->
  ifscShape (Str.toUpperCase v).
Proof.
  intros (a & r & -> & La & (z & b & -> & Lz & Lb)).
  apply Lang_exactly in La as [Na Fa]. apply Lang_exactly in Lb as [Nb Fb].
  apply Lang_strOf in Lz. subst z.
  exists (Str.toUpperCase a), (Str.toUpperCase b).
  unfold Str.toUpperCase at 1. rewrite map_app. split; [reflexivity|].
  split; [unfold Str.toUpperCase; now rewrite length_map|].
  split; [now apply upper_all_alpha|].
  split; [unfold Str.toUpperCase; now rewrite length_map|].
  now apply upper_alnum.
Qed.

Lemma account_digits (v : jsstring) :
  Lang (dg >> times 5 20 (Char (isDigit :|: isSpace :|: chr "-")))%re v ->
  accountShape (replaceAll sp [] v).
Proof.
  intros (x & w & -> & (d & -> & Hd) & Lw).
  apply Lang_rep_char in Lw as (Fw & _ & Hi). specialize (Hi 20 eq_refl).
  unfold sp. rewrite replaceAll_char_delete. cbn [app filter].
  rewrite (digit_not_space d Hd). cbn [negb].
  exists d, (filter (fun x => negb (isSpace x)) w). split; [reflexivity|].
  split; [exact Hd|]. split.
  - rewrite forallb_forall in *. intros c Hc. apply filter_In in Hc as [Hc Hs].
    specialize (Fw c Hc). apply negb_true_iff in Hs. unfold union in *.
    rewrite Hs, orb_false_r in Fw. exact Fw.
  - eapply Nat.le_trans; [apply filter_length_le|exact Hi].
Qed.

(** X16 (bankParser.js, [extractHeader]): the branch is always null;
    the currency is one of INR, USD, GBP and EUR; an IFSC code, when
    found, is four capital letters, a zero and six capital letters or
    digits, whatever the case of the text; an account number, when
    found, starts with a digit, holds only digits and hyphens (no white
    space) and has at most 21 units. *)
Theorem bank_header_fields :
  forall nativeDate now text lines,
    let h := BankParser.extractHeader nativeDate now text lines in
    BankParser.branch h = None /\
    In (BankParser.currency h) currencies /\
    (forall c, BankParser.ifsc_code h = Some c -> ifscShape c) /\
    (forall a, BankParser.account_number h = Some a -> accountShape a).
Proof.
  intros nativeDate now text lines. cbv zeta. unfold BankParser.extractHeader.
  destruct (BankParser.periodLoop _ _ _ _ _ _) as [pf pt].
  cbn [BankParser.branch BankParser.currency BankParser.ifsc_code BankParser.account_number].
  split; [reflexivity|]. split.
  - unfold currencies.
    destruct (test BankParser.inrRe text); [simpl; auto|].
    destruct (test BankParser.usdRe text); [simpl; auto|].
    destruct (test BankParser.gbpRe text); [simpl; auto|].
    destruct (test BankParser.eurRe text); simpl; auto.
  - split.
    + intros c Hc.
      destruct (BankParser.bindCap 1 (exec BankParser.ifscRe text)) as [v|] eqn:E;
        [|discriminate].
      cbn [option_map] in Hc. injection Hc as <-. apply ifsc_upper.
      apply (bindCap_lang BankParser.ifscRe _ text v eq_refl eq_refl E).
    + intros a Ha.
      destruct (BankParser.bindCap 1 (firstMatch BankParser.acctPatterns text)) as [v|] eqn:E;
        [|discriminate].
      cbn [option_map] in Ha. injection Ha as <-. apply account_digits.
      apply (bindCap_firstMatch_lang BankParser.acctPatterns _ text v eq_refl); [|exact E].
      intros p [<-|[<-|[<-|[]]]]; reflexivity.
Qed.

Lemma bank_header_fields_witness :
  (BankParser.ifsc_code
     (BankParser.extractHeader noNative sampleNow bankHead (Normalize.getLines bankHead))
   = Some (lit "HDFC0001234") /\ ifscShape (lit "HDFC0001234")) /\
  (BankParser.account_number
     (BankParser.extractHeader noNative sampleNow bankHead (Normalize.getLines bankHead))
   = Some (lit "1234-567890") /\ accountShape (lit "1234-567890")).
Proof.
  assert (E1 : BankParser.ifsc_code
                 (BankParser.extractHeader noNative sampleNow bankHead
                    (Normalize.getLines bankHead)) = Some (lit "HDFC0001234"))
    by (vm_compute; reflexivity).
  assert (E2 : BankParser.account_number
                 (BankParser.extractHeader noNative sampleNow bankHead
                    (Normalize.getLines bankHead)) = Some (lit "1234-567890"))
    by (vm_compute; reflexivity).
  split; (split; [assumption|]).
  - exact (proj1 (proj2 (proj2 (bank_header_fields noNative sampleNow bankHead
                                  (Normalize.getLines bankHead)))) _ E1).
  - exact (proj2 (proj2 (proj2 (bank_header_fields noNative sampleNow bankHead
                                  (Normalize.getLines bankHead)))) _ E2).
Defined.

Lemma dash_not_space (d : cu) : TaxParser.dashes d = true -> isSpace d = false.
Proof.
  unfold TaxParser.dashes, union, chr, code. intros H.
  apply orb_true_iff in H as [H|H]; apply N.eqb_eq in H; subst d; reflexivity.
Qed.

Lemma filter_digits_nospace (w : jsstring) :
  forallb isDigit w = true -> filter (fun x => negb (isSpace x)) w = w.
Proof.
  intros H. apply filter_all. rewrite forallb_forall in *. intros c Hc.
  now rewrite (digit_not_space c (H c Hc)).
Qed.

Lemma year_nospace (v : jsstring) :
  Lang (times 4 4 dg >> sp0 >> Char TaxParser.dashes >> sp0 >> times 2 4 dg)%re v ->
  yearShape (replaceAll sp [] v).
Proof.
  unfold dg, sp0, star.
  intros (a & r1 & -> & La & (s1 & r2 & -> & Ls1 & (x & r3 & -> & (d & -> & Hd) &
            (s2 & b & -> & Ls2 & Lb)))).
  apply Lang_exactly in La as [Na Fa].
  apply Lang_rep_char in Ls1 as (F1 & _ & _), Ls2 as (F2 & _ & _),
    Lb as (Fb & Lob & Hib).
  specialize (Hib 4 eq_refl).
  unfold sp in *. rewrite replaceAll_char_delete, !filter_app.
  rewrite (filter_digits_nospace a Fa), (filter_digits_nospace b Fb).
  rewrite (@filter_none cu (fun x : cu => negb (isSpace x)) isSpace s1 F1)
    by (intros c Hc; now rewrite Hc).
  rewrite (@filter_none cu (fun x : cu => negb (isSpace x)) isSpace s2 F2)
    by (intros c Hc; now rewrite Hc).
  cbn [filter app]. rewrite (dash_not_space d Hd). cbn [negb].
  exists a, d, b. repeat split; auto.
Qed.

(** X17 (taxParser.js, [extractTaxHeader] and [parseDeductorBlock]):
    the taxpayer address is always null; a PAN, when found, is five
    capital letters, four digits and a capital letter, whatever the
    case of the text; a TAN is four capital letters, five digits and a
    capital letter; the assessment year is four digits, a hyphen or
    dash and two to four digits, without white space. *)
Theorem tax_identifiers :
  (forall text lines,
      let h := TaxParser.extractTaxHeader text lines in
      TaxParser.taxpayer_address h = None /\
      (forall p, TaxParser.pan h = Some p -> idShape 5 4 p) /\
      (forall y, TaxParser.assessment_year h = Some y -> yearShape y)) /\
  (forall nativeDate now lines blockText,
      let d := TaxParser.parseDeductorBlock nativeDate now lines blockText in
      (forall t, TaxParser.d_tan d = Some t -> idShape 4 5 t) /\
      (forall p, TaxParser.d_pan d = Some p -> idShape 5 4 p)).
Proof.
  split.
  - intros text lines. cbv zeta. unfold TaxParser.extractTaxHeader.
    cbn [TaxParser.taxpayer_address TaxParser.pan TaxParser.assessment_year].
    split; [reflexivity|]. split.
    + intros p Hp.
      destruct (BankParser.bindCap 1 (exec TaxParser.panRe text)) as [v|] eqn:E;
        [|discriminate].
      cbn [option_map] in Hp. injection Hp as <-. apply id_upper.
      apply (bindCap_lang TaxParser.panRe _ text v eq_refl eq_refl E).
    + intros y Hy.
      destruct (BankParser.bindCap 1 (exec TaxParser.ayRe text)) as [v|] eqn:E;
        [|discriminate].
      cbn [option_map] in Hy. injection Hy as <-. apply year_nospace.
      apply (bindCap_lang TaxParser.ayRe _ text v eq_refl eq_refl E).
  - intros nativeDate now lines blockText. cbv zeta. unfold TaxParser.parseDeductorBlock.
    cbn [TaxParser.d_tan TaxParser.d_pan]. split.
    + intros t Ht.
      destruct (BankParser.bindCap 1 (exec TaxParser.tanRe blockText)) as [v|] eqn:E;
        [|discriminate].
      cbn [option_map] in Ht. injection Ht as <-. apply id_upper.
      apply (bindCap_lang TaxParser.tanRe _ blockText v eq_refl eq_refl E).
    + intros p Hp.
      destruct (BankParser.bindCap 1 (exec TaxParser.deductorPanRe blockText)) as [v|] eqn:E;
        [|discriminate].
      cbn [option_map] in Hp. injection Hp as <-. apply id_upper.
      apply (bindCap_lang TaxParser.deductorPanRe _ blockText v eq_refl eq_refl E).
Qed.

Lemma tax_identifiers_witness :
  (TaxParser.pan (TaxParser.extractTaxHeader taxHead (Normalize.getLines taxHead))
   = Some (lit "ABCDE1234F") /\ idShape 5 4 (lit "ABCDE1234F")) /\
  (TaxParser.assessment_year (TaxParser.extractTaxHeader taxHead (Normalize.getLines taxHead))
   = Some (lit "2024-25") /\ yearShape (lit "2024-25")) /\
  (TaxParser.d_tan (TaxParser.parseDeductorBlock noNative sampleNow
                      (Normalize.getLines deductorHead) deductorHead)
   = Some (lit "MUMX12345A") /\ idShape 4 5 (lit "MUMX12345A")).
Proof.
  assert (E1 : TaxParser.pan (TaxParser.extractTaxHeader taxHead (Normalize.getLines taxHead))
               = Some (lit "ABCDE1234F")) by (vm_compute; reflexivity).
  assert (E2 : TaxParser.assessment_year
                 (TaxParser.extractTaxHeader taxHead (Normalize.getLines taxHead))
               = Some (lit "2024-25")) by (vm_compute; reflexivity).
  assert (E3 : TaxParser.d_tan (TaxParser.parseDeductorBlock noNative sampleNow
                                  (Normalize.getLines deductorHead) deductorHead)
               = Some (lit "MUMX12345A")) by (vm_compute; reflexivity).
  split; [|split]; (split; [assumption|]).
  - exact (proj1 (proj2 (proj1 tax_identifiers taxHead (Normalize.getLines taxHead))) _ E1).
  - exact (proj2 (proj2 (proj1 tax_identifiers taxHead (Normalize.getLines taxHead))) _ E2).
  - exact (proj1 (proj2 tax_identifiers noNative sampleNow
                    (Normalize.getLines deductorHead) deductorHead) _ E3).
Defined.
